(** * ZMK Studio key-assignment panel and keymap editor: a shallow embedding

    The development follows the TypeScript sources of the editor:

    - the metadata inspectors, the behaviour classifiers and the binding
      encoders/decoders of [KeyAssignPanel] (the repository holds two
      revisions of that component; the older one lives in [Module Legacy]);
    - the edit transactions of [Keyboard.tsx] ([doUpdateBinding],
      [importKeymap], [removeLayer]) together with the selected-layer clamp.

    Numbers are [Z], JavaScript arrays are lists, [undefined]/[null] is
    [None], and asynchronous handlers are computations in a small
    state-and-exception monad over the component state and the device. *)

From Stdlib Require Import ZArith Lia Bool QArith Ascii String List Permutation.
From stdpp Require Import base option list strings gmap sorting.

Local Open Scope string_scope.
Local Open Scope Z_scope.

(** ** Data model (types of the zmk-studio-ts-client messages, as the
       sources read them) *)

(** ["param1" | "param2"]. *)
Inductive ParamName := Param1 | Param2.

Definition ParamName_eqb (a b : ParamName) : bool :=
  match a, b with
  | Param1, Param1 | Param2, Param2 => true
  | _, _ => false
  end.

Module HidUsage.
(** [BehaviorParameterHidUsage]; a maximum that is absent reads as
    [undefined]. *)
Record t := mk { keyboardMax : option Z; consumerMax : option Z }.
End HidUsage.

Module Range.
Record t := mk { min : Z; max : Z }.
End Range.

Module Desc.
(** [BehaviorParameterValueDescription]: the sources only test which of
    the optional members are present. [layerId] carries no data. *)
Record t := mk {
  name : string;
  constant : option Z;
  range : option Range.t;
  hidUsage : option HidUsage.t;
  layerId : option unit
}.
End Desc.

Module PSet.
(** [BehaviorBindingParametersSet]; every use in the sources is
    [set.paramN || []], so an absent array is the empty list. *)
Record t := mk { param1 : list Desc.t; param2 : list Desc.t }.
End PSet.

Module Behavior.
(** [GetBehaviorDetailsResponse]; [metadata || []] likewise. *)
Record t := mk { id : Z; displayName : string; metadata : list PSet.t }.
End Behavior.

Module Binding.
(** [BehaviorBinding]. *)
Record t := mk { behaviorId : Z; param1 : Z; param2 : Z }.
End Binding.

(** [(param === "param1" ? set.param1 : set.param2) || []]. *)
Definition paramOf (p : ParamName) (set : PSet.t) : list Desc.t :=
  match p with
  | Param1 => PSet.param1 set
  | Param2 => PSet.param2 set
  end.

(** [param === "param1" ? binding.param1 : binding.param2]. *)
Definition bindingParam (p : ParamName) (b : Binding.t) : Z :=
  match p with
  | Param1 => Binding.param1 b
  | Param2 => Binding.param2 b
  end.

Definition isSome {A} (o : option A) : bool :=
  match o with Some _ => true | None => false end.

(** [x || 0] on an optional number. *)
Definition orZero (o : option Z) : Z :=
  match o with
  | Some n => n
  | None => 0
  end.

(** [BehaviorMap] is consumed through [Object.values] only; it is modelled
    as that list of values. *)
Definition BehaviorMap := list Behavior.t.

(** ** Metadata inspector *)

Module Caps.
Record t := mk { keyboardMax : Z; consumerMax : Z }.
End Caps.

(** [[...(set.param1 || []), ...(set.param2 || [])]]. *)
Definition bothParams (set : PSet.t) : list Desc.t :=
  PSet.param1 set ++ PSet.param2 set.

Definition capsOf (hidParam : option HidUsage.t) : option Caps.t :=
  match hidParam with
  | None => None
  | Some h =>
      Some (Caps.mk (orZero (HidUsage.keyboardMax h))
                    (orZero (HidUsage.consumerMax h)))
  end.

Definition getHidUsageCaps (behavior : Behavior.t) : option Caps.t :=
  let hidParam :=
    match List.find (fun param => isSome (Desc.hidUsage param))
               (flat_map bothParams (Behavior.metadata behavior)) with
    | Some param => Desc.hidUsage param
    | None => None
    end in
  capsOf hidParam.

Module Legacy.
(** The older revision of the panel scans [param1] only. *)
Definition getHidUsageCaps (behavior : Behavior.t) : option Caps.t :=
  let hidParam :=
    match List.find (fun param => isSome (Desc.hidUsage param))
               (flat_map PSet.param1 (Behavior.metadata behavior)) with
    | Some param => Desc.hidUsage param
    | None => None
    end in
  capsOf hidParam.
End Legacy.

Definition hasLayerIdParam (behavior : Behavior.t) : bool :=
  existsb (fun set => existsb (fun p => isSome (Desc.layerId p)) (bothParams set))
          (Behavior.metadata behavior).

Definition hasHidUsageParam (behavior : Behavior.t) : bool :=
  existsb (fun set => existsb (fun p => isSome (Desc.hidUsage p)) (bothParams set))
          (Behavior.metadata behavior).

Definition hasConstantParam (behavior : Behavior.t) : bool :=
  existsb (fun set => existsb (fun p => isSome (Desc.constant p)) (bothParams set))
          (Behavior.metadata behavior).

(** ** Behaviour classifier: layer-tap *)

Definition getQuickLayerTapBehaviors (behaviors : BehaviorMap) : list Behavior.t :=
  List.filter (fun b => hasLayerIdParam b && hasHidUsageParam b) behaviors.

Module LayerTapOrder.
Record t := mk { layerParam : ParamName; usageParam : ParamName }.
End LayerTapOrder.

Definition layerTapOrderOfSet (set : PSet.t) : option LayerTapOrder.t :=
  let p1HasLayer := existsb (fun p => isSome (Desc.layerId p)) (PSet.param1 set) in
  let p2HasLayer := existsb (fun p => isSome (Desc.layerId p)) (PSet.param2 set) in
  let p1HasUsage := existsb (fun p => isSome (Desc.hidUsage p)) (PSet.param1 set) in
  let p2HasUsage := existsb (fun p => isSome (Desc.hidUsage p)) (PSet.param2 set) in
  if p1HasLayer && p2HasUsage then Some (LayerTapOrder.mk Param1 Param2)
  else if p2HasLayer && p1HasUsage then Some (LayerTapOrder.mk Param2 Param1)
  else None.

(** The [for (const set of behavior.metadata || [])] loop: the first set
    that returns decides. *)
Fixpoint firstSet {A} (body : PSet.t -> option A) (sets : list PSet.t) : option A :=
  match sets with
  | [] => None
  | set :: rest =>
      match body set with
      | Some r => Some r
      | None => firstSet body rest
      end
  end.

Definition inferLayerTapParamOrder (behavior : Behavior.t) : option LayerTapOrder.t :=
  firstSet layerTapOrderOfSet (Behavior.metadata behavior).

(** ** Behaviour classifier: mod-tap *)

Module ModTapOrder.
Record t := mk { modParam : ParamName; usageParam : ParamName }.
End ModTapOrder.

Definition modTapOrderOfSet (set : PSet.t) : option ModTapOrder.t :=
  let p1HasConst := existsb (fun p => isSome (Desc.constant p)) (PSet.param1 set) in
  let p2HasConst := existsb (fun p => isSome (Desc.constant p)) (PSet.param2 set) in
  let p1HasUsage := existsb (fun p => isSome (Desc.hidUsage p)) (PSet.param1 set) in
  let p2HasUsage := existsb (fun p => isSome (Desc.hidUsage p)) (PSet.param2 set) in
  if p1HasConst && p2HasUsage then Some (ModTapOrder.mk Param1 Param2)
  else if p2HasConst && p1HasUsage then Some (ModTapOrder.mk Param2 Param1)
  else None.

Definition inferModTapParamOrder (behavior : Behavior.t) : option ModTapOrder.t :=
  firstSet modTapOrderOfSet (Behavior.metadata behavior).

Definition getQuickModTapBehaviors (behaviors : BehaviorMap) : list Behavior.t :=
  List.filter
    (fun b => hasHidUsageParam b && hasConstantParam b && negb (hasLayerIdParam b))
    behaviors.

(** ** Strings: [normalizeName]

    A string of the model is a sequence of UTF-16 code units below U+0100
    (the ISO 8859-1 range); the names and labels the sources compare are
    read in that range. There [toLowerCase] acts on each code unit by
    itself: it maps [A]-[Z] and the capital letters U+00C0-U+00DE (without
    the multiplication sign U+00D7) to the code unit 32 above. The class
    [\s] holds tab, line feed, vertical tab, form feed, carriage return,
    space and the no-break space U+00A0; [[\s_-]] adds underscore and
    hyphen. *)

Definition toLowerChar (c : ascii) : ascii :=
  let n := nat_of_ascii c in
  if (((65 <=? n) && (n <=? 90))
      || ((192 <=? n) && (n <=? 222) && negb (n =? 215)))%nat
  then ascii_of_nat (n + 32) else c.

(** [/\s/]. *)
Definition isBlankChar (c : ascii) : bool :=
  let n := nat_of_ascii c in
  (((9 <=? n) && (n <=? 13)) || (n =? 32) || (n =? 160))%nat.

(** [/[\s_-]/]. *)
Definition isSeparatorChar (c : ascii) : bool :=
  let n := nat_of_ascii c in
  (isBlankChar c || (n =? 95) || (n =? 45))%nat.

Fixpoint normalizeName (name : string) : string :=
  match name with
  | EmptyString => EmptyString
  | String c rest =>
      let c' := toLowerChar c in
      if isSeparatorChar c' then normalizeName rest
      else String c' (normalizeName rest)
  end.

Definition BT_ACTION_LABELS : list string :=
  [ "Next Profile";
    "Previous Profile";
    "Clear All Profiles";
    "Clear Selected Profile";
    "Select Profile";
    "Disconnect Profile" ].

(** ** Behaviour classifier: bluetooth / output selection *)

Definition inferSingleConstantParam (behavior : Behavior.t) : option ParamName :=
  let p1 := flat_map PSet.param1 (Behavior.metadata behavior) in
  let p2 := flat_map PSet.param2 (Behavior.metadata behavior) in
  let p1HasConst := existsb (fun p => isSome (Desc.constant p)) p1 in
  let p2HasConst := existsb (fun p => isSome (Desc.constant p)) p2 in
  let hasOther (p : Desc.t) :=
    isSome (Desc.hidUsage p) || isSome (Desc.layerId p) || isSome (Desc.range p) in
  let p1HasOther :=
    existsb hasOther p1 || ((0 <? length p1)%nat && negb p1HasConst) in
  let p2HasOther :=
    existsb hasOther p2 || ((0 <? length p2)%nat && negb p2HasConst) in
  if p1HasConst && negb p2HasConst && (length p2 =? 0)%nat && negb p1HasOther
  then Some Param1
  else if p2HasConst && negb p1HasConst && (length p1 =? 0)%nat && negb p2HasOther
  then Some Param2
  else None.

Definition getQuickBluetoothBase (behaviors : BehaviorMap) : list Behavior.t :=
  List.filter
    (fun b => hasConstantParam b && negb (hasHidUsageParam b) && negb (hasLayerIdParam b))
    behaviors.

Module BluetoothOrder.
Record t := mk { actionParam : ParamName; profileParam : option ParamName }.
End BluetoothOrder.

Definition otherParamName (p : ParamName) : ParamName :=
  match p with
  | Param1 => Param2
  | Param2 => Param1
  end.

(** [expected.has(normalizeName(c.name))]. *)
Definition isExpectedAction (c : Desc.t) : bool :=
  existsb (String.eqb (normalizeName (Desc.name c))) (map normalizeName BT_ACTION_LABELS).

Definition actionScore (descs : list Desc.t) : nat :=
  length (List.filter isExpectedAction
            (List.filter (fun p => isSome (Desc.constant p)) descs)).

Definition bluetoothOrderOfSet (set : PSet.t) : option BluetoothOrder.t :=
  let p1Score := actionScore (PSet.param1 set) in
  let p2Score := actionScore (PSet.param2 set) in
  if ((p1Score =? 0) && (p2Score =? 0))%nat then None
  else
    let actionParam := if (p2Score <=? p1Score)%nat then Param1 else Param2 in
    let otherParam := otherParamName actionParam in
    let otherArr := paramOf otherParam set in
    Some (BluetoothOrder.mk actionParam
            (if (0 <? length otherArr)%nat then Some otherParam else None)).

Definition inferBluetoothParamOrder (behavior : Behavior.t) : option BluetoothOrder.t :=
  match firstSet bluetoothOrderOfSet (Behavior.metadata behavior) with
  | Some order => Some order
  | None =>
      match inferSingleConstantParam behavior with
      | Some constParam => Some (BluetoothOrder.mk constParam None)
      | None => None
      end
  end.

Definition findMetadataSetForAction (behavior : Behavior.t)
    (actionParam : ParamName) (actionValue : Z) : option PSet.t :=
  List.find
    (fun set =>
       existsb (fun d => match Desc.constant d with
                         | Some c => c =? actionValue
                         | None => false
                         end)
               (paramOf actionParam set))
    (Behavior.metadata behavior).

Definition getProfileParamDescriptors (set : option PSet.t)
    (profileParam : option ParamName) : list Desc.t :=
  match set, profileParam with
  | Some s, Some p => paramOf p s
  | _, _ => []
  end.

(** The non-null assertion [descriptors[0].constant!] is justified by the
    [every] test before it. *)
Definition defaultProfileValue (descriptors : list Desc.t) : Z :=
  match descriptors with
  | [] => 0
  | d0 :: rest =>
      if forallb (fun d => isSome (Desc.constant d)) descriptors
      then orZero (Desc.constant d0)
      else
        match rest, Desc.range d0 with
        | [], Some r => Range.min r
        | _, _ => 0
        end
  end.

(** ** JavaScript library functions used by the panel *)

(** [Array.prototype.sort] is stable; with the comparator [cmp], [a] stays
    in front of [b] when [cmp a b <= 0]. *)
Fixpoint insertSorted {A} (cmp : A -> A -> Z) (x : A) (l : list A) : list A :=
  match l with
  | [] => [x]
  | y :: rest =>
      if cmp x y <=? 0 then x :: y :: rest else y :: insertSorted cmp x rest
  end.

Definition sortWith {A} (cmp : A -> A -> Z) (l : list A) : list A :=
  fold_right (insertSorted cmp) [] l.

(** [c.toUpperCase()] for one code unit, as the code units of the result:
    the lower-case letters move 32 down, except that the micro sign and
    the y with diaeresis leave the range and the sharp s becomes "SS"; the
    division sign U+00F7 is no letter. *)
Definition toUpperChar (c : ascii) : list Z :=
  let n := Z.of_nat (nat_of_ascii c) in
  if (97 <=? n) && (n <=? 122) then [n - 32]
  else if n =? 181 then [924]
  else if n =? 223 then [83; 83]
  else if (224 <=? n) && (n <=? 254) && negb (n =? 247) then [n - 32]
  else if n =? 255 then [376]
  else [n].

Fixpoint toLowerCase (s : string) : string :=
  match s with
  | EmptyString => EmptyString
  | String c rest => String (toLowerChar c) (toLowerCase rest)
  end.

(** [s.toUpperCase()], as the code units of the result. *)
Fixpoint toUpperCase (s : string) : list Z :=
  match s with
  | EmptyString => []
  | String c rest => (toUpperChar c ++ toUpperCase rest)%list
  end.

(** [haystack.includes(needle)]. *)
Fixpoint includes (needle haystack : string) : bool :=
  String.prefix needle haystack ||
  match haystack with
  | EmptyString => false
  | String _ rest => includes needle rest
  end.

(** [/word/i.test(s)] for a lower-case literal [word]. *)
Definition testIgnoreCase (word s : string) : bool :=
  includes word (toLowerCase s).

(** A JavaScript number that may be [NaN]. *)
Inductive Num := NaN | Int (z : Z).

(** A computation that may [throw new Error(msg)]. *)
Inductive Exn (A : Type) :=
  | Throw (msg : string)
  | Ret (a : A).
Arguments Throw {A} msg.
Arguments Ret {A} a.

Definition exn_bind {A B} (m : Exn A) (k : A -> Exn B) : Exn B :=
  match m with
  | Throw msg => Throw msg
  | Ret a => k a
  end.

Fixpoint exn_map {A B} (f : A -> Exn B) (l : list A) : Exn (list B) :=
  match l with
  | [] => Ret []
  | x :: rest =>
      exn_bind (f x) (fun y =>
      exn_bind (exn_map f rest) (fun ys => Ret (y :: ys)))
  end.

(** [s.split("")]. *)
Fixpoint splitChars (s : string) : list string :=
  match s with
  | EmptyString => []
  | String c rest => String c EmptyString :: splitChars rest
  end.

(** [s.charCodeAt(0)] on the code units of [s]. *)
Definition charCodeAt0 (s : list Z) : Num :=
  match s with
  | [] => NaN
  | c :: _ => Int c
  end.

(** Comparisons with [NaN] are false. *)
Definition num_ltb (a : Num) (b : Z) : bool :=
  match a with NaN => false | Int z => z <? b end.

Definition num_gtb (a : Num) (b : Z) : bool :=
  match a with NaN => false | Int z => b <? z end.

Definition num_lift (f : Z -> Z) (a : Num) : Num :=
  match a with NaN => NaN | Int z => Int (f z) end.

(** ** Palette *)

Definition KEYBOARD_PAGE : Z := 7.
Definition CONSUMER_PAGE : Z := 12.

Definition letterUsageId (letter : string) : Exn Num :=
  let up := toUpperCase letter in
  let code := charCodeAt0 up in
  if num_ltb code 65 || num_gtb code 90
  then Throw ("Invalid letter: " ++ letter)
  else Ret (num_lift (fun c => 4 + (c - 65)) code).

Module KeySpec.
Record t := mk {
  usage : Num;
  label : string;
  width : option Q;
  match_ : option bool
}.
End KeySpec.

Inductive Category := main | mods | nav | func | media.

(** [/^Keyboard\s+/]: drop the prefix when at least one blank follows. *)
Fixpoint dropBlanks (s : string) : string :=
  match s with
  | String c rest => if isBlankChar c then dropBlanks rest else s
  | EmptyString => s
  end.

Definition removeKeyboardPrefix (label : option string) : string :=
  match label with
  | None => ""
  | Some l =>
      match l with
      | String "K" (String "e" (String "y" (String "b" (String "o"
          (String "a" (String "r" (String "d" (String c rest)))))))) =>
          if isBlankChar c then dropBlanks rest else l
      | _ => l
      end
  end.

Section Palette.
(** [../hid-usages] is not part of the sources at hand; its two
    functions are parameters of the palette. *)
Variable hid_usage_from_page_and_id : Z -> Num -> Num.
Variable hid_usage_get_labels_short : Z -> Num -> option string.

Definition makeUsage (page : Z) (id : Num) : Num :=
  hid_usage_from_page_and_id page id.

Definition usageLabel (page : Z) (id : Num) : string :=
  removeKeyboardPrefix (hid_usage_get_labels_short page id).

Definition makeKeyboardSpec (page : Z) (id : Num) (width : option Q) : KeySpec.t :=
  let label := usageLabel page id in
  KeySpec.mk (makeUsage page id) label width (Some true).

Definition makeKeyboardSpecWithLabel (page id : Z) (label : string) (width : Q)
    : KeySpec.t :=
  KeySpec.mk (makeUsage page (Int id)) label (Some width) (Some true).

(** [..."QWERTYUIOP".split("").map((l) => makeKeyboardSpec(KEYBOARD_PAGE, letterUsageId(l)))] *)
Definition letterSpecs (letters : string) : Exn (list KeySpec.t) :=
  exn_map
    (fun l => exn_bind (letterUsageId l)
                (fun id => Ret (makeKeyboardSpec KEYBOARD_PAGE id None)))
    (splitChars letters).

(** [Array.from({ length: n }, (_v, i) => makeKeyboardSpec(KEYBOARD_PAGE, base + i))] *)
Definition rangeSpecs (n : nat) (base : Z) : list KeySpec.t :=
  map (fun i => makeKeyboardSpec KEYBOARD_PAGE (Int (base + Z.of_nat i)) None)
      (seq 0 n).

(** Shorthands for the three call shapes of the rows:
    [makeKeyboardSpecWithLabel(KEYBOARD_PAGE, id, label, width)],
    [makeKeyboardSpecWithLabel(CONSUMER_PAGE, id, label, width)] and
    [makeKeyboardSpec(KEYBOARD_PAGE, id, width)]. *)
Definition keyboardKey (id : Z) (label : string) (width : Q) : KeySpec.t :=
  makeKeyboardSpecWithLabel KEYBOARD_PAGE id label width.
Definition consumerKey (id : Z) (label : string) (width : Q) : KeySpec.t :=
  makeKeyboardSpecWithLabel CONSUMER_PAGE id label width.
Definition usageKey (id : Z) (width : Q) : KeySpec.t :=
  makeKeyboardSpec KEYBOARD_PAGE (Int id) (Some width).
Arguments keyboardKey id%_Z label%_string width%_Q.
Arguments consumerKey id%_Z label%_string width%_Q.
Arguments usageKey id%_Z width%_Q.

Definition paletteRows (category : Category) : Exn (list (list KeySpec.t)) :=
  match category with
  | main =>
      exn_bind (letterSpecs "QWERTYUIOP") (fun row1 =>
      exn_bind (letterSpecs "ASDFGHJKL") (fun row2 =>
      exn_bind (letterSpecs "ZXCVBNM") (fun row3 =>
      Ret
        [ ([keyboardKey 41 "Esc" 1.25; keyboardKey 53 "`" 1] ++ rangeSpecs 10 30
             ++ [keyboardKey 45 "-" 1; keyboardKey 46 "=" 1; keyboardKey 42 "Backspace" 2])%list;
          ([keyboardKey 43 "Tab" 1.5] ++ row1 ++ [usageKey 47 1; usageKey 48 1; usageKey 49 1.5])%list;
          ([keyboardKey 57 "Caps" 1.75] ++ row2
             ++ [usageKey 51 1; usageKey 52 1; keyboardKey 40 "Enter" 2.25])%list;
          ([keyboardKey 225 "LShift" 2.25] ++ row3
             ++ [usageKey 54 1; usageKey 55 1; usageKey 56 1; keyboardKey 229 "RShift" 2.75])%list;
          [keyboardKey 224 "LCtrl" 1.5; keyboardKey 227 "LGui" 1.25; keyboardKey 226 "LAlt" 1.25;
           keyboardKey 44 "Space" 6; keyboardKey 230 "RAlt" 1.25; keyboardKey 231 "RGui" 1.25;
           keyboardKey 228 "RCtrl" 1.5] ])))
  | mods =>
      Ret [ [keyboardKey 224 "LCtrl" 1.5; keyboardKey 225 "LShift" 1.5; keyboardKey 226 "LAlt" 1.5;
             keyboardKey 227 "LGui" 1.5; keyboardKey 228 "RCtrl" 1.5; keyboardKey 229 "RShift" 1.5;
             keyboardKey 230 "RAlt" 1.5; keyboardKey 231 "RGui" 1.5] ]
  | func => Ret [ rangeSpecs 12 58 ]
  | nav =>
      Ret [ [keyboardKey 73 "Ins" 1.25; keyboardKey 74 "Home" 1.25; keyboardKey 75 "PgUp" 1.25;
             keyboardKey 76 "Del" 1.25; keyboardKey 77 "End" 1.25; keyboardKey 78 "PgDn" 1.25];
            [keyboardKey 80 "←" 1; keyboardKey 81 "↓" 1; keyboardKey 82 "↑" 1; keyboardKey 79 "→" 1] ]
  | media =>
      Ret [ [consumerKey 182 "Prev" 1.5; consumerKey 205 "Play/Pause" 2; consumerKey 181 "Next" 1.5;
             consumerKey 183 "Stop" 1.25];
            [consumerKey 234 "Vol−" 1.5; consumerKey 226 "Mute" 1.5; consumerKey 233 "Vol+" 1.5] ]
  end.
End Palette.

(** ** The key-assignment panel *)

Inductive BehaviorGroup := key | layerTap | bluetooth | modTap | other.
Inductive BluetoothKind := kindBluetooth | kindOutput.

Module LayerInfo.
(** An element of the [layers] prop. *)
Record t := mk { id : Z; name : string }.
End LayerInfo.

(** The prop [selectedBinding]. The parent passes [null] when no keymap is
    loaded, no key is selected or the selected layer is missing, and the
    slot of the selected key otherwise, which is [undefined] for a key
    position past the end of the layer. *)
Inductive SelectedBinding :=
  | bindingNull
  | bindingUndefined
  | bound (binding : Binding.t).

Module Panel.
(** Props and [useState] cells of [KeyAssignPanel] at one render. *)
Record t := mk {
  selectedKeyPosition : option Z;
  selectedBindingProp : SelectedBinding;
  behaviors : BehaviorMap;
  layers : list LayerInfo.t;
  behaviorGroup : BehaviorGroup;
  category : Category;
  bluetoothKind : BluetoothKind;
  quickBehaviorId : option Z;
  layerTapBehaviorId : option Z;
  layerTapTargetLayerId : option Z;
  bluetoothBehaviorId : option Z;
  bluetoothActionValue : option Z;
  bluetoothProfileValue : option Z;
  modTapBehaviorId : option Z;
  modTapModifierValue : option Z
}.

(** The selected binding where the sources test it for truth
    ([if (!selectedBinding) return], [selectedBinding?.behaviorId]):
    [null] and [undefined] read alike. *)
Definition selectedBinding (st : t) : option Binding.t :=
  match selectedBindingProp st with
  | bound binding => Some binding
  | bindingNull | bindingUndefined => None
  end.
End Panel.

Definition getQuickHidUsageBehaviors (behaviors : BehaviorMap) (category : Category)
    : list Behavior.t :=
  let all := List.filter (fun b => isSome (getHidUsageCaps b)) behaviors in
  if (length all =? 0)%nat then []
  else
    let filtered :=
      List.filter
        (fun b =>
           match getHidUsageCaps b with
           | None => false
           | Some caps =>
               match category with
               | media => 0 <? Caps.consumerMax caps
               | _ => 0 <? Caps.keyboardMax caps
               end
           end)
        all in
    if (0 <? length filtered)%nat then filtered else all.

Definition getQuickBluetoothBehaviors (behaviors : BehaviorMap) : list Behavior.t :=
  let base := getQuickBluetoothBase behaviors in
  let byName :=
    List.filter
      (fun b => testIgnoreCase "bluetooth" (Behavior.displayName b)
                || testIgnoreCase "output" (Behavior.displayName b))
      base in
  if (0 <? length byName)%nat then byName else base.

(** [list.find((b) => b.id === id)]; no behaviour has the id [undefined]. *)
Definition findById (id : option Z) (l : list Behavior.t) : option Behavior.t :=
  match id with
  | None => None
  | Some i => List.find (fun b => Behavior.id b =? i) l
  end.

(** The [Map<number, ...>] of [collectConstantChoices], as the list of its
    values in insertion order: a constant already present is not added
    again. *)
Definition addChoice (choices : list Desc.t) (d : Desc.t) : list Desc.t :=
  match Desc.constant d with
  | None => choices
  | Some c =>
      if existsb (fun d' => match Desc.constant d' with
                            | Some c' => c' =? c
                            | None => false
                            end) choices
      then choices
      else (choices ++ [d])%list
  end.

Module BtClick.
(** What pressing an action button does: the binding handed to
    [onBindingChanged] and the two state cells it sets. *)
Record t := mk {
  emitted : Binding.t;
  actionValue : option Z;
  profileValue : option Z
}.
End BtClick.

Section PanelLogic.
(** [String.prototype.localeCompare] depends on the host locale. *)
Variable localeCompare : string -> string -> Z.

Definition byDisplayName (a b : Behavior.t) : Z :=
  localeCompare (Behavior.displayName a) (Behavior.displayName b).

Definition collectConstantChoices (behavior : Behavior.t) (param : ParamName)
    : list Desc.t :=
  let choices :=
    fold_left (fun acc set => fold_left addChoice (paramOf param set) acc)
              (Behavior.metadata behavior) [] in
  sortWith (fun a b => localeCompare (Desc.name a) (Desc.name b)) choices.

Section Render.
Variable st : Panel.t.

Definition quickBehaviors : list Behavior.t :=
  sortWith byDisplayName
    (getQuickHidUsageBehaviors (Panel.behaviors st) (Panel.category st)).

Definition layerTapBehaviors : list Behavior.t :=
  sortWith byDisplayName (getQuickLayerTapBehaviors (Panel.behaviors st)).

Definition bluetoothBehaviors : list Behavior.t :=
  sortWith byDisplayName (getQuickBluetoothBehaviors (Panel.behaviors st)).

Definition bluetoothBehaviorsForKind : list Behavior.t :=
  let kindRe :=
    match Panel.bluetoothKind st with
    | kindOutput => "output"
    | kindBluetooth => "bluetooth"
    end in
  let matches :=
    List.filter (fun b => testIgnoreCase kindRe (Behavior.displayName b))
                bluetoothBehaviors in
  if (0 <? length matches)%nat then matches else bluetoothBehaviors.

Definition modTapBehaviors : list Behavior.t :=
  sortWith byDisplayName (getQuickModTapBehaviors (Panel.behaviors st)).

Definition quickBehavior : option Behavior.t :=
  findById (Panel.quickBehaviorId st) quickBehaviors.
Definition layerTapBehavior : option Behavior.t :=
  findById (Panel.layerTapBehaviorId st) layerTapBehaviors.
Definition bluetoothBehavior : option Behavior.t :=
  findById (Panel.bluetoothBehaviorId st) bluetoothBehaviorsForKind.
Definition modTapBehavior : option Behavior.t :=
  findById (Panel.modTapBehaviorId st) modTapBehaviors.

(** [selectedKeyPosition !== undefined && selectedBinding !== null]: an
    [undefined] binding passes the test. *)
Definition canEdit : bool :=
  isSome (Panel.selectedKeyPosition st)
  && match Panel.selectedBindingProp st with
     | bindingNull => false
     | bindingUndefined | bound _ => true
     end.

(** *** Decoders *)




(** *** Encoders: the palette *)

(** The palette is the last alternative of the conditional that renders
    the body of the panel: it is rendered on the key tab with a key
    behaviour, on the layer-tap tab with a layer-tap behaviour, and on the
    mod-tap tab with a mod-tap behaviour and a chosen modifier. *)
Definition paletteRendered : bool :=
  match Panel.behaviorGroup st with
  | key => isSome quickBehavior
  | layerTap => isSome layerTapBehavior
  | bluetooth => false
  | modTap => isSome modTapBehavior && isSome (Panel.modTapModifierValue st)
  | other => false
  end.

(** [onUsageClicked(usage)] of the rendered palette: the binding passed to
    [onBindingChanged], if any. *)
Definition onUsageClicked (usage : Z) : option Binding.t :=
  if negb paletteRendered then None
  else if negb canEdit then None
  else
    match Panel.behaviorGroup st with
    | key =>
        match quickBehavior with
        | None => None
        | Some q => Some (Binding.mk (Behavior.id q) usage 0)
        end
    | group =>
        let modTapPath :=
          match group, modTapBehavior with
          | modTap, Some behavior =>
              match inferModTapParamOrder behavior with
              | None => None
              | Some order =>
                  match collectConstantChoices behavior
                          (ModTapOrder.modParam order) with
                  | [] => None
                  | c0 :: _ =>
                      let modValue :=
                        match Panel.modTapModifierValue st with
                        | Some v => v
                        | None => orZero (Desc.constant c0)
                        end in
                      Some (Binding.mk (Behavior.id behavior)
                              (match ModTapOrder.modParam order with
                               | Param1 => modValue
                               | Param2 => usage
                               end)
                              (match ModTapOrder.modParam order with
                               | Param2 => modValue
                               | Param1 => usage
                               end))
                  end
              end
          | _, _ => None
          end in
        match group, layerTapBehavior, Panel.layerTapTargetLayerId st with
        | layerTap, Some behavior, Some layerTapTargetLayerId =>
            match inferLayerTapParamOrder behavior with
            | None => None
            | Some order =>
                Some (match LayerTapOrder.layerParam order with
                      | Param1 =>
                          Binding.mk (Behavior.id behavior)
                                     layerTapTargetLayerId usage
                      | Param2 =>
                          Binding.mk (Behavior.id behavior)
                                     usage layerTapTargetLayerId
                      end)
            end
        | _, _, _ => modTapPath
        end
    end.

(** *** Bluetooth / output selection *)

Definition bluetoothOrder : option BluetoothOrder.t :=
  match bluetoothBehavior with
  | None => None
  | Some behavior => inferBluetoothParamOrder behavior
  end.

(** [{ label, choice }] for each canonical label; [byNorm] is the
    [Map] filled by successive [set] calls. *)
Definition bluetoothActions : list (string * option Desc.t) :=
  match bluetoothBehavior, bluetoothOrder with
  | Some behavior, Some order =>
      let choices :=
        collectConstantChoices behavior (BluetoothOrder.actionParam order) in
      let byNorm : gmap string Desc.t :=
        fold_left (fun m c => <[normalizeName (Desc.name c) := c]> m) choices ∅ in
      map (fun label => (label, byNorm !! normalizeName label)) BT_ACTION_LABELS
  | _, _ => []
  end.

(** [a.choice?.constant]. *)
Definition choiceConstant (a : string * option Desc.t) : option Z :=
  match snd a with
  | Some choice => Desc.constant choice
  | None => None
  end.

(** [{ actionValue, profileValue }]. *)
Definition activeBluetooth : option (Z * option Z) :=
  match bluetoothBehavior, bluetoothOrder, Panel.selectedBinding st with
  | Some behavior, Some order, Some selectedBinding =>
      if negb (Binding.behaviorId selectedBinding =? Behavior.id behavior)
      then None
      else
        Some (bindingParam (BluetoothOrder.actionParam order) selectedBinding,
              match BluetoothOrder.profileParam order with
              | Some p => Some (bindingParam p selectedBinding)
              | None => None
              end)
  | _, _, _ => None
  end.

(** [bluetoothActions.find((a) => a.choice?.constant !== undefined)?.choice?.constant] *)
Definition firstAvailable : option Z :=
  match List.find (fun a => isSome (choiceConstant a)) bluetoothActions with
  | Some a => choiceConstant a
  | None => None
  end.

Definition selectedAction : option Z :=
  match Panel.bluetoothActionValue st with
  | Some v => Some v
  | None =>
      match activeBluetooth with
      | Some (actionValue, _) => Some actionValue
      | None => firstAvailable
      end
  end.

Definition selectedActionName : option string :=
  match selectedAction with
  | None => None
  | Some sel =>
      match List.find (fun a => match choiceConstant a with
                                | Some c => c =? sel
                                | None => false
                                end) bluetoothActions with
      | Some a => Some (fst a)
      | None => None
      end
  end.

Definition wantsProfile : bool :=
  match selectedActionName with
  | Some n => String.eqb n "Select Profile" || String.eqb n "Clear Selected Profile"
  | None => false
  end.

Definition effectiveProfileDescs (behavior : Behavior.t) (order : BluetoothOrder.t)
    : list Desc.t :=
  let set :=
    match selectedAction with
    | Some sel =>
        findMetadataSetForAction behavior (BluetoothOrder.actionParam order) sel
    | None => None
    end in
  let profileDescs :=
    getProfileParamDescriptors set (BluetoothOrder.profileParam order) in
  let profileDescsAll :=
    match BluetoothOrder.profileParam order with
    | Some p => collectConstantChoices behavior p
    | None => []
    end in
  if (0 <? length profileDescs)%nat then profileDescs else profileDescsAll.

Definition needsProfile (behavior : Behavior.t) (order : BluetoothOrder.t) : bool :=
  wantsProfile || (0 <? length (effectiveProfileDescs behavior order))%nat.

Definition effectiveProfile (behavior : Behavior.t) (order : BluetoothOrder.t) : Z :=
  match Panel.bluetoothProfileValue st with
  | Some v => v
  | None => defaultProfileValue (effectiveProfileDescs behavior order)
  end.

Definition resolvedProfileParam (order : BluetoothOrder.t) : ParamName :=
  match BluetoothOrder.profileParam order with
  | Some p => p
  | None => otherParamName (BluetoothOrder.actionParam order)
  end.

(** The action buttons are rendered only when a behaviour and an order
    exist and some action has a truthy constant
    ([bluetoothActions.every((a) => !a.choice?.constant)] otherwise). *)
Definition actionsRendered : bool :=
  negb (forallb (fun a => match choiceConstant a with
                          | Some c => c =? 0
                          | None => true
                          end) bluetoothActions).

(** [onClick] of the button of the entry [a] of [bluetoothActions]. *)
Definition bluetoothActionClick (a : string * option Desc.t) : option BtClick.t :=
  match bluetoothBehavior, bluetoothOrder with
  | Some behavior, Some order =>
      if negb actionsRendered then None
      else
        match choiceConstant a with
        | None => None
        | Some value =>
            if negb canEdit then None
            else
              let profileFor (p : ParamName) :=
                if wantsProfile && ParamName_eqb (resolvedProfileParam order) p
                then effectiveProfile behavior order
                else 0 in
              let param1 :=
                match BluetoothOrder.actionParam order with
                | Param1 => value
                | Param2 => profileFor Param1
                end in
              let param2 :=
                match BluetoothOrder.actionParam order with
                | Param2 => value
                | Param1 => profileFor Param2
                end in
              Some (BtClick.mk
                      (Binding.mk (Behavior.id behavior) param1 param2)
                      (Some value)
                      (if needsProfile behavior order
                       then Some (effectiveProfile behavior order)
                       else None))
        end
  | _, _ => None
  end.

(** [onChange] of the profile control (number input, select over the
    declared constants, or the 0-5 select) with the parsed value
    [nextProfile]: the binding passed to [onBindingChanged], if any. *)
Definition bluetoothProfileChange (nextProfile : Z) : option Binding.t :=
  match bluetoothBehavior, bluetoothOrder with
  | Some behavior, Some order =>
      let descs := effectiveProfileDescs behavior order in
      let rangeInput :=
        match descs with
        | [d] => isSome (Desc.range d)
        | _ => false
        end in
      let constantSelect :=
        (0 <? length descs)%nat
        && forallb (fun d => isSome (Desc.constant d)) descs in
      if negb actionsRendered || negb (needsProfile behavior order) then None
      else if negb (rangeInput || constantSelect || wantsProfile) then None
      else if negb canEdit || negb wantsProfile then None
      else
        match selectedAction with
        | None => None
        | Some sel =>
            let profileFor (p : ParamName) :=
              if ParamName_eqb (resolvedProfileParam order) p
              then nextProfile
              else 0 in
            Some (Binding.mk (Behavior.id behavior)
                    (match BluetoothOrder.actionParam order with
                     | Param1 => sel
                     | Param2 => profileFor Param1
                     end)
                    (match BluetoothOrder.actionParam order with
                     | Param2 => sel
                     | Param1 => profileFor Param2
                     end))
        end
  | _, _ => None
  end.
End Render.
End PanelLogic.

(** ** The keymap replica and the device ([Keyboard.tsx]) *)

Module Layer.
(** [Layer]. A slot of [bindings] is [None] where the JavaScript array
    has a hole or holds [undefined]. *)
Record t := mk { id : Z; name : string; bindings : list (option Binding.t) }.
End Layer.

Module Keymap.
Record t := mk { layers : list Layer.t; availableLayers : Z }.
End Keymap.

(** [arr[i]] for a key position. *)
Definition js_get {A} (arr : list (option A)) (i : nat) : option A :=
  match arr !! i with
  | Some slot => slot
  | None => None
  end.

(** [arr[i] = v]: inside the array the slot is replaced; past its end the
    array grows, leaving holes in between. *)
Definition js_set {A} (arr : list (option A)) (i : nat) (v : option A)
    : list (option A) :=
  if (i <? length arr)%nat then <[i := v]> arr
  else (arr ++ replicate (i - length arr) None ++ [v])%list.

(** [layers[index]] for a number that may be negative. *)
Definition layerAt (layers : list Layer.t) (index : Z) : option Layer.t :=
  if index <? 0 then None else layers !! Z.to_nat index.

(** Start position of [splice(index, ...)] in an array of length [len]. *)
Definition spliceStart (index : Z) (len : nat) : nat :=
  if index <? 0 then Z.to_nat (Z.max (Z.of_nat len + index) 0)
  else Nat.min (Z.to_nat index) len.

(** [arr.splice(index, 1)]. *)
Definition spliceOut {A} (index : Z) (arr : list A) : list A :=
  let start := spliceStart index (length arr) in
  (take start arr ++ drop (S start) arr)%list.

(** [arr.splice(index, 0, x)]. *)
Definition spliceIn {A} (index : Z) (x : A) (arr : list A) : list A :=
  let start := spliceStart index (length arr) in
  (take start arr ++ x :: drop start arr)%list.

(** The immer recipe [draft.layers[layer].bindings[keyPosition] = binding];
    [None] is the [TypeError] raised when [draft.layers[layer]] is
    [undefined]. *)
Definition setBindingRecipe (layer : Z) (keyPosition : nat)
    (binding : option Binding.t) (draft : Keymap.t) : option Keymap.t :=
  match layerAt (Keymap.layers draft) layer with
  | None => None
  | Some l =>
      let l' := Layer.mk (Layer.id l) (Layer.name l)
                         (js_set (Layer.bindings l) keyPosition binding) in
      Some (Keymap.mk (<[Z.to_nat layer := l']> (Keymap.layers draft))
                      (Keymap.availableLayers draft))
  end.

(** [draft.layers.splice(layerIndex, 1); draft.availableLayers++]. *)
Definition removeLayerRecipe (layerIndex : Z) (draft : Keymap.t) : option Keymap.t :=
  Some (Keymap.mk (spliceOut layerIndex (Keymap.layers draft))
                  (Keymap.availableLayers draft + 1)).

(** [draft.layers.splice(atIndex, 0, layer); draft.availableLayers--]. *)
Definition restoreLayerRecipe (atIndex : Z) (layer : Layer.t) (draft : Keymap.t)
    : option Keymap.t :=
  Some (Keymap.mk (spliceIn atIndex layer (Keymap.layers draft))
                  (Keymap.availableLayers draft - 1)).

(** [draft.layers.push(layer); draft.availableLayers--]. *)
Definition addLayerRecipe (layer : Layer.t) (draft : Keymap.t) : option Keymap.t :=
  Some (Keymap.mk (Keymap.layers draft ++ [layer])%list
                  (Keymap.availableLayers draft - 1)).

Inductive SetLayerBindingResponse :=
  | SET_LAYER_BINDING_RESP_OK
  | SET_LAYER_BINDING_RESP_INVALID_LOCATION
  | SET_LAYER_BINDING_RESP_INVALID_BEHAVIOR
  | SET_LAYER_BINDING_RESP_INVALID_PARAMETERS.

Definition isRespOk (r : option SetLayerBindingResponse) : bool :=
  match r with
  | Some SET_LAYER_BINDING_RESP_OK => true
  | _ => false
  end.

Inductive LockState :=
  | ZMK_STUDIO_CORE_LOCK_STATE_LOCKED
  | ZMK_STUDIO_CORE_LOCK_STATE_UNLOCKED.

Definition isUnlocked (s : LockState) : bool :=
  match s with
  | ZMK_STUDIO_CORE_LOCK_STATE_UNLOCKED => true
  | ZMK_STUDIO_CORE_LOCK_STATE_LOCKED => false
  end.

(** The [keymap] requests the modelled handlers send. *)
Inductive Request :=
  | SetLayerBinding (layerId : Z) (keyPosition : nat) (binding : option Binding.t)
  | AddLayer
  | RemoveLayer (layerIndex : Z)
  | RestoreLayer (layerId : Z) (atIndex : Z).

Module Response.
(** The members of [resp.keymap] the handlers read; a member the device
    did not send is [None]. [removeLayerOk] is [resp.keymap?.removeLayer?.ok]
    being truthy, [err] the error code of the failed request. *)
Record t := mk {
  setLayerBinding : option SetLayerBindingResponse;
  addLayerOk : option (Z * Layer.t);
  removeLayerOk : bool;
  restoreLayerOk : option Layer.t;
  err : option Z
}.
End Response.

(** [throw new Error(...)] and the [TypeError] of a property read on
    [undefined]. *)
Inductive Error :=
  | NotConnected
  | NoKeymapLoaded
  | TypeError
  | FailedToAddLayer (err : option Z)
  | FailedToRemoveLayer (err : option Z)
  | FailedToRestoreLayer (err : option Z).

Inductive Outcome (A : Type) :=
  | Done (a : A)
  | Raised (e : Error).
Arguments Done {A} a.
Arguments Raised {A} e.

Module World.
(** The live React state of [Keyboard], the device and what has been
    observed from outside: requests sent and [window.alert] messages.
    Console output is not recorded. *)
Record t (Dev : Type) := mk {
  keymap : option Keymap.t;
  selectedLayerIndex : Z;
  dev : Dev;
  sent : list Request;
  alerts : list string
}.
Arguments mk {Dev}.
Arguments keymap {Dev}.
Arguments selectedLayerIndex {Dev}.
Arguments dev {Dev}.
Arguments sent {Dev}.
Arguments alerts {Dev}.
End World.

Module Closure.
(** The values a callback captured from the render that created it. *)
Record t := mk {
  conn : bool;
  lockState : LockState;
  keymap : option Keymap.t;
  selectedLayerIndex : Z;
  selectedKeyPosition : option nat
}.
End Closure.

(** An imported document after [JSON.parse]. [Parsed layers] carries the
    value of [parsed?.keymap?.layers || parsed?.layers ||
    parsed?.keymap?.getKeymap?.layers] when it is an array and [None]
    otherwise. A layer is its [bindings] member when that is an array; an
    entry is [None] when it is falsy; the members of an entry are numbers
    or missing. *)
Module ImportedBinding.
Record t := mk { behaviorId : option Z; param1 : option Z; param2 : option Z }.
End ImportedBinding.

Definition ImportedLayer := option (list (option ImportedBinding.t)).

Inductive ImportFile :=
  | InvalidJSON
  | Parsed (importedLayers : option (list ImportedLayer)).

Definition Binding_eqb (a b : Binding.t) : bool :=
  (Binding.behaviorId a =? Binding.behaviorId b)
  && (Binding.param1 a =? Binding.param1 b)
  && (Binding.param2 a =? Binding.param2 b).

(** [{ behaviorId: n.behaviorId ?? 0, param1: n.param1 ?? 0, param2: n.param2 ?? 0 }] *)
Definition importedBinding (n : ImportedBinding.t) : Binding.t :=
  Binding.mk (orZero (ImportedBinding.behaviorId n))
             (orZero (ImportedBinding.param1 n))
             (orZero (ImportedBinding.param2 n)).

Inductive LoopCtl := Continue | Return.

Section Editor.
Context {Dev : Type}.
(** The device behind [call_rpc]: it answers a request and moves on. *)
Variable device : Dev -> Request -> Response.t * Dev.

(** Asynchronous code: state passing with exceptions; the state reached
    when an exception is raised is kept. *)
Definition M (A : Type) : Type := World.t Dev -> Outcome A * World.t Dev.

Definition ret {A} (a : A) : M A := fun w => (Done a, w).

Definition bind {A B} (m : M A) (k : A -> M B) : M B :=
  fun w =>
    match m w with
    | (Done a, w') => k a w'
    | (Raised e, w') => (Raised e, w')
    end.

Definition throw {A} (e : Error) : M A := fun w => (Raised e, w).

Notation "x <- m ;; k" := (bind m (fun x => k))
  (at level 100, m at next level, right associativity).
Notation "m ;;; k" := (bind m (fun _ => k))
  (at level 100, right associativity).

(** [await call_rpc(conn.conn, { keymap: req })]. *)
Definition call_rpc (req : Request) : M Response.t :=
  fun w =>
    let (resp, d') := device (World.dev w) req in
    (Done resp,
     World.mk (World.keymap w) (World.selectedLayerIndex w) d'
              (World.sent w ++ [req])%list (World.alerts w)).

(** [setKeymap(produce(recipe))]: the recipe is applied to the live
    keymap. The call only hands the updater to React, which runs it for
    the next render; a recipe that throws there ([None]) therefore does not
    throw in the handler, which goes on, and the replica is left as it
    was. *)
Definition setKeymap (recipe : Keymap.t -> option Keymap.t) : M unit :=
  fun w =>
    match World.keymap w with
    | None => (Done tt, w)
    | Some km =>
        match recipe km with
        | None => (Done tt, w)
        | Some km' =>
            (Done tt,
             World.mk (Some km') (World.selectedLayerIndex w) (World.dev w)
                      (World.sent w) (World.alerts w))
        end
    end.

Definition setSelectedLayerIndex (i : Z) : M unit :=
  fun w =>
    (Done tt,
     World.mk (World.keymap w) i (World.dev w) (World.sent w) (World.alerts w)).

Definition alert (msg : string) : M unit :=
  fun w =>
    (Done tt,
     World.mk (World.keymap w) (World.selectedLayerIndex w) (World.dev w)
              (World.sent w) (World.alerts w ++ [msg])%list).

(** [for (let i = from; i < from + count; i++) body], where the body may
    [continue] or [return]. *)
Fixpoint forFrom (from count : nat) (body : nat -> M LoopCtl) : M LoopCtl :=
  match count with
  | O => ret Continue
  | S count' =>
      ctl <- body from ;;
      match ctl with
      | Return => ret Return
      | Continue => forFrom (S from) count' body
      end
  end.

(** What a handler passes to [undoRedo]: an action that yields its
    inverse. *)
Definition Command : Type := M (M unit).

(** *** [doUpdateBinding] *)

(** [None]: the guard returned early; [Raised]: reading
    [keymap.layers[layer].id] failed. *)
Definition doUpdateBinding (cl : Closure.t) (binding : Binding.t)
    : Outcome (option Command) :=
  match Closure.keymap cl, Closure.selectedKeyPosition cl with
  | Some keymap, Some keyPosition =>
      let layer := Closure.selectedLayerIndex cl in
      match layerAt (Keymap.layers keymap) layer with
      | None => Raised TypeError
      | Some l =>
          let layerId := Layer.id l in
          let oldBinding := js_get (Layer.bindings l) keyPosition in
          Done (Some (
            if negb (Closure.conn cl) then throw NotConnected
            else
              resp <- call_rpc (SetLayerBinding layerId keyPosition (Some binding)) ;;
              (if isRespOk (Response.setLayerBinding resp)
               then setKeymap (setBindingRecipe layer keyPosition (Some binding))
               else ret tt) ;;;
              ret (
                if negb (Closure.conn cl) then ret tt
                else
                  resp <- call_rpc (SetLayerBinding layerId keyPosition oldBinding) ;;
                  if isRespOk (Response.setLayerBinding resp)
                  then setKeymap (setBindingRecipe layer keyPosition oldBinding)
                  else ret tt)))
      end
  | _, _ => Done None
  end.

(** *** [importKeymap] *)

Definition importKey (layerIndex : nat) (layerId : Z)
    (currentBindings : list (option Binding.t))
    (nextBindings : list (option ImportedBinding.t))
    (keyPosition : nat) : M LoopCtl :=
  let oldBinding := js_get currentBindings keyPosition in
  match js_get nextBindings keyPosition with
  | None => ret Continue
  | Some nextBinding =>
      let binding := importedBinding nextBinding in
      match oldBinding with
      | None => throw TypeError
      | Some old =>
          if Binding_eqb old binding then ret Continue
          else
            resp <- call_rpc (SetLayerBinding layerId keyPosition (Some binding)) ;;
            if negb (isRespOk (Response.setLayerBinding resp))
            then
              alert "Failed to import keymap (setLayerBinding error)" ;;;
              ret Return
            else
              setKeymap (setBindingRecipe (Z.of_nat layerIndex) keyPosition
                                          (Some binding)) ;;;
              ret Continue
      end
  end.

Definition importLayer (keymap : Keymap.t) (importedLayers : list ImportedLayer)
    (layerIndex : nat) : M LoopCtl :=
  match Keymap.layers keymap !! layerIndex with
  | None => throw TypeError
  | Some l =>
      let layerId := Layer.id l in
      let currentBindings := Layer.bindings l in
      match importedLayers !! layerIndex with
      | Some (Some nextBindings) =>
          let maxKeys := Nat.min (length currentBindings) (length nextBindings) in
          forFrom 0 maxKeys
            (importKey layerIndex layerId currentBindings nextBindings)
      | _ => ret Continue
      end
  end.

Definition importKeymap (cl : Closure.t) (file : ImportFile) : M unit :=
  if negb (Closure.conn cl) then alert "Not connected"
  else if negb (isUnlocked (Closure.lockState cl))
  then alert "Unlock the device to import a keymap"
  else
    match Closure.keymap cl with
    | None => alert "Keymap not loaded yet"
    | Some keymap =>
        match file with
        | InvalidJSON => alert "Invalid JSON file"
        | Parsed None | Parsed (Some []) =>
            alert "Invalid keymap format (missing layers)"
        | Parsed (Some importedLayers) =>
            let maxLayers :=
              Nat.min (length (Keymap.layers keymap)) (length importedLayers) in
            forFrom 0 maxLayers (importLayer keymap importedLayers) ;;;
            ret tt
        end
    end.

(** *** [addLayer] *)

Definition addLayer_doAdd (cl : Closure.t) : M Z :=
  match Closure.conn cl, Closure.keymap cl with
  | true, Some keymap =>
      resp <- call_rpc AddLayer ;;
      match Response.addLayerOk resp with
      | Some (index, layer) =>
          let newSelection := Z.of_nat (length (Keymap.layers keymap)) in
          setKeymap (addLayerRecipe layer) ;;;
          setSelectedLayerIndex newSelection ;;;
          ret index
      | None => throw (FailedToAddLayer (Response.err resp))
      end
  | _, _ => throw NotConnected
  end.

Definition addLayer_doRemove (cl : Closure.t) (layerIndex : Z) : M unit :=
  if negb (Closure.conn cl) then throw NotConnected
  else
    resp <- call_rpc (RemoveLayer layerIndex) ;;
    if Response.removeLayerOk resp
    then setKeymap (removeLayerRecipe layerIndex)
    else throw (FailedToRemoveLayer (Response.err resp)).

Definition addLayer (cl : Closure.t) : Command :=
  index <- addLayer_doAdd cl ;;
  ret (addLayer_doRemove cl index).

(** *** [removeLayer] *)

Definition removeLayer_doRemove (cl : Closure.t) (layerIndex : Z) : M unit :=
  match Closure.conn cl, Closure.keymap cl with
  | true, Some keymap =>
      resp <- call_rpc (RemoveLayer layerIndex) ;;
      if Response.removeLayerOk resp
      then
        (if layerIndex =? Z.of_nat (length (Keymap.layers keymap)) - 1
         then setSelectedLayerIndex (layerIndex - 1)
         else ret tt) ;;;
        setKeymap (removeLayerRecipe layerIndex)
      else throw (FailedToRemoveLayer (Response.err resp))
  | _, _ => throw NotConnected
  end.

Definition removeLayer_doRestore (cl : Closure.t) (layerId atIndex : Z) : M unit :=
  if negb (Closure.conn cl) then throw NotConnected
  else
    resp <- call_rpc (RestoreLayer layerId atIndex) ;;
    match Response.restoreLayerOk resp with
    | Some layer =>
        setKeymap (restoreLayerRecipe atIndex layer) ;;;
        setSelectedLayerIndex atIndex
    | None => throw (FailedToRestoreLayer (Response.err resp))
    end.

Definition removeLayer (cl : Closure.t) : Outcome Command :=
  match Closure.keymap cl with
  | None => Raised NoKeymapLoaded
  | Some keymap =>
      let index := Closure.selectedLayerIndex cl in
      match layerAt (Keymap.layers keymap) index with
      | None => Raised TypeError
      | Some l =>
          let layerId := Layer.id l in
          Done (removeLayer_doRemove cl index ;;;
                ret (removeLayer_doRestore cl layerId index))
      end
  end.

(** *** The effect that clamps the selected layer

    It runs after a render in which [keymap] or [selectedLayerIndex]
    changed. *)
Definition clampSelectedLayer (w : World.t Dev) : World.t Dev :=
  match World.keymap w with
  | None => w
  | Some keymap =>
      let layers := Z.of_nat (length (Keymap.layers keymap)) - 1 in
      if layers <? World.selectedLayerIndex w
      then World.mk (World.keymap w) layers (World.dev w)
                    (World.sent w) (World.alerts w)
      else w
  end.

(** *** The memoised [removeLayer]

    [removeLayer] is built by [useCallback] with the dependencies
    [[conn, undoRedo, selectedLayerIndex]]: a render replaces the callback,
    and with it the [keymap] and the [selectedLayerIndex] it captured, only
    when one of the three differs from the render before; [keymap] is not
    among them. The connection stays as it is here. [undoRedo] is the value
    of a context whose provider is not part of the sources at hand:
    [undoRedoChanged] tells whether the provider handed out another
    function for the render. *)

(** The values a callback created by a render of the state [w] captures;
    connection, lock state and selected key as in [cl]. *)
Definition capture (cl : Closure.t) (w : World.t Dev) : Closure.t :=
  Closure.mk (Closure.conn cl) (Closure.lockState cl) (World.keymap w)
             (World.selectedLayerIndex w) (Closure.selectedKeyPosition cl).

Definition removeLayerCallback (undoRedoChanged : bool) (previous : Closure.t)
    (w : World.t Dev) : Closure.t :=
  if undoRedoChanged
     || negb (Closure.selectedLayerIndex previous =? World.selectedLayerIndex w)
  then capture previous w
  else previous.

(** The renders that follow a handler: one with the state the handler
    left, its updates being batched; then the clamp effect runs, and a
    second render follows if it moved the selection. *)
Definition rerender (undoRedoChanged : bool) (cl : Closure.t) (w : World.t Dev)
    : Closure.t * World.t Dev :=
  let cl1 := removeLayerCallback undoRedoChanged cl w in
  let w' := clampSelectedLayer w in
  (removeLayerCallback false cl1 w', w').

(** A press of the remove button, of the add button ([addLayer] has
    [keymap] among its dependencies, so its callback captured the state it
    runs on) and of the undo button for the inverse [undo]: the inverse
    that is recorded, if any, the memoised [removeLayer] and the state
    after the renders that follow. [None] when the handler throws. *)
Definition pressRemoveLayer (undoRedoChanged : bool) (cl : Closure.t)
    (w : World.t Dev) : option (M unit * (Closure.t * World.t Dev)) :=
  match removeLayer cl with
  | Raised _ => None
  | Done cmd =>
      match cmd w with
      | (Done undo, w') => Some (undo, rerender undoRedoChanged cl w')
      | (Raised _, _) => None
      end
  end.

Definition pressAddLayer (undoRedoChanged : bool) (cl : Closure.t)
    (w : World.t Dev) : option (M unit * (Closure.t * World.t Dev)) :=
  match addLayer (capture cl w) w with
  | (Done undo, w') => Some (undo, rerender undoRedoChanged cl w')
  | (Raised _, _) => None
  end.

Definition pressUndo (undoRedoChanged : bool) (undo : M unit) (cl : Closure.t)
    (w : World.t Dev) : option (Closure.t * World.t Dev) :=
  match undo w with
  | (Done _, w') => Some (rerender undoRedoChanged cl w')
  | (Raised _, _) => None
  end.
End Editor.

(** ** Example data *)

Definition hidUsageDesc (name : string) (keyboardMax consumerMax : Z) : Desc.t :=
  Desc.mk name None None (Some (HidUsage.mk (Some keyboardMax) (Some consumerMax))) None.

Definition layerIdDesc (name : string) : Desc.t :=
  Desc.mk name None None None (Some tt).

Definition constantDesc (name : string) (value : Z) : Desc.t :=
  Desc.mk name (Some value) None None None.

Definition rangeDesc (name : string) (lo hi : Z) : Desc.t :=
  Desc.mk name None (Some (Range.mk lo hi)) None None.

(** The stock layer-tap: layer on [param1], tapped key on [param2]. *)
Definition layerTapExample : Behavior.t :=
  Behavior.mk 5 "Layer-Tap"
    [PSet.mk [layerIdDesc "Layer"] [hidUsageDesc "Key" 231 4095]].

(** The mirrored declaration: key on [param1], layer on [param2]. *)
Definition layerTapMirrored : Behavior.t :=
  Behavior.mk 6 "Tap-Layer"
    [PSet.mk [hidUsageDesc "Key" 231 0] [layerIdDesc "Layer"]].

(** Layer and usage declared by different metadata sets. *)
Definition layerTapSplit : Behavior.t :=
  Behavior.mk 7 "Split"
    [PSet.mk [layerIdDesc "Layer"] []; PSet.mk [hidUsageDesc "Key" 231 0] []].

(** [param1] accepts a layer or a key, [param2] a key. *)
Definition layerTapMixed : Behavior.t :=
  Behavior.mk 8 "Mixed"
    [PSet.mk [layerIdDesc "Layer"; hidUsageDesc "Key" 231 0]
             [hidUsageDesc "Key" 231 0]].

Definition keyPressExample : Behavior.t :=
  Behavior.mk 1 "Key Press" [PSet.mk [hidUsageDesc "Key" 231 4095] []].

(** Comparison by code units, a stand-in for [localeCompare] in examples. *)
Fixpoint codeUnitCompare (a b : string) : Z :=
  match a, b with
  | EmptyString, EmptyString => 0
  | EmptyString, String _ _ => -1
  | String _ _, EmptyString => 1
  | String x a', String y b' =>
      let nx := Z.of_nat (nat_of_ascii x) in
      let ny := Z.of_nat (nat_of_ascii y) in
      if nx <? ny then -1 else if ny <? nx then 1 else codeUnitCompare a' b'
  end.

(** ** The role mapping as the specification words it

    "Scan metadata sets for the one where one parameter is layer-id-only and
    the other is usage-only." *)

Definition layerIdOnly (descs : list Desc.t) : bool :=
  (0 <? length descs)%nat
  && forallb (fun d => isSome (Desc.layerId d) && negb (isSome (Desc.hidUsage d))
                       && negb (isSome (Desc.constant d)) && negb (isSome (Desc.range d)))
             descs.

Definition usageOnly (descs : list Desc.t) : bool :=
  (0 <? length descs)%nat
  && forallb (fun d => isSome (Desc.hidUsage d) && negb (isSome (Desc.layerId d))
                       && negb (isSome (Desc.constant d)) && negb (isSome (Desc.range d)))
             descs.

Definition cleanlySeparates (set : PSet.t) : bool :=
  (layerIdOnly (PSet.param1 set) && usageOnly (PSet.param2 set))
  || (layerIdOnly (PSet.param2 set) && usageOnly (PSet.param1 set)).

(** Presence of a descriptor kind among the descriptors of a parameter. *)
Definition declaresLayerId (descs : list Desc.t) : Prop :=
  exists d, In d descs /\ Desc.layerId d <> None.

Definition declaresHidUsage (descs : list Desc.t) : Prop :=
  exists d, In d descs /\ Desc.hidUsage d <> None.

Definition declaresConstant (descs : list Desc.t) : Prop :=
  exists d, In d descs /\ Desc.constant d <> None.

(** The panel re-rendered with another [selectedBinding] prop. *)
Definition withSelectedBinding (st : Panel.t) (b : option Binding.t) : Panel.t :=
  Panel.mk (Panel.selectedKeyPosition st)
           (match b with Some binding => bound binding | None => bindingNull end)
           (Panel.behaviors st) (Panel.layers st)
           (Panel.behaviorGroup st) (Panel.category st) (Panel.bluetoothKind st)
           (Panel.quickBehaviorId st) (Panel.layerTapBehaviorId st)
           (Panel.layerTapTargetLayerId st) (Panel.bluetoothBehaviorId st)
           (Panel.bluetoothActionValue st) (Panel.bluetoothProfileValue st)
           (Panel.modTapBehaviorId st) (Panel.modTapModifierValue st).

(** A panel editing key 0 of a two-layer keymap, in the given group, with
    the given behaviours; every behaviour selector points at [selected]. *)
Definition examplePanel (group : BehaviorGroup) (behaviors : BehaviorMap)
    (selected : Z) : Panel.t :=
  Panel.mk (Some 0) (bound (Binding.mk 1 4 0)) behaviors
           [LayerInfo.mk 0 "Base"; LayerInfo.mk 2 "Nav"]
           group main kindBluetooth
           (Some selected) (Some selected) (Some 2) (Some selected)
           None None (Some selected) None.

(** [setModTapModifierValue(value)]. *)
Definition withModTapModifierValue (st : Panel.t) (value : option Z) : Panel.t :=
  Panel.mk (Panel.selectedKeyPosition st) (Panel.selectedBindingProp st)
           (Panel.behaviors st) (Panel.layers st)
           (Panel.behaviorGroup st) (Panel.category st) (Panel.bluetoothKind st)
           (Panel.quickBehaviorId st) (Panel.layerTapBehaviorId st)
           (Panel.layerTapTargetLayerId st) (Panel.bluetoothBehaviorId st)
           (Panel.bluetoothActionValue st) (Panel.bluetoothProfileValue st)
           (Panel.modTapBehaviorId st) value.

(** A parameter that takes a named constant or a number in a range; the
    other parameter is unused. *)
Definition constantOrRange : Behavior.t :=
  Behavior.mk 20 "Backlight"
    [PSet.mk [constantDesc "Auto" 0; rangeDesc "Level" 1 10] []].

(** Action names spelt with an underscore or a hyphen, on [param2]. *)
Definition underscoreActions : Behavior.t :=
  Behavior.mk 21 "Bluetooth"
    [PSet.mk [constantDesc "Slot" 7]
             [constantDesc "next_profile" 1; constantDesc "PREVIOUS-PROFILE" 2]].

(** The six canonical actions on [param1], nothing on [param2]. *)
Definition canonicalActions : PSet.t :=
  PSet.mk [constantDesc "Clear Selected Profile" 10;
           constantDesc "Next Profile" 11;
           constantDesc "Previous Profile" 12;
           constantDesc "Select Profile" 13;
           constantDesc "Clear All Profiles" 14;
           constantDesc "Disconnect Profile" 15]
          [].

Definition canonicalBluetooth : Behavior.t :=
  Behavior.mk 30 "Bluetooth" [canonicalActions].

(** All descriptors a behaviour declares for one parameter:
    [(behavior.metadata || []).flatMap((s) => s.paramN || [])]. *)
Definition allDescs (p : ParamName) (behavior : Behavior.t) : list Desc.t :=
  flat_map (paramOf p) (Behavior.metadata behavior).

(** The fallback test of the code: the parameter declares a constant and
    nothing but constants, and the other parameter declares nothing. *)
Definition soleConstantParam (p : ParamName) (behavior : Behavior.t) : Prop :=
  declaresConstant (allDescs p behavior) /\
  (forall d, In d (allDescs p behavior) ->
             Desc.hidUsage d = None /\ Desc.layerId d = None /\ Desc.range d = None) /\
  allDescs (otherParamName p) behavior = [].

(** The fallback as the specification words it: "it is the only parameter
    with constants and the other parameter has no descriptors at all". *)
Definition onlyParamWithConstants (p : ParamName) (behavior : Behavior.t) : Prop :=
  declaresConstant (allDescs p behavior) /\
  allDescs (otherParamName p) behavior = [].

(** The label match as the specification words it: case- and
    whitespace-insensitive equality. *)
Fixpoint dropWhitespace (s : string) : string :=
  match s with
  | EmptyString => EmptyString
  | String c rest =>
      if isBlankChar c then dropWhitespace rest else String c (dropWhitespace rest)
  end.

Definition sameLabelIgnoringCaseAndSpace (a b : string) : bool :=
  String.eqb (dropWhitespace (toLowerCase a)) (dropWhitespace (toLowerCase b)).

(** The boolean form of [soleConstantParam]. *)
Definition soleConstantParamb (p : ParamName) (behavior : Behavior.t) : bool :=
  existsb (fun d => isSome (Desc.constant d)) (allDescs p behavior)
  && negb (existsb (fun d => isSome (Desc.hidUsage d) || isSome (Desc.layerId d)
                             || isSome (Desc.range d)) (allDescs p behavior))
  && (length (allDescs (otherParamName p) behavior) =? 0)%nat.

(** The order a set with a matching label yields. *)
Definition orderOfScores (set : PSet.t) : BluetoothOrder.t :=
  let actionParam :=
    if (actionScore (PSet.param2 set) <=? actionScore (PSet.param1 set))%nat
    then Param1 else Param2 in
  BluetoothOrder.mk actionParam
    (match paramOf (otherParamName actionParam) set with
     | [] => None
     | _ :: _ => Some (otherParamName actionParam)
     end).

(** The six canonical actions on [param1] and a profile range on
    [param2]. *)
Definition bluetoothWithProfiles : Behavior.t :=
  Behavior.mk 31 "Bluetooth"
    [PSet.mk (PSet.param1 canonicalActions) [rangeDesc "Profile" 0 4]].

(** The panel in the bluetooth group over the given behaviour, with the
    given action and profile cells. *)
Definition bluetoothPanel (behavior : Behavior.t) (action profile : option Z)
    : Panel.t :=
  Panel.mk (Some 0) (bound (Binding.mk 1 4 0)) [keyPressExample; behavior]
           [LayerInfo.mk 0 "Base"; LayerInfo.mk 2 "Nav"]
           bluetooth main kindBluetooth
           None None None (Some (Behavior.id behavior))
           action profile None None.

(** The entries of [bluetoothActions] for [canonicalBluetooth]. *)
Definition canonicalEntries : list (string * option Desc.t) :=
  [ ("Next Profile", Some (constantDesc "Next Profile" 11));
    ("Previous Profile", Some (constantDesc "Previous Profile" 12));
    ("Clear All Profiles", Some (constantDesc "Clear All Profiles" 14));
    ("Clear Selected Profile", Some (constantDesc "Clear Selected Profile" 10));
    ("Select Profile", Some (constantDesc "Select Profile" 13));
    ("Disconnect Profile", Some (constantDesc "Disconnect Profile" 15)) ].

Definition profilesPanel : Panel.t :=
  bluetoothPanel bluetoothWithProfiles (Some 11) (Some 2).

(** [keymap.layers[layer].bindings[keyPosition]], [undefined] when the
    layer or the slot is missing. *)
Definition bindingAt (keymap : Keymap.t) (layer : Z) (keyPosition : nat)
    : option Binding.t :=
  match layerAt (Keymap.layers keymap) layer with
  | Some l => js_get (Layer.bindings l) keyPosition
  | None => None
  end.

(** A device that accepts everything, one that rejects every binding, and
    one that accepts a given number of requests before it starts to
    reject. *)
Definition okResponse : Response.t :=
  Response.mk (Some SET_LAYER_BINDING_RESP_OK) None true None None.

Definition rejectResponse : Response.t :=
  Response.mk (Some SET_LAYER_BINDING_RESP_INVALID_PARAMETERS) None false None (Some 1).

Definition acceptingDevice (d : unit) (req : Request) : Response.t * unit :=
  (okResponse, d).

Definition rejectingDevice (d : unit) (req : Request) : Response.t * unit :=
  (rejectResponse, d).

Definition countingDevice (budget : nat) (req : Request) : Response.t * nat :=
  match budget with
  | O => (rejectResponse, O)
  | S n => (okResponse, n)
  end.

Definition keyPress (usage : Z) : option Binding.t := Some (Binding.mk 1 usage 0).

(** A keymap of three layers with three keys each. *)
Definition exampleKeymap : Keymap.t :=
  Keymap.mk [Layer.mk 10 "Base" [keyPress 4; keyPress 5; keyPress 6];
             Layer.mk 11 "Nav" [keyPress 7; keyPress 8; keyPress 9];
             Layer.mk 12 "Fn" [keyPress 10; keyPress 11; keyPress 12]]
            2.

Definition exampleClosure (layer : Z) (keyPosition : option nat) : Closure.t :=
  Closure.mk true ZMK_STUDIO_CORE_LOCK_STATE_UNLOCKED (Some exampleKeymap)
             layer keyPosition.

Definition exampleWorld {Dev} (d : Dev) (selected : Z) : World.t Dev :=
  World.mk (Some exampleKeymap) selected d [] [].

(** ** The edits an import calls for

    The positions the two loops of [importKeymap] visit, in the order they
    visit them, reduced to those where the document holds an entry that
    differs from the captured binding. *)

Module Edit.
Record t := mk {
  layerIndex : nat;
  keyPosition : nat;
  layerId : Z;
  binding : Binding.t
}.
End Edit.

Definition keyEdit (layerIndex : nat) (layerId : Z)
    (currentBindings : list (option Binding.t))
    (nextBindings : list (option ImportedBinding.t)) (keyPosition : nat)
    : list Edit.t :=
  match js_get currentBindings keyPosition, js_get nextBindings keyPosition with
  | Some old, Some next =>
      if Binding_eqb old (importedBinding next) then []
      else [Edit.mk layerIndex keyPosition layerId (importedBinding next)]
  | _, _ => []
  end.

Definition layerEdits (keymap : Keymap.t) (importedLayers : list ImportedLayer)
    (layerIndex : nat) : list Edit.t :=
  match Keymap.layers keymap !! layerIndex, importedLayers !! layerIndex with
  | Some l, Some (Some nextBindings) =>
      flat_map (keyEdit layerIndex (Layer.id l) (Layer.bindings l) nextBindings)
               (seq 0 (Nat.min (length (Layer.bindings l)) (length nextBindings)))
  | _, _ => []
  end.

Definition plannedEdits (keymap : Keymap.t) (importedLayers : list ImportedLayer)
    : list Edit.t :=
  flat_map (layerEdits keymap importedLayers)
           (seq 0 (Nat.min (length (Keymap.layers keymap)) (length importedLayers))).

Definition editRequest (e : Edit.t) : Request :=
  SetLayerBinding (Edit.layerId e) (Edit.keyPosition e) (Some (Edit.binding e)).

(** The replica after one confirmed edit, and after a list of them. *)
Definition applyEdit (keymap : Keymap.t) (e : Edit.t) : Keymap.t :=
  match setBindingRecipe (Z.of_nat (Edit.layerIndex e)) (Edit.keyPosition e)
                         (Some (Edit.binding e)) keymap with
  | Some keymap' => keymap'
  | None => keymap
  end.

Definition applyEdits (edits : list Edit.t) (keymap : Keymap.t) : Keymap.t :=
  fold_left applyEdit edits keymap.

(** Row-major order of positions. *)
Definition editBefore (a b : Edit.t) : Prop :=
  (Edit.layerIndex a < Edit.layerIndex b)%nat \/
  (Edit.layerIndex a = Edit.layerIndex b /\
   (Edit.keyPosition a < Edit.keyPosition b)%nat).

(** Whether the device, after having accepted the edits before it,
    accepts the edit [e]. *)
Fixpoint deviceAfter {Dev} (device : Dev -> Request -> Response.t * Dev)
    (d : Dev) (edits : list Edit.t) : Dev :=
  match edits with
  | [] => d
  | e :: rest => deviceAfter device (snd (device d (editRequest e))) rest
  end.

Definition deviceAccepts {Dev} (device : Dev -> Request -> Response.t * Dev)
    (d : Dev) (e : Edit.t) : bool :=
  isRespOk (Response.setLayerBinding (fst (device d (editRequest e)))).

(** The number of edits at the head of [edits] the device confirms in a
    row, starting from the device state [d]. *)
Fixpoint confirmedCount {Dev} (device : Dev -> Request -> Response.t * Dev)
    (d : Dev) (edits : list Edit.t) : nat :=
  match edits with
  | [] => 0
  | e :: rest =>
      if deviceAccepts device d e
      then S (confirmedCount device (snd (device d (editRequest e))) rest)
      else 0
  end.

(** Every slot of every layer holds a binding, as in a keymap received
    from the device. *)
Definition denseKeymap (keymap : Keymap.t) : Prop :=
  forall l slot, In l (Keymap.layers keymap) -> In slot (Layer.bindings l) ->
                 slot <> None.

Definition importFailed : string :=
  "Failed to import keymap (setLayerBinding error)".

(** A document for [exampleKeymap]: two layers; the first changes keys 0
    and 2 and repeats key 1, the second changes key 1, has a [null] entry
    and an entry without members, and carries a fourth key. *)
Definition exampleDocument : list ImportedLayer :=
  [ Some [Some (ImportedBinding.mk (Some 1) (Some 20) (Some 0));
          Some (ImportedBinding.mk (Some 1) (Some 5) None);
          Some (ImportedBinding.mk (Some 1) (Some 22) (Some 0))];
    Some [None;
          Some (ImportedBinding.mk (Some 1) (Some 30) (Some 0));
          Some (ImportedBinding.mk None None None);
          Some (ImportedBinding.mk (Some 1) (Some 31) (Some 0))] ].

(** A second document for [exampleKeymap]: key 0 of the first layer
    differs from the device's binding in [param2] only, key 1 repeats the
    device's binding with [param2] left out, and key 2 changes [param1]. *)
Definition param2Document : list ImportedLayer :=
  [ Some [Some (ImportedBinding.mk (Some 1) (Some 4) (Some 7));
          Some (ImportedBinding.mk (Some 1) (Some 5) None);
          Some (ImportedBinding.mk (Some 1) (Some 22) (Some 0))];
    Some [None;
          Some (ImportedBinding.mk (Some 1) (Some 30) (Some 0));
          Some (ImportedBinding.mk None None None);
          Some (ImportedBinding.mk (Some 1) (Some 31) (Some 0))] ].

(** One planned edit as the loop body performs it, and a list of them
    performed in order until one is rejected. *)
Definition sendEdit {Dev} (device : Dev -> Request -> Response.t * Dev)
    (e : Edit.t) : M LoopCtl :=
  bind (call_rpc device (editRequest e)) (fun resp =>
    if negb (isRespOk (Response.setLayerBinding resp))
    then bind (alert importFailed) (fun _ => ret Return)
    else bind (setKeymap (setBindingRecipe (Z.of_nat (Edit.layerIndex e))
                                           (Edit.keyPosition e)
                                           (Some (Edit.binding e))))
              (fun _ => ret Continue)).

Fixpoint runEdits {Dev} (device : Dev -> Request -> Response.t * Dev)
    (edits : list Edit.t) : M LoopCtl :=
  match edits with
  | [] => ret Continue
  | e :: rest =>
      bind (sendEdit device e) (fun ctl =>
        match ctl with
        | Return => ret Return
        | Continue => runEdits device rest
        end)
  end.

(** A set pairs a layer with a key when one parameter declares a layer id
    and the other one a HID usage. *)
Definition layerOnFirst (set : PSet.t) : Prop :=
  declaresLayerId (PSet.param1 set) /\ declaresHidUsage (PSet.param2 set).

Definition layerOnSecond (set : PSet.t) : Prop :=
  declaresLayerId (PSet.param2 set) /\ declaresHidUsage (PSet.param1 set).

(** The code unit of a character. *)
Definition charCode (c : ascii) : Z := Z.of_nat (nat_of_ascii c).

(** ** The key-assignment panel: effects and the mod-tap decoder *)

Definition Category_eqb (a b : Category) : bool :=
  match a, b with
  | main, main | mods, mods | nav, nav | func, func | media, media => true
  | _, _ => false
  end.

(** [Object.keys(CATEGORY_LABELS)]. *)
Definition allCategories : list Category := [main; mods; nav; func; media].

(** The shape shared by the effects that keep a behaviour selector valid:
    no behaviours, no selection; no selection yet, or one that is not
    offered, the first behaviour; otherwise the selection stays. *)
Definition defaultSelection (offered : list Behavior.t) (selected : option Z)
    : option Z :=
  match offered with
  | [] => None
  | first :: _ =>
      match selected with
      | None => Some (Behavior.id first)
      | Some id =>
          if existsb (fun b => Behavior.id b =? id) offered
          then Some id
          else Some (Behavior.id first)
      end
  end.

Section PanelEffects.
Variable localeCompare : string -> string -> Z.
Variable st : Panel.t.

(** The value of [quickBehaviorId] after its effect, and likewise for the
    other three selectors. *)
Definition quickBehaviorIdEffect : option Z :=
  defaultSelection (quickBehaviors localeCompare st) (Panel.quickBehaviorId st).

Definition layerTapBehaviorIdEffect : option Z :=
  defaultSelection (layerTapBehaviors localeCompare st) (Panel.layerTapBehaviorId st).

Definition bluetoothBehaviorIdEffect : option Z :=
  defaultSelection (bluetoothBehaviorsForKind localeCompare st)
                   (Panel.bluetoothBehaviorId st).

Definition modTapBehaviorIdEffect : option Z :=
  defaultSelection (modTapBehaviors localeCompare st) (Panel.modTapBehaviorId st).

(** The value of [layerTapTargetLayerId] after its effect; [layers[0]?.id]
    is [undefined] without layers. *)
Definition layerTapTargetLayerIdEffect : option Z :=
  let first :=
    match Panel.layers st with
    | [] => None
    | l :: _ => Some (LayerInfo.id l)
    end in
  match Panel.layerTapTargetLayerId st with
  | None => first
  | Some target =>
      if existsb (fun l => LayerInfo.id l =? target) (Panel.layers st)
      then Some target
      else first
  end.





(** The value of [modTapModifierValue] after the effect that keeps it
    among the choices of the selected mod-tap behaviour. *)
Definition modTapModifierValueEffect : option Z :=
  match modTapBehavior localeCompare st with
  | None => None
  | Some behavior =>
      match inferModTapParamOrder behavior with
      | None => None
      | Some order =>
          match collectConstantChoices localeCompare behavior
                  (ModTapOrder.modParam order) with
          | [] => None
          | c0 :: rest =>
              match Panel.modTapModifierValue st with
              | None => Desc.constant c0
              | Some value =>
                  if existsb (fun c => match Desc.constant c with
                                       | Some k => k =? value
                                       | None => false
                                       end) (c0 :: rest)
                  then Some value
                  else Desc.constant c0
              end
          end
      end
  end.

Definition allowedCategories : list Category :=
  match Panel.behaviorGroup st with
  | key => allCategories
  | group =>
      let usageBehavior :=
        match group with
        | layerTap => layerTapBehavior localeCompare st
        | modTap => modTapBehavior localeCompare st
        | _ => None
        end in
      match usageBehavior with
      | None => allCategories
      | Some behavior =>
          let supportsConsumer :=
            match getHidUsageCaps behavior with
            | Some caps => 0 <? Caps.consumerMax caps
            | None => false
            end in
          if supportsConsumer then allCategories
          else List.filter (fun c => negb (Category_eqb c media)) allCategories
      end
  end.

(** The value of [category] after the effect that keeps it allowed;
    [allowedCategories[0] || "main"]. *)
Definition categoryEffect : Category :=
  if existsb (Category_eqb (Panel.category st)) allowedCategories
  then Panel.category st
  else match allowedCategories with
       | c :: _ => c
       | [] => main
       end.

(** The values of [bluetoothActionValue] and [bluetoothProfileValue] after
    the effect that follows the selected binding. *)
Definition bluetoothValuesEffect : option Z * option Z :=
  match bluetoothBehavior localeCompare st, bluetoothOrder localeCompare st with
  | Some _, Some order =>
      match activeBluetooth localeCompare st with
      | Some (actionValue, profileValue) =>
          (Some actionValue,
           match BluetoothOrder.profileParam order with
           | Some _ => Some (match profileValue with Some v => v | None => 0 end)
           | None => None
           end)
      | None => (firstAvailable localeCompare st, None)
      end
  | _, _ => (None, None)
  end.
End PanelEffects.

(** Whether a behaviour with usage capabilities serves a palette category:
    the test of the second filter of [getQuickHidUsageBehaviors]. *)
Definition supportsCategory (category : Category) (b : Behavior.t) : bool :=
  match getHidUsageCaps b with
  | None => false
  | Some caps =>
      match category with
      | media => 0 <? Caps.consumerMax caps
      | _ => 0 <? Caps.keyboardMax caps
      end
  end.

(** The name test of [getQuickBluetoothBehaviors], [/bluetooth|output/i],
    and the one of [bluetoothBehaviorsForKind]. *)
Definition namedBluetoothOrOutput (b : Behavior.t) : bool :=
  testIgnoreCase "bluetooth" (Behavior.displayName b)
  || testIgnoreCase "output" (Behavior.displayName b).

Definition namedForKind (kind : BluetoothKind) (b : Behavior.t) : bool :=
  match kind with
  | kindOutput => testIgnoreCase "output" (Behavior.displayName b)
  | kindBluetooth => testIgnoreCase "bluetooth" (Behavior.displayName b)
  end.

(** A consumer-only key behaviour and an output-selection behaviour. *)
Definition consumerKeyExample : Behavior.t :=
  Behavior.mk 2 "Consumer Key" [PSet.mk [hidUsageDesc "Key" 0 4095] []].

Definition outputSelection : Behavior.t :=
  Behavior.mk 40 "Output Selection"
    [PSet.mk [constantDesc "USB" 0; constantDesc "BLE" 1] []].

(** A panel on the Bluetooth tab with nothing selected yet. *)
Definition kindPanel (behaviors : BehaviorMap) (kind : BluetoothKind) : Panel.t :=
  Panel.mk None bindingNull behaviors [] bluetooth main kind
           None None None None None None None None.

(** The duplicate test of [collectConstantChoices]: [choices.has(c)] for a
    descriptor whose constant is [c]. *)
Definition hasConstant (c : Z) (d : Desc.t) : bool :=
  match Desc.constant d with
  | Some c' => c' =? c
  | None => false
  end.

(** A mod-tap with its modifiers on [param1], one of them declared twice
    under different names, and one with usage and modifiers in different
    metadata sets. *)
Definition modTapExample : Behavior.t :=
  Behavior.mk 9 "Mod-Tap"
    [PSet.mk [constantDesc "Shift" 2; constantDesc "Ctrl" 1; constantDesc "LShift" 2]
             [hidUsageDesc "Key" 231 0]].

Definition modTapSplit : Behavior.t :=
  Behavior.mk 12 "Split Mod"
    [PSet.mk [constantDesc "Shift" 2] []; PSet.mk [hidUsageDesc "Key" 231 0] []].

(** The panel on the mod-tap tab once the effect on the modifier has
    chosen the first choice of [modTapExample], "Ctrl". *)
Definition modTapPanel : Panel.t :=
  withModTapModifierValue (examplePanel modTap [keyPressExample; modTapExample] 9)
                          (Some 1).

(** A device that confirms every request; it answers [addLayer] with the
    given index and layer and [restoreLayer] with the given layer. *)
Definition layerDevice (index : Z) (layer : Layer.t) (d : unit) (req : Request)
    : Response.t * unit :=
  (Response.mk (Some SET_LAYER_BINDING_RESP_OK) (Some (index, layer)) true
               (Some layer) None, d).

Definition blankLayer : Layer.t :=
  Layer.mk 13 "Extra" [keyPress 0; keyPress 0; keyPress 0].

(** A keymap of two layers, and a device that confirms every request:
    it answers [addLayer] with the index 1 and a blank layer, and
    [restoreLayer] with the first of the two layers. *)
Definition twoLayerKeymap : Keymap.t :=
  Keymap.mk [Layer.mk 10 "Base" [keyPress 4; keyPress 5];
             Layer.mk 11 "Nav" [keyPress 7; keyPress 8]]
            2.

Definition restoringDevice (d : unit) (req : Request) : Response.t * unit :=
  (Response.mk (Some SET_LAYER_BINDING_RESP_OK) (Some (1, blankLayer)) true
               (Some (Layer.mk 10 "Base" [keyPress 4; keyPress 5])) None, d).

(** The presses remove layer, add layer, undo, undo, remove layer on
    [twoLayerKeymap] with layer 0 selected, connected and unlocked: the
    memoised [removeLayer] and the state before the last press, and the
    state after it. *)
Definition removeAddUndoUndoRemove (undoRedoChanged : bool)
    : option (Closure.t * World.t unit * World.t unit) :=
  let w0 := World.mk (Some twoLayerKeymap) 0 tt [] [] in
  let cl0 :=
    Closure.mk true ZMK_STUDIO_CORE_LOCK_STATE_UNLOCKED (Some twoLayerKeymap) 0 None in
  match pressRemoveLayer restoringDevice undoRedoChanged cl0 w0 with
  | None => None
  | Some (undo1, (cl1, w1)) =>
      match pressAddLayer restoringDevice undoRedoChanged cl1 w1 with
      | None => None
      | Some (undo2, (cl2, w2)) =>
          match pressUndo undoRedoChanged undo2 cl2 w2 with
          | None => None
          | Some (cl3, w3) =>
              match pressUndo undoRedoChanged undo1 cl3 w3 with
              | None => None
              | Some (cl4, w4) =>
                  match pressRemoveLayer restoringDevice undoRedoChanged cl4 w4 with
                  | None => None
                  | Some (_, (_, w5)) => Some (cl4, w4, w5)
                  end
              end
          end
      end
  end.

(** ** [exportKeymap]

    The layers of the payload handed to [JSON.stringify]; the other members
    of the payload ([format], [version], [exportedAt]) are not read back by
    [importKeymap]. *)
Module ExportedLayer.
Record t := mk { name : string; bindings : list Binding.t }.
End ExportedLayer.

(** [NoDownload]: no keymap is loaded and the callback returns. [EmptySlot]:
    some slot of a layer is empty; the callback of [bindings.map] is then
    skipped (a hole) or throws (a slot holding [undefined]), two cases
    [Layer.bindings] does not tell apart, so the export of such a keymap is
    not described. *)
Inductive Export :=
  | NoDownload
  | EmptySlot
  | Download (layers : list ExportedLayer.t).

(** [l.bindings.map((b) => ({ behaviorId: b.behaviorId, param1: b.param1,
    param2: b.param2 }))]. *)
Fixpoint exportBindings (bindings : list (option Binding.t)) : option (list Binding.t) :=
  match bindings with
  | [] => Some []
  | None :: _ => None
  | Some b :: rest =>
      match exportBindings rest with
      | Some out =>
          Some (Binding.mk (Binding.behaviorId b) (Binding.param1 b) (Binding.param2 b)
                  :: out)
      | None => None
      end
  end.

(** [keymap.layers.map((l) => ({ name: l.name, bindings: ... }))]. *)
Fixpoint exportLayers (layers : list Layer.t) : option (list ExportedLayer.t) :=
  match layers with
  | [] => Some []
  | l :: rest =>
      match exportBindings (Layer.bindings l), exportLayers rest with
      | Some bindings, Some out => Some (ExportedLayer.mk (Layer.name l) bindings :: out)
      | _, _ => None
      end
  end.

Definition exportKeymap (keymap : option Keymap.t) : Export :=
  match keymap with
  | None => NoDownload
  | Some keymap =>
      match exportLayers (Keymap.layers keymap) with
      | Some layers => Download layers
      | None => EmptySlot
      end
  end.

(** The downloaded file as [importKeymap] reads it: [JSON.stringify]
    followed by [JSON.parse] gives back the arrays, with every member of
    every binding present; [parsed.keymap.layers] is an array, hence truthy
    even when empty, so it is the value of [importedLayers]. *)
Definition readBack (layers : list ExportedLayer.t) : ImportFile :=
  Parsed (Some (map (fun l =>
                       Some (map (fun b =>
                                    Some (ImportedBinding.mk
                                            (Some (Binding.behaviorId b))
                                            (Some (Binding.param1 b))
                                            (Some (Binding.param2 b))))
                                 (ExportedLayer.bindings l)))
                    layers)).

(** What [importKeymap] never changes: the id, the name and the number of
    keys of each layer, and the number of layers still available. *)
Definition keymapShape (keymap : Keymap.t) : list (Z * string * nat) * Z :=
  (map (fun l => (Layer.id l, Layer.name l, length (Layer.bindings l)))
       (Keymap.layers keymap),
   Keymap.availableLayers keymap).

(** ** The key tester

    [BehaviorMap] of the key tester is the record itself, read by
    behaviour id: [behaviors[binding.behaviorId]]. *)

(** [extractHidUsageFromBinding(binding, behavior)]; [None] is [null]. *)
Definition extractHidUsageFromBinding (binding : Binding.t)
    (behavior : option Behavior.t) : option Z :=
  match behavior with
  | None => None
  | Some behavior =>
      match Behavior.metadata behavior with
      | [] => None
      | metadata =>
          firstSet
            (fun set =>
               let p1HasUsage :=
                 existsb (fun p => isSome (Desc.hidUsage p)) (PSet.param1 set) in
               let p2HasUsage :=
                 existsb (fun p => isSome (Desc.hidUsage p)) (PSet.param2 set) in
               if p1HasUsage && negb p2HasUsage then Some (Binding.param1 binding)
               else if p2HasUsage && negb p1HasUsage then Some (Binding.param2 binding)
               else None)
            metadata
      end
  end.

(** The loop of [findKeyPositionsByHidUsage] from position [i] on; [None]
    is the [TypeError] of [binding.behaviorId] on an empty slot. *)
Fixpoint findKeyPositionsFrom (i : nat) (keymapBindings : list (option Binding.t))
    (behaviors : gmap Z Behavior.t) (usage : Z) (positions : list nat)
    : option (list nat) :=
  match keymapBindings with
  | [] => Some positions
  | None :: _ => None
  | Some binding :: rest =>
      let behavior := behaviors !! Binding.behaviorId binding in
      let u := extractHidUsageFromBinding binding behavior in
      findKeyPositionsFrom (S i) rest behaviors usage
        (match u with
         | Some u' => if u' =? usage then (positions ++ [i])%list else positions
         | None => positions
         end)
  end.

Definition findKeyPositionsByHidUsage (keymapBindings : list (option Binding.t))
    (behaviors : gmap Z Behavior.t) (usage : Z) : option (list nat) :=
  findKeyPositionsFrom 0 keymapBindings behaviors usage [].

Inductive EventKind := down | up.

Module TesterEvent.
Record t := mk {
  kind : EventKind;
  code : string;
  key : string;
  usage : option Z;
  at_ : Z
}.
End TesterEvent.

Module KeyEvent.
(** What the handlers read of a [KeyboardEvent]; [typingTarget] is
    [isTypingTarget(e.target)]. *)
Record t := mk {
  typingTarget : bool;
  repeat : bool;
  code : string;
  key : string
}.
End KeyEvent.

Module Tester.
Record t := mk {
  testerPressedUsages : list Z;
  testerHitUsages : gset Z;
  testerEvents : list TesterEvent.t
}.
End Tester.

(** [resetKeyTester], and the state the effect sets while the tester is
    off. *)
Definition resetKeyTester : Tester.t := Tester.mk [] ∅ [].

Section KeyTester.
(** The handlers use [keyboardCodeToHidUsage] only through its result for
    [e.code]; they are modelled for an arbitrary such function. *)
Variable keyboardCodeToHidUsage : string -> option Z.

(** [onKeyDown(e)] at the time [now]: the state after the three functional
    updates, and whether [preventDefault] and [stopPropagation] were
    called. *)
Definition onKeyDown (showKeyTester : bool) (e : KeyEvent.t) (now : Z)
    (s : Tester.t) : Tester.t * bool :=
  if negb showKeyTester then (s, false)
  else if KeyEvent.typingTarget e then (s, false)
  else if KeyEvent.repeat e then (s, false)
  else
    let usage := keyboardCodeToHidUsage (KeyEvent.code e) in
    let pressed :=
      match usage with
      | Some u =>
          if existsb (Z.eqb u) (Tester.testerPressedUsages s)
          then Tester.testerPressedUsages s
          else (Tester.testerPressedUsages s ++ [u])%list
      | None => Tester.testerPressedUsages s
      end in
    let hit :=
      match usage with
      | Some u =>
          if decide (u ∈ Tester.testerHitUsages s)
          then Tester.testerHitUsages s
          else Tester.testerHitUsages s ∪ {[u]}
      | None => Tester.testerHitUsages s
      end in
    (Tester.mk pressed hit
       (take 30 (TesterEvent.mk down (KeyEvent.code e) (KeyEvent.key e) usage now
                   :: Tester.testerEvents s)),
     true).

Definition onKeyUp (showKeyTester : bool) (e : KeyEvent.t) (now : Z)
    (s : Tester.t) : Tester.t * bool :=
  if negb showKeyTester then (s, false)
  else if KeyEvent.typingTarget e then (s, false)
  else
    let usage := keyboardCodeToHidUsage (KeyEvent.code e) in
    let pressed :=
      match usage with
      | Some u =>
          List.filter (fun u' => negb (u' =? u)) (Tester.testerPressedUsages s)
      | None => Tester.testerPressedUsages s
      end in
    (Tester.mk pressed (Tester.testerHitUsages s)
       (take 30 (TesterEvent.mk up (KeyEvent.code e) (KeyEvent.key e) usage now
                   :: Tester.testerEvents s)),
     true).

(** A run of the registered handlers (the tester is on) over a sequence of
    keyboard events with their times. *)
Definition handle (s : Tester.t) (ev : EventKind * KeyEvent.t * Z) : Tester.t :=
  match ev with
  | (down, e, now) => fst (onKeyDown true e now s)
  | (up, e, now) => fst (onKeyUp true e now s)
  end.

Definition handleAll (evs : list (EventKind * KeyEvent.t * Z)) (s : Tester.t)
    : Tester.t :=
  fold_left handle evs s.
End KeyTester.



(** A behaviour record and tester states for the examples. *)
Definition exampleBehaviorRecord : gmap Z Behavior.t :=
  <[1 := keyPressExample]> (<[5 := layerTapExample]> ∅).

Definition aKeyEvent (code : string) : KeyEvent.t :=
  KeyEvent.mk false false code code.

(** What the handlers keep true of the tester state: no usage is listed
    as pressed twice, every pressed usage has been recorded as hit, and at
    most 30 events are kept. *)
Definition testerInvariant (s : Tester.t) : Prop :=
  NoDup (Tester.testerPressedUsages s)
  /\ (forall u, In u (Tester.testerPressedUsages s) -> u ∈ Tester.testerHitUsages s)
  /\ (length (Tester.testerEvents s) <= 30)%nat.

(** A code table for the examples. *)
Definition exampleCodes (code : string) : option Z :=
  if String.eqb code "KeyA" then Some 458756
  else if String.eqb code "KeyB" then Some 458757
  else None.

(** ** The key preview of the keymap view

    [Keymap.tsx] has its own copies of the classifiers; those that differ
    from the panel's are in the module [Preview]. *)
Module Preview.
(** [label.replace(/\s+/g, "")]. *)
Fixpoint compactLabel (label : string) : string :=
  match label with
  | EmptyString => EmptyString
  | String c rest =>
      if isBlankChar c then compactLabel rest else String c (compactLabel rest)
  end.

Definition abbreviateBluetoothBehavior (displayName : string) : string :=
  let n := normalizeName displayName in
  if includes "output" n then "Out"
  else if includes "bluetooth" n then "BT"
  else "BT".

(** The [switch] over the canonical action labels; [action ?
    compactLabel(action) : "Action"] treats the empty string as absent. *)
Definition abbreviateBluetoothAction (action : option string) : string :=
  match action with
  | None => "Action"
  | Some a =>
      if String.eqb a "Next Profile" then "NextProf"
      else if String.eqb a "Previous Profile" then "PrevProf"
      else if String.eqb a "Clear All Profiles" then "ClrAll"
      else if String.eqb a "Clear Selected Profile" then "ClrSel"
      else if String.eqb a "Select Profile" then "SelProf"
      else if String.eqb a "Disconnect Profile" then "DiscProf"
      else if String.eqb a "" then "Action"
      else compactLabel a
  end.

(** This copy has no fallback to a sole constant parameter. *)
Definition inferBluetoothParamOrder (behavior : Behavior.t) : option BluetoothOrder.t :=
  firstSet bluetoothOrderOfSet (Behavior.metadata behavior).

(** [found?.name] is absent for the empty name. *)
Definition constantLabelForValue (behavior : Behavior.t) (param : ParamName)
    (value : Z) : option string :=
  firstSet
    (fun set =>
       match List.find (fun d => match Desc.constant d with
                                 | Some c => c =? value
                                 | None => false
                                 end) (paramOf param set) with
       | Some found =>
           if String.eqb (Desc.name found) "" then None else Some (Desc.name found)
       | None => None
       end)
    (Behavior.metadata behavior).

(** What [KeyPreview] shows, before it is laid out: nothing; the three
    lines of a Bluetooth-like binding (the profile line only when present);
    for a layer-tap the layer id, the layer found for it and the tapped
    usage, from which the layer line and the usage line are rendered; or
    the usage handed to [HidUsageLabel]. *)
Inductive Shown :=
  | ShowNothing
  | ShowBluetooth (behaviorLine actionLine : string) (profileLine : option Z)
  | ShowLayerTap (layerId : Z) (layer : option Layer.t) (tapUsage : Z)
  | ShowUsage (hid_usage : Z).

Definition KeyPreview (behavior : option Behavior.t) (binding : Binding.t)
    (keymap : Keymap.t) : Shown :=
  match behavior with
  | None => ShowNothing
  | Some behavior =>
      let fallback :=
        if hasHidUsageParam behavior then ShowUsage (Binding.param1 binding)
        else ShowNothing in
      let layerTapOrFallback :=
        if hasLayerIdParam behavior && hasHidUsageParam behavior then
          match inferLayerTapParamOrder behavior with
          | Some order =>
              let layerId := bindingParam (LayerTapOrder.layerParam order) binding in
              let tapUsage := bindingParam (LayerTapOrder.usageParam order) binding in
              let layer :=
                List.find (fun l => Layer.id l =? layerId) (Keymap.layers keymap) in
              ShowLayerTap layerId layer tapUsage
          | None => fallback
          end
        else fallback in
      if (testIgnoreCase "bluetooth" (Behavior.displayName behavior)
          || testIgnoreCase "output" (Behavior.displayName behavior))
         && hasConstantParam behavior
      then
        match inferBluetoothParamOrder behavior with
        | Some order =>
            let actionValue := bindingParam (BluetoothOrder.actionParam order) binding in
            let actionName :=
              constantLabelForValue behavior (BluetoothOrder.actionParam order)
                                    actionValue in
            let wantsProfile :=
              match actionName with
              | Some n => String.eqb n "Select Profile"
              | None => false
              end in
            let resolvedProfileParam :=
              match BluetoothOrder.profileParam order with
              | Some p => p
              | None => otherParamName (BluetoothOrder.actionParam order)
              end in
            let profileValue := bindingParam resolvedProfileParam binding in
            ShowBluetooth (abbreviateBluetoothBehavior (Behavior.displayName behavior))
                          (abbreviateBluetoothAction actionName)
                          (if wantsProfile then Some profileValue else None)
        | None => layerTapOrFallback
        end
      else layerTapOrFallback
  end.
End Preview.

(** The page of the usages a palette category offers, and a usage table
    for the examples. *)
Definition categoryPage (category : Category) : Z :=
  match category with
  | media => CONSUMER_PAGE
  | _ => KEYBOARD_PAGE
  end.

Definition exampleUsageTable (page : Z) (id : Num) : Num :=
  match id with
  | Int z => Int (page * 65536 + z)
  | NaN => NaN
  end.

Definition noLabels (page : Z) (id : Num) : option string := None.

(** ** [keyboardCodeToHidUsage]

    The argument of [Number] is an arbitrary string here, so numbers that
    come out of [Number] are kept abstract together with the operations
    applied to them; [ofZ] is the number an integer literal denotes.
    Computations on code units are integer arithmetic. *)

(** [code.slice(n)]. *)
Fixpoint sliceFrom (n : nat) (s : string) : string :=
  match n, s with
  | O, _ => s
  | S n', String _ rest => sliceFrom n' rest
  | S _, EmptyString => EmptyString
  end.

(** [/^\d$/.test(rest)]. *)
Definition isSingleDigit (rest : string) : bool :=
  match rest with
  | String c EmptyString =>
      let n := nat_of_ascii c in ((48 <=? n) && (n <=? 57))%nat
  | _ => false
  end.

(** The cases of the first [switch]. *)
Definition namedKeyIds : list (string * Z) :=
  [ ("Enter", 40); ("Escape", 41); ("Backspace", 42); ("Tab", 43); ("Space", 44);
    ("Minus", 45); ("Equal", 46); ("BracketLeft", 47); ("BracketRight", 48);
    ("Backslash", 49); ("Semicolon", 51); ("Quote", 52); ("Backquote", 53);
    ("Comma", 54); ("Period", 55); ("Slash", 56); ("CapsLock", 57);
    ("PrintScreen", 70); ("ScrollLock", 71); ("Pause", 72); ("Insert", 73);
    ("Home", 74); ("PageUp", 75); ("Delete", 76); ("End", 77); ("PageDown", 78);
    ("ArrowRight", 79); ("ArrowLeft", 80); ("ArrowDown", 81); ("ArrowUp", 82);
    ("ControlLeft", 224); ("ShiftLeft", 225); ("AltLeft", 226); ("MetaLeft", 227);
    ("ControlRight", 228); ("ShiftRight", 229); ("AltRight", 230); ("MetaRight", 231) ].

(** The cases of the [switch] on the rest of a [Numpad] code. *)
Definition numpadKeyIds : list (string * Z) :=
  [ ("Enter", 88); ("Add", 87); ("Subtract", 86); ("Multiply", 85); ("Divide", 84);
    ("Decimal", 99) ].

Definition switchOn (code : string) (cases : list (string * Z)) : option Z :=
  match List.find (fun c => String.eqb (fst c) code) cases with
  | Some c => Some (snd c)
  | None => None
  end.

Section KeyCodes.
Variable JsNumber : Type.
Variable ofZ : Z -> JsNumber.
Variable Number : string -> JsNumber.
Variable isFinite : JsNumber -> bool.
Variable strictEq : JsNumber -> JsNumber -> bool.
Variable lessEq : JsNumber -> JsNumber -> bool.
Variable plus : JsNumber -> JsNumber -> JsNumber.
Variable minus : JsNumber -> JsNumber -> JsNumber.
Variable hid_usage_from_page_and_id : JsNumber -> JsNumber -> JsNumber.

Definition keyUsage (id : JsNumber) : option JsNumber :=
  Some (hid_usage_from_page_and_id (ofZ 7) id).

(** The [Key] branch; [None] when it falls through. *)
Definition letterBranch (code : string) : option JsNumber :=
  if String.prefix "Key" code && (String.length code =? 4)%nat then
    match String.get 3 code with
    | Some c =>
        let letter := Z.of_nat (nat_of_ascii c) in
        if (65 <=? letter) && (letter <=? 90)
        then keyUsage (ofZ (4 + (letter - 65)))
        else None
    | None => None
    end
  else None.

Definition digitBranch (code : string) : option JsNumber :=
  if String.prefix "Digit" code && (String.length code =? 6)%nat then
    let n := Number (sliceFrom 5 code) in
    if isFinite n then
      let id := if strictEq n (ofZ 0) then ofZ 39 else plus (ofZ 29) n in
      keyUsage id
    else None
  else None.

Definition functionBranch (code : string) : option JsNumber :=
  if String.prefix "F" code then
    let n := Number (sliceFrom 1 code) in
    if lessEq (ofZ 1) n && lessEq n (ofZ 12)
    then keyUsage (plus (ofZ 57) (minus n (ofZ 1)))
    else None
  else None.

Definition numpadBranch (code : string) : option JsNumber :=
  if String.prefix "Numpad" code then
    let rest := sliceFrom 6 code in
    if isSingleDigit rest then keyUsage (plus (ofZ 89) (Number rest))
    else
      match switchOn rest numpadKeyIds with
      | Some id => keyUsage (ofZ id)
      | None => None
      end
  else None.

Definition keyboardCodeToHidUsage (code : string) : option JsNumber :=
  match letterBranch code with
  | Some usage => Some usage
  | None =>
      match digitBranch code with
      | Some usage => Some usage
      | None =>
          match functionBranch code with
          | Some usage => Some usage
          | None =>
              match switchOn code namedKeyIds with
              | Some id => keyUsage (ofZ id)
              | None => numpadBranch code
              end
          end
      end
  end.

(** The decimal numerals of 0 to 12, and what the key tester needs of
    numbers: [Number] reads these numerals, and comparison and arithmetic
    are exact on integers of at most three digits. *)
Definition numerals : list (Z * string) :=
  [ (0, "0"); (1, "1"); (2, "2"); (3, "3"); (4, "4"); (5, "5"); (6, "6");
    (7, "7"); (8, "8"); (9, "9"); (10, "10"); (11, "11"); (12, "12") ].

Definition smallIntegersExact : Prop :=
  (forall k s, In (k, s) numerals -> Number s = ofZ k)
  /\ (forall a, -1000 <= a <= 1000 -> isFinite (ofZ a) = true)
  /\ (forall a b, -1000 <= a <= 1000 -> -1000 <= b <= 1000 ->
                  strictEq (ofZ a) (ofZ b) = (a =? b))
  /\ (forall a b, -1000 <= a <= 1000 -> -1000 <= b <= 1000 ->
                  lessEq (ofZ a) (ofZ b) = (a <=? b))
  /\ (forall a b, -1000 <= a <= 1000 -> -1000 <= b <= 1000 ->
                  plus (ofZ a) (ofZ b) = ofZ (a + b))
  /\ (forall a b, -1000 <= a <= 1000 -> -1000 <= b <= 1000 ->
                  minus (ofZ a) (ofZ b) = ofZ (a - b)).
End KeyCodes.

(** Numbers for the examples: the integers and [NaN]. *)
Definition exampleNumberOf (s : string) : Num :=
  match List.find (fun p => String.eqb (snd p) s) numerals with
  | Some p => Int (fst p)
  | None => NaN
  end.

Definition exampleIsFinite (n : Num) : bool :=
  match n with Int _ => true | NaN => false end.

Definition exampleStrictEq (a b : Num) : bool :=
  match a, b with Int x, Int y => x =? y | _, _ => false end.

Definition exampleLessEq (a b : Num) : bool :=
  match a, b with Int x, Int y => x <=? y | _, _ => false end.

Definition examplePlus (a b : Num) : Num :=
  match a, b with Int x, Int y => Int (x + y) | _, _ => NaN end.

Definition exampleMinus (a b : Num) : Num :=
  match a, b with Int x, Int y => Int (x - y) | _, _ => NaN end.

Definition exampleHidUsage (page id : Num) : Num :=
  match page, id with Int p, Int i => Int (p * 65536 + i) | _, _ => NaN end.

(** * Properties *)

(** ** Metadata inspector *)

Lemma isSome_true {A} (o : option A) : isSome o = true <-> o <> None.
Proof. destruct o; simpl; split; intros; congruence. Qed.

Lemma isSome_false {A} (o : option A) : isSome o = false <-> o = None.
Proof. destruct o; simpl; split; intros; congruence. Qed.

Lemma existsb_layerId descs :
  existsb (fun p => isSome (Desc.layerId p)) descs = true <-> declaresLayerId descs.
Proof.
  rewrite existsb_exists. unfold declaresLayerId.
  split; intros [d [Hin Hd]]; exists d; split; auto; now apply isSome_true.
Qed.

Lemma existsb_hidUsage descs :
  existsb (fun p => isSome (Desc.hidUsage p)) descs = true <-> declaresHidUsage descs.
Proof.
  rewrite existsb_exists. unfold declaresHidUsage.
  split; intros [d [Hin Hd]]; exists d; split; auto; now apply isSome_true.
Qed.

Lemma existsb_constant descs :
  existsb (fun p => isSome (Desc.constant p)) descs = true <-> declaresConstant descs.
Proof.
  rewrite existsb_exists. unfold declaresConstant.
  split; intros [d [Hin Hd]]; exists d; split; auto; now apply isSome_true.
Qed.

Lemma existsb_flat_map {A B} (f : A -> list B) (p : B -> bool) (l : list A) :
  existsb p (flat_map f l) = existsb (fun x => existsb p (f x)) l.
Proof.
  induction l as [|x l IH]; simpl; [reflexivity|].
  now rewrite existsb_app, IH.
Qed.

Lemma find_none_existsb {A} (p : A -> bool) (l : list A) :
  List.find p l = None <-> existsb p l = false.
Proof.
  induction l as [|x l IH]; simpl; [tauto|].
  destruct (p x); simpl; [split; discriminate | exact IH].
Qed.

(** [find] returns the first element that satisfies the test. *)
Lemma find_first {A} (p : A -> bool) (l : list A) (x : A) :
  List.find p l = Some x <->
  exists pre post, l = (pre ++ x :: post)%list /\ p x = true /\
                   (forall y, In y pre -> p y = false).
Proof.
  split.
  - induction l as [|y l IH]; simpl; [discriminate|].
    destruct (p y) eqn:Hy.
    + intros [= ->]. exists [], l. simpl. tauto.
    + intros H. destruct (IH H) as (pre & post & -> & Hx & Hpre).
      exists (y :: pre), post. simpl. repeat split; auto.
      intros z [<-|Hz]; auto.
  - intros (pre & post & -> & Hx & Hpre).
    induction pre as [|y pre IH]; simpl.
    + now rewrite Hx.
    + rewrite (Hpre y) by now left. apply IH. intros z Hz. apply Hpre. now right.
Qed.

(** The current revision: [null] exactly when no set declares a HID usage
    on either parameter. *)
Lemma getHidUsageCaps_None behavior :
  getHidUsageCaps behavior = None <-> hasHidUsageParam behavior = false.
Proof.
  unfold getHidUsageCaps, hasHidUsageParam.
  rewrite <- (existsb_flat_map bothParams (fun p => isSome (Desc.hidUsage p))).
  rewrite <- find_none_existsb.
  destruct (List.find _ _) as [d|] eqn:Hf; [|tauto].
  apply find_some in Hf as [_ Hd].
  destruct (Desc.hidUsage d); simpl in *; [split; discriminate | discriminate].
Qed.

(** The current revision: the maxima of the first HID-usage descriptor in
    scan order (set by set, [param1] before [param2]), 0 for an omitted one. *)
Lemma getHidUsageCaps_Some behavior caps :
  getHidUsageCaps behavior = Some caps <->
  exists pre d post h,
    flat_map bothParams (Behavior.metadata behavior) = (pre ++ d :: post)%list /\
    (forall x, In x pre -> Desc.hidUsage x = None) /\
    Desc.hidUsage d = Some h /\
    caps = Caps.mk (orZero (HidUsage.keyboardMax h)) (orZero (HidUsage.consumerMax h)).
Proof.
  unfold getHidUsageCaps. split.
  - destruct (List.find _ _) as [d|] eqn:Hf; [|discriminate].
    apply find_first in Hf as (pre & post & Heq & Hd & Hpre).
    destruct (Desc.hidUsage d) as [h|] eqn:Hh; [|discriminate].
    simpl. intros [= <-]. exists pre, d, post, h. repeat split; auto.
    intros x Hx. now apply isSome_false, Hpre.
  - intros (pre & d & post & h & Heq & Hpre & Hh & ->).
    assert (Hf : List.find (fun param => isSome (Desc.hidUsage param))
                   (flat_map bothParams (Behavior.metadata behavior)) = Some d).
    { apply find_first. exists pre, post. repeat split; auto.
      - now rewrite Hh.
      - intros y Hy. now apply isSome_false, Hpre. }
    now rewrite Hf, Hh.
Qed.

(** C6 (defect of the older revision). The older [getHidUsageCaps] looks at
    [param1] only: for the stock layer-tap behaviour, whose HID usage sits on
    [param2], it answers [null] although the behaviour has a HID-usage
    parameter; the current revision reports the maxima 231 and 4095. *)
Theorem legacy_getHidUsageCaps_misses_param2 :
  hasHidUsageParam layerTapExample = true /\
  Legacy.getHidUsageCaps layerTapExample = None /\
  getHidUsageCaps layerTapExample = Some (Caps.mk 231 4095).
Proof. repeat split. Qed.

(** ** Layer-tap classification *)

Lemma firstSet_Some {A} (body : PSet.t -> option A) sets r :
  firstSet body sets = Some r <->
  exists pre set post,
    sets = (pre ++ set :: post)%list /\
    (forall s, In s pre -> body s = None) /\ body set = Some r.
Proof.
  split.
  - induction sets as [|s sets IH]; simpl; [discriminate|].
    destruct (body s) as [r'|] eqn:Hs.
    + intros [= ->]. exists [], s, sets. simpl. tauto.
    + intros H. destruct (IH H) as (pre & set & post & -> & Hpre & Hset).
      exists (s :: pre), set, post. simpl. repeat split; auto.
      intros z [<-|Hz]; auto.
  - intros (pre & set & post & -> & Hpre & Hset).
    induction pre as [|s pre IH]; simpl.
    + now rewrite Hset.
    + rewrite (Hpre s) by now left. apply IH. intros z Hz. apply Hpre. now right.
Qed.

Lemma firstSet_None {A} (body : PSet.t -> option A) sets :
  firstSet body sets = None <-> forall s, In s sets -> body s = None.
Proof.
  induction sets as [|s sets IH]; simpl.
  - split; [intros _ ? [] | reflexivity].
  - destruct (body s) eqn:Hs.
    + split; [discriminate|]. intros H. specialize (H s (or_introl eq_refl)). congruence.
    + rewrite IH. split.
      * intros H z [<-|Hz]; auto.
      * intros H z Hz. apply H. now right.
Qed.

Lemma andb_reflect_iff (a b : bool) (P Q : Prop) :
  (a = true <-> P) -> (b = true <-> Q) -> (a && b = true <-> P /\ Q).
Proof. rewrite andb_true_iff. tauto. Qed.

Lemma layerOnFirst_test set :
  existsb (fun p => isSome (Desc.layerId p)) (PSet.param1 set)
  && existsb (fun p => isSome (Desc.hidUsage p)) (PSet.param2 set) = true
  <-> layerOnFirst set.
Proof. apply andb_reflect_iff; [apply existsb_layerId | apply existsb_hidUsage]. Qed.

Lemma layerOnSecond_test set :
  existsb (fun p => isSome (Desc.layerId p)) (PSet.param2 set)
  && existsb (fun p => isSome (Desc.hidUsage p)) (PSet.param1 set) = true
  <-> layerOnSecond set.
Proof. apply andb_reflect_iff; [apply existsb_layerId | apply existsb_hidUsage]. Qed.

Lemma layerTapOrderOfSet_Some set o :
  layerTapOrderOfSet set = Some o <->
  (layerOnFirst set /\ o = LayerTapOrder.mk Param1 Param2) \/
  (~ layerOnFirst set /\ layerOnSecond set /\ o = LayerTapOrder.mk Param2 Param1).
Proof.
  unfold layerTapOrderOfSet.
  pose proof (layerOnFirst_test set) as H1.
  pose proof (layerOnSecond_test set) as H2.
  destruct (existsb _ (PSet.param1 set) && existsb _ (PSet.param2 set)) eqn:E1.
  - split.
    + intros [= <-]. left. tauto.
    + intros [[_ ->]|[Hn _]]; [reflexivity|]. exfalso. tauto.
  - destruct (existsb _ (PSet.param2 set) && existsb _ (PSet.param1 set)) eqn:E2.
    + split.
      * intros [= <-]. right.
        split; [intros H; apply H1 in H; discriminate|].
        split; [now apply H2 | reflexivity].
      * intros [[H _]|(_ & _ & ->)]; [|reflexivity].
        apply H1 in H. discriminate.
    + split; [discriminate|].
      intros [[H _]|(_ & H & _)]; [apply H1 in H | apply H2 in H]; discriminate.
Qed.

Lemma layerTapOrderOfSet_None set :
  layerTapOrderOfSet set = None <-> ~ layerOnFirst set /\ ~ layerOnSecond set.
Proof.
  destruct (layerTapOrderOfSet set) as [o|] eqn:E.
  - apply layerTapOrderOfSet_Some in E.
    split; [discriminate|]. intros [Hn1 Hn2].
    destruct E as [[H _]|(_ & H & _)]; contradiction.
  - split; [intros _ | reflexivity].
    split; intros H.
    + assert (layerTapOrderOfSet set = Some (LayerTapOrder.mk Param1 Param2)) as E'
        by (apply layerTapOrderOfSet_Some; left; tauto).
      congruence.
    + destruct (layerTapOrderOfSet set) as [o|] eqn:E'; [discriminate|].
      unfold layerTapOrderOfSet in E'.
      pose proof (proj2 (layerOnSecond_test set) H) as H2.
      rewrite H2 in E'.
      destruct (existsb _ (PSet.param1 set) && existsb _ (PSet.param2 set));
        discriminate.
Qed.

(** A role mapping always assigns the two roles to different parameters. *)
Lemma inferLayerTapParamOrder_shape behavior o :
  inferLayerTapParamOrder behavior = Some o ->
  o = LayerTapOrder.mk Param1 Param2 \/ o = LayerTapOrder.mk Param2 Param1.
Proof.
  unfold inferLayerTapParamOrder. intros H.
  apply firstSet_Some in H as (pre & set & post & _ & _ & H).
  apply layerTapOrderOfSet_Some in H. tauto.
Qed.

Lemma hasLayerIdParam_iff behavior :
  hasLayerIdParam behavior = true <->
  exists set, In set (Behavior.metadata behavior) /\ declaresLayerId (bothParams set).
Proof.
  unfold hasLayerIdParam. rewrite existsb_exists.
  split; intros [set [Hin H]]; exists set; split; auto; now apply existsb_layerId.
Qed.

Lemma hasHidUsageParam_iff behavior :
  hasHidUsageParam behavior = true <->
  exists set, In set (Behavior.metadata behavior) /\ declaresHidUsage (bothParams set).
Proof.
  unfold hasHidUsageParam. rewrite existsb_exists.
  split; intros [set [Hin H]]; exists set; split; auto; now apply existsb_hidUsage.
Qed.

(** C3 (amended). A behaviour is in the layer-tap group exactly when some
    metadata set declares a layer id and some set declares a HID usage, on
    either parameter. Its role mapping comes from the first metadata set in
    which [param1] declares a layer id and [param2] a HID usage (layer on
    [param1]) or else [param2] declares a layer id and [param1] a HID usage
    (layer on [param2]); what else the two parameters declare is not looked
    at. When no set has such a pair, [inferLayerTapParamOrder] is [null]; the
    behaviour stays in the group and its palette clicks emit no binding. *)
Theorem layerTap_group_and_role_mapping :
  (forall behaviors b,
     In b (getQuickLayerTapBehaviors behaviors) <->
     In b behaviors /\
     (exists set, In set (Behavior.metadata b) /\ declaresLayerId (bothParams set)) /\
     (exists set, In set (Behavior.metadata b) /\ declaresHidUsage (bothParams set)))
  /\
  (forall b o,
     inferLayerTapParamOrder b = Some o <->
     exists pre set post,
       Behavior.metadata b = (pre ++ set :: post)%list /\
       (forall s, In s pre -> ~ layerOnFirst s /\ ~ layerOnSecond s) /\
       ((layerOnFirst set /\ o = LayerTapOrder.mk Param1 Param2) \/
        (~ layerOnFirst set /\ layerOnSecond set /\
         o = LayerTapOrder.mk Param2 Param1)))
  /\
  (forall b,
     inferLayerTapParamOrder b = None <->
     forall s, In s (Behavior.metadata b) -> ~ layerOnFirst s /\ ~ layerOnSecond s)
  /\
  (forall localeCompare st b usage,
     layerTapBehavior localeCompare st = Some b ->
     Panel.behaviorGroup st = layerTap ->
     inferLayerTapParamOrder b = None ->
     onUsageClicked localeCompare st usage = None).
Proof.
  repeat apply conj.
  - intros behaviors b. unfold getQuickLayerTapBehaviors.
    rewrite filter_In, andb_true_iff, hasLayerIdParam_iff, hasHidUsageParam_iff.
    tauto.
  - intros b o. unfold inferLayerTapParamOrder. rewrite firstSet_Some.
    split; intros (pre & set & post & Heq & Hpre & Hset);
      exists pre, set, post; (split; [exact Heq|]); split.
    + intros s Hs. now apply layerTapOrderOfSet_None, Hpre.
    + now apply layerTapOrderOfSet_Some.
    + intros s Hs. now apply layerTapOrderOfSet_None, Hpre.
    + now apply layerTapOrderOfSet_Some.
  - intros b. unfold inferLayerTapParamOrder. rewrite firstSet_None.
    split; intros H s Hs; apply layerTapOrderOfSet_None; auto.
  - intros localeCompare st b usage Hb Hg Hnone.
    unfold onUsageClicked, paletteRendered. rewrite Hg, Hb, Hnone.
    destruct (canEdit st); simpl; [|reflexivity].
    now destruct (Panel.layerTapTargetLayerId st).
Qed.

Lemma layerTap_group_and_role_mapping_witness :
  onUsageClicked codeUnitCompare
    (examplePanel layerTap [keyPressExample; layerTapSplit] 7) 4 = None.
Proof.
  apply (proj2 (proj2 (proj2 layerTap_group_and_role_mapping))
           codeUnitCompare _ layerTapSplit 4); reflexivity.
Defined.

(** C3 as stated fails twice. [layerTapMixed] has no set in which one
    parameter is layer-id-only and the other usage-only, yet it gets a role
    mapping; [layerTapSplit] gets no role mapping, yet it is a member of the
    layer-tap group and is the behaviour the panel selects. *)
Lemma layerTap_role_mapping_counterexample :
  (forallb (fun set => negb (cleanlySeparates set))
           (Behavior.metadata layerTapMixed) = true /\
   inferLayerTapParamOrder layerTapMixed = Some (LayerTapOrder.mk Param1 Param2))
  /\
  (forallb (fun set => negb (cleanlySeparates set))
           (Behavior.metadata layerTapSplit) = true /\
   inferLayerTapParamOrder layerTapSplit = None /\
   In layerTapSplit (getQuickLayerTapBehaviors [keyPressExample; layerTapSplit]) /\
   layerTapBehavior codeUnitCompare
     (examplePanel layerTap [keyPressExample; layerTapSplit] 7) = Some layerTapSplit).
Proof.
  repeat split. simpl. auto.
Qed.

(** ** Plain-key and layer-tap codec *)

Lemma findById_Some id l b :
  findById id l = Some b ->
  id = Some (Behavior.id b) /\
  List.find (fun b' => Behavior.id b' =? Behavior.id b) l = Some b.
Proof.
  destruct id as [i|]; simpl; [|discriminate].
  intros H. pose proof (find_some _ _ H) as [_ Hid].
  apply Z.eqb_eq in Hid. subst i. auto.
Qed.


(** What the palette emits for a layer-tap behaviour with a role mapping. *)
Lemma onUsageClicked_layerTap localeCompare st b order L usage :
  canEdit st = true ->
  Panel.behaviorGroup st = layerTap ->
  layerTapBehavior localeCompare st = Some b ->
  Panel.layerTapTargetLayerId st = Some L ->
  inferLayerTapParamOrder b = Some order ->
  onUsageClicked localeCompare st usage =
    Some (match LayerTapOrder.layerParam order with
          | Param1 => Binding.mk (Behavior.id b) L usage
          | Param2 => Binding.mk (Behavior.id b) usage L
          end).
Proof.
  intros Hedit Hg Hb HL Ho. unfold onUsageClicked, paletteRendered.
  now rewrite Hedit, Hg, Hb, HL, Ho.
Qed.



(** C7. Plain-key encoding is [{behaviorId, param1: usage, param2: 0}];
    layer-tap encoding puts the target layer into the layer parameter of the
    role mapping and the usage into its usage parameter, whichever way round
    the mapping is. *)
Theorem key_and_layerTap_encoding localeCompare st usage :
  canEdit st = true ->
  (forall q,
     Panel.behaviorGroup st = key ->
     quickBehavior localeCompare st = Some q ->
     onUsageClicked localeCompare st usage = Some (Binding.mk (Behavior.id q) usage 0))
  /\
  (forall b order L,
     Panel.behaviorGroup st = layerTap ->
     layerTapBehavior localeCompare st = Some b ->
     Panel.layerTapTargetLayerId st = Some L ->
     inferLayerTapParamOrder b = Some order ->
     exists binding,
       onUsageClicked localeCompare st usage = Some binding /\
       Binding.behaviorId binding = Behavior.id b /\
       bindingParam (LayerTapOrder.layerParam order) binding = L /\
       bindingParam (LayerTapOrder.usageParam order) binding = usage /\
       (order = LayerTapOrder.mk Param1 Param2 ->
        binding = Binding.mk (Behavior.id b) L usage) /\
       (order = LayerTapOrder.mk Param2 Param1 ->
        binding = Binding.mk (Behavior.id b) usage L)).
Proof.
  intros Hedit. split.
  - intros q Hg Hq. unfold onUsageClicked, paletteRendered.
    now rewrite Hedit, Hg, Hq.
  - intros b order L Hg Hb HL Ho.
    eexists. split; [apply (onUsageClicked_layerTap localeCompare st b order L usage); assumption|].
    destruct (inferLayerTapParamOrder_shape _ _ Ho) as [-> | ->]; simpl;
      repeat split; congruence.
Qed.

Lemma key_and_layerTap_encoding_witness :
  onUsageClicked codeUnitCompare
    (examplePanel key [keyPressExample; layerTapExample] 1) 4
    = Some (Binding.mk 1 4 0)
  /\
  (exists binding,
     onUsageClicked codeUnitCompare
       (examplePanel layerTap [keyPressExample; layerTapMirrored] 6) 4
       = Some binding /\
     binding = Binding.mk 6 4 2).
Proof.
  split.
  - apply (proj1 (key_and_layerTap_encoding codeUnitCompare
                    (examplePanel key [keyPressExample; layerTapExample] 1) 4
                    eq_refl) keyPressExample); reflexivity.
  - destruct (proj2 (key_and_layerTap_encoding codeUnitCompare
                       (examplePanel layerTap [keyPressExample; layerTapMirrored] 6) 4
                       eq_refl)
                    layerTapMirrored (LayerTapOrder.mk Param2 Param1) 2
                    eq_refl eq_refl eq_refl eq_refl)
      as (binding & Hclick & _ & _ & _ & _ & Hmirror).
    exists binding. split; [exact Hclick | now apply Hmirror].
Defined.

(** ** Palette letters *)

Lemma letterUsageId_cases c rest :
  letterUsageId (String c rest) =
    let code := charCodeAt0 (toUpperChar c) in
    if num_ltb code 65 || num_gtb code 90
    then Throw ("Invalid letter: " ++ String c rest)
    else Ret (num_lift (fun c => 4 + (c - 65)) code).
Proof.
  unfold letterUsageId. cbn [toUpperCase].
  destruct c as [[] [] [] [] [] [] [] []]; reflexivity.
Qed.

Lemma toUpperChar_upper c :
  65 <= charCode c <= 90 -> toUpperChar c = [charCode c].
Proof.
  unfold charCode, toUpperChar. intros H. cbv zeta.
  destruct (Z.leb_spec 97 (Z.of_nat (nat_of_ascii c))); [lia|]. cbn [andb].
  destruct (Z.eqb_spec (Z.of_nat (nat_of_ascii c)) 181); [lia|].
  destruct (Z.eqb_spec (Z.of_nat (nat_of_ascii c)) 223); [lia|].
  destruct (Z.leb_spec 224 (Z.of_nat (nat_of_ascii c))); [lia|]. cbn [andb].
  destruct (Z.eqb_spec (Z.of_nat (nat_of_ascii c)) 255); [lia|]. reflexivity.
Qed.

Lemma toUpperChar_lower c :
  97 <= charCode c <= 122 -> toUpperChar c = [charCode c - 32].
Proof.
  unfold charCode, toUpperChar. intros H. cbv zeta.
  destruct (Z.leb_spec 97 (Z.of_nat (nat_of_ascii c))); [|lia].
  destruct (Z.leb_spec (Z.of_nat (nat_of_ascii c)) 122); [|lia]. reflexivity.
Qed.

Lemma letterUsageId_upper c rest :
  65 <= charCode c <= 90 ->
  letterUsageId (String c rest) = Ret (Int (4 + (charCode c - 65))).
Proof.
  intros H. rewrite letterUsageId_cases, (toUpperChar_upper c H).
  cbv zeta. cbn [charCodeAt0 num_ltb num_gtb num_lift].
  destruct (Z.ltb_spec (charCode c) 65); [lia|].
  destruct (Z.ltb_spec 90 (charCode c)); [lia|]. reflexivity.
Qed.

(** The first code unit of the upper-cased character is a letter [A]-[Z]
    for the letters of either case and for the sharp s, and for no other
    character. *)
Lemma charCodeAt0_toUpperChar c :
  exists u, charCodeAt0 (toUpperChar c) = Int u /\
            (65 <= u <= 90 <->
             65 <= charCode c <= 90 \/ 97 <= charCode c <= 122 \/ charCode c = 223).
Proof.
  assert (H : exists u,
             charCodeAt0 (toUpperChar c) = Int u /\
             (65 <=? u) && (u <=? 90) =
             ((65 <=? charCode c) && (charCode c <=? 90))
             || ((97 <=? charCode c) && (charCode c <=? 122))
             || (charCode c =? 223)).
  { destruct c as [[] [] [] [] [] [] [] []]; eexists; split; reflexivity. }
  destruct H as (u & Hu & Hb). exists u. split; [exact Hu|].
  destruct (Z.leb_spec 65 u), (Z.leb_spec u 90),
    (Z.leb_spec 65 (charCode c)), (Z.leb_spec (charCode c) 90),
    (Z.leb_spec 97 (charCode c)), (Z.leb_spec (charCode c) 122),
    (Z.eqb_spec (charCode c) 223); cbn in Hb; try discriminate Hb; lia.
Qed.

(** C10 (amended). [letterUsageId] upper-cases its argument and looks at
    the first code unit [u] of the result only. An upper-case letter [L]
    is mapped to [4 + (L - 'A')]; an argument whose [u] lies in [A]-[Z] is
    mapped to [4 + (u - 'A')], so a lower-case letter is mapped like its
    upper-case form and the sharp s like [S]; an argument that is not
    empty and whose [u] lies outside [A]-[Z] throws. The letters the
    palette passes are single characters of "QWERTYUIOP", "ASDFGHJKL" and
    "ZXCVBNM", all upper-case letters, so building the palette rows never
    throws, whatever the usage tables are. *)
Theorem letterUsageId_and_palette_total :
  (forall c, 65 <= charCode c <= 90 ->
             letterUsageId (String c "") = Ret (Int (4 + (charCode c - 65))))
  /\
  (forall c rest u,
     charCodeAt0 (toUpperCase (String c rest)) = Int u ->
     (65 <= u <= 90 ->
      letterUsageId (String c rest) = Ret (Int (4 + (u - 65)))) /\
     (u < 65 \/ 90 < u ->
      letterUsageId (String c rest) = Throw ("Invalid letter: " ++ String c rest)))
  /\
  (forall c rest,
     97 <= charCode c <= 122 ->
     letterUsageId (String c rest) = Ret (Int (4 + (charCode c - 97))))
  /\
  (forall rest, letterUsageId (String (ascii_of_nat 223) rest) = Ret (Int 22))
  /\
  (forall c rest,
     (exists msg, letterUsageId (String c rest) = Throw msg) <->
     ~ (65 <= charCode c <= 90 \/ 97 <= charCode c <= 122 \/ charCode c = 223))
  /\
  (forall l,
     In l (splitChars "QWERTYUIOP" ++ splitChars "ASDFGHJKL" ++ splitChars "ZXCVBNM")%list ->
     exists c, l = String c "" /\ 65 <= charCode c <= 90)
  /\
  (forall hid_usage_from_page_and_id hid_usage_get_labels_short category,
     exists rows,
       paletteRows hid_usage_from_page_and_id hid_usage_get_labels_short category
       = Ret rows).
Proof.
  assert (Hfirst : forall c rest,
             charCodeAt0 (toUpperCase (String c rest)) = charCodeAt0 (toUpperChar c)).
  { intros c rest. cbn [toUpperCase].
    destruct c as [[] [] [] [] [] [] [] []]; reflexivity. }
  split; [|split; [|split; [|split; [|split; [|split]]]]].
  - intros c H. now apply letterUsageId_upper.
  - intros c rest u Hu. rewrite Hfirst in Hu.
    rewrite letterUsageId_cases, Hu. cbv zeta. cbn [num_ltb num_gtb num_lift].
    split; intros H.
    + destruct (Z.ltb_spec u 65); [lia|]. destruct (Z.ltb_spec 90 u); [lia|].
      reflexivity.
    + destruct (Z.ltb_spec u 65); [reflexivity|].
      destruct (Z.ltb_spec 90 u); [reflexivity | lia].
  - intros c rest H. rewrite letterUsageId_cases, (toUpperChar_lower c H).
    cbv zeta. cbn [charCodeAt0 num_ltb num_gtb num_lift].
    destruct (Z.ltb_spec (charCode c - 32) 65); [lia|].
    destruct (Z.ltb_spec 90 (charCode c - 32)); [lia|]. cbn [orb].
    do 2 f_equal. lia.
  - intros rest. rewrite letterUsageId_cases. reflexivity.
  - intros c rest. rewrite letterUsageId_cases.
    destruct (charCodeAt0_toUpperChar c) as (u & -> & Hu).
    cbv zeta. cbn [num_ltb num_gtb num_lift]. rewrite <- Hu. split.
    + intros [msg H].
      destruct (Z.ltb_spec u 65); [lia|]. destruct (Z.ltb_spec 90 u); [lia|].
      discriminate.
    + intros H.
      destruct (Z.ltb_spec u 65); [cbn [orb]; eauto|].
      destruct (Z.ltb_spec 90 u); [cbn [orb]; eauto | lia].
  - intros l H. simpl in H.
    repeat (destruct H as [<- | H];
            [eexists; split; [reflexivity | vm_compute; split; discriminate]|]).
    destruct H.
  - intros f g category. destruct category; eexists; reflexivity.
Qed.

Lemma letterUsageId_and_palette_total_witness :
  letterUsageId "Q" = Ret (Int 20) /\
  letterUsageId "q" = Ret (Int 20) /\
  letterUsageId "qq" = Ret (Int 20) /\
  (exists msg, letterUsageId "1" = Throw msg).
Proof.
  destruct letterUsageId_and_palette_total as (Hup & Hgen & Hlow & _ & Hthrow & _ & _).
  split; [|split; [|split]].
  - apply (Hup "Q"%char). vm_compute. split; discriminate.
  - apply (Hlow "q"%char ""). vm_compute. split; discriminate.
  - apply (proj1 (Hgen "q"%char "q" 81 eq_refl)). lia.
  - apply (proj2 (Hthrow "1"%char "")). vm_compute.
    intros [[H _]|[[H _]|H]]; first [now apply H | discriminate H].
Defined.

(** C10 as stated fails: an input other than an upper-case letter need not
    throw. A lower-case letter is mapped like its upper-case form. *)
Lemma letterUsageId_counterexample :
  letterUsageId "a" = Ret (Int 4).
Proof. reflexivity. Qed.

(** ** Bluetooth role mapping *)

Lemma isExpectedAction_iff c :
  isExpectedAction c = true <->
  exists label, In label BT_ACTION_LABELS /\
                normalizeName (Desc.name c) = normalizeName label.
Proof.
  unfold isExpectedAction. rewrite existsb_exists. split.
  - intros (n & Hin & Heq). apply in_map_iff in Hin as (label & <- & Hl).
    apply String.eqb_eq in Heq. eauto.
  - intros (label & Hl & Heq). exists (normalizeName label). split.
    + now apply in_map.
    + now apply String.eqb_eq.
Qed.

Lemma existsb_false_forall {A} (p : A -> bool) l :
  existsb p l = false <-> forall x, In x l -> p x = false.
Proof.
  induction l as [|y l IH]; simpl.
  - split; [intros _ ? [] | reflexivity].
  - rewrite orb_false_iff, IH. split.
    + intros [Hy Hl] x [<-|Hx]; auto.
    + intros H. split; [apply H; now left | intros x Hx; apply H; now right].
Qed.

Lemma soleConstantParamb_iff p behavior :
  soleConstantParamb p behavior = true <-> soleConstantParam p behavior.
Proof.
  unfold soleConstantParamb, soleConstantParam.
  rewrite !andb_true_iff, negb_true_iff, existsb_constant, existsb_false_forall,
    Nat.eqb_eq, length_zero_iff_nil.
  assert (Hd : forall d,
             isSome (Desc.hidUsage d) || isSome (Desc.layerId d)
             || isSome (Desc.range d) = false <->
             Desc.hidUsage d = None /\ Desc.layerId d = None /\ Desc.range d = None).
  { intros d. rewrite !orb_false_iff, !isSome_false. tauto. }
  split.
  - intros [[H1 H2] H3]. split; [exact H1|]. split; [|exact H3].
    intros d Hin. apply Hd. auto.
  - intros (H1 & H2 & H3). split; [split|]; auto.
    intros d Hin. apply Hd. auto.
Qed.

Lemma inferSingleConstantParam_eq behavior :
  inferSingleConstantParam behavior =
    if soleConstantParamb Param1 behavior then Some Param1
    else if soleConstantParamb Param2 behavior then Some Param2
    else None.
Proof.
  unfold inferSingleConstantParam, soleConstantParamb, allDescs, otherParamName.
  change (flat_map (paramOf Param1) ?m) with (flat_map PSet.param1 m).
  change (flat_map (paramOf Param2) ?m) with (flat_map PSet.param2 m).
  generalize (flat_map PSet.param1 (Behavior.metadata behavior)) as p1.
  generalize (flat_map PSet.param2 (Behavior.metadata behavior)) as p2.
  intros p2 p1.
  remember (existsb (fun p => isSome (Desc.constant p)) p1) as c1 eqn:E1.
  remember (existsb (fun p => isSome (Desc.constant p)) p2) as c2 eqn:E2.
  remember (existsb (fun p => isSome (Desc.hidUsage p) || isSome (Desc.layerId p)
                              || isSome (Desc.range p)) p1) as o1 eqn:F1.
  remember (existsb (fun p => isSome (Desc.hidUsage p) || isSome (Desc.layerId p)
                              || isSome (Desc.range p)) p2) as o2 eqn:F2.
  destruct p1 as [|a1 p1], p2 as [|a2 p2]; cbn [length Nat.eqb Nat.ltb Nat.leb];
    cbn [existsb] in E1, E2, F1, F2; subst;
    repeat match goal with
           | |- context [existsb ?f ?l] => destruct (existsb f l)
           | |- context [isSome ?o] => destruct (isSome o)
           end; reflexivity.
Qed.

Lemma inferSingleConstantParam_iff behavior p :
  inferSingleConstantParam behavior = Some p <-> soleConstantParam p behavior.
Proof.
  rewrite inferSingleConstantParam_eq.
  destruct (soleConstantParamb Param1 behavior) eqn:S1;
    [|destruct (soleConstantParamb Param2 behavior) eqn:S2].
  - apply soleConstantParamb_iff in S1. destruct p; [tauto|].
    split; [discriminate|]. intros (Hc & _ & _).
    destruct S1 as (_ & _ & Hnil). simpl in Hnil.
    destruct Hc as (d & Hd & _). rewrite Hnil in Hd. destruct Hd.
  - apply soleConstantParamb_iff in S2. destruct p; [|tauto].
    split; [discriminate|]. intros H. apply soleConstantParamb_iff in H. congruence.
  - split; [discriminate|]. intros H. apply soleConstantParamb_iff in H.
    destruct p; congruence.
Qed.

Lemma inferSingleConstantParam_None behavior :
  inferSingleConstantParam behavior = None <->
  ~ soleConstantParam Param1 behavior /\ ~ soleConstantParam Param2 behavior.
Proof.
  rewrite <- !inferSingleConstantParam_iff.
  destruct (inferSingleConstantParam behavior) as [[|]|]; split;
    try discriminate; try (intros [H1 H2]; congruence); try tauto.
  intros _. split; discriminate.
Qed.

Lemma bluetoothOrderOfSet_cases set :
  bluetoothOrderOfSet set =
    if ((actionScore (PSet.param1 set) =? 0) && (actionScore (PSet.param2 set) =? 0))%nat
    then None else Some (orderOfScores set).
Proof.
  unfold bluetoothOrderOfSet, orderOfScores.
  destruct (_ && _); [reflexivity|].
  destruct (_ <=? _)%nat; simpl;
    [destruct (PSet.param2 set) | destruct (PSet.param1 set)]; reflexivity.
Qed.

Lemma actionScore_filter descs :
  actionScore descs =
    length (List.filter (fun d => isSome (Desc.constant d) && isExpectedAction d) descs).
Proof.
  unfold actionScore. f_equal.
  induction descs as [|d descs IH]; simpl; [reflexivity|].
  destruct (isSome (Desc.constant d)); simpl; [|exact IH].
  destruct (isExpectedAction d); simpl; now rewrite IH.
Qed.

(** C4 (amended). Labels match when they are equal after lower-casing and
    deleting whitespace, underscores and hyphens; the score of a parameter
    in a metadata set is the number of its constants whose label matches
    one of the six canonical labels. The first metadata set with a non-zero
    score decides: the action parameter is the one with the higher score
    ([param1] on a tie), and the other parameter is the profile parameter
    exactly when it declares any descriptor in that set. When every set
    scores zero, a parameter becomes the sole action parameter exactly when
    it declares a constant, declares no HID-usage, layer-id or range
    descriptor, and the other parameter declares nothing; otherwise there is
    no role mapping. *)
Theorem bluetooth_role_mapping behavior :
  (forall d, isExpectedAction d = true <->
             exists label, In label BT_ACTION_LABELS /\
                           normalizeName (Desc.name d) = normalizeName label)
  /\
  (forall descs,
     actionScore descs =
       length (List.filter (fun d => isSome (Desc.constant d) && isExpectedAction d)
                           descs))
  /\
  (forall pre set post,
     Behavior.metadata behavior = (pre ++ set :: post)%list ->
     (forall s, In s pre ->
                actionScore (PSet.param1 s) = 0%nat /\ actionScore (PSet.param2 s) = 0%nat) ->
     (0 < actionScore (PSet.param1 set) \/ 0 < actionScore (PSet.param2 set))%nat ->
     exists o,
       inferBluetoothParamOrder behavior = Some o /\
       (actionScore (paramOf (otherParamName (BluetoothOrder.actionParam o)) set)
        <= actionScore (paramOf (BluetoothOrder.actionParam o) set))%nat /\
       (BluetoothOrder.actionParam o = Param2 ->
        (actionScore (PSet.param1 set) < actionScore (PSet.param2 set))%nat) /\
       (forall q, BluetoothOrder.profileParam o = Some q <->
                  q = otherParamName (BluetoothOrder.actionParam o) /\
                  paramOf q set <> []))
  /\
  ((forall s, In s (Behavior.metadata behavior) ->
              actionScore (PSet.param1 s) = 0%nat /\ actionScore (PSet.param2 s) = 0%nat) ->
   (forall o, inferBluetoothParamOrder behavior = Some o <->
              soleConstantParam (BluetoothOrder.actionParam o) behavior /\
              BluetoothOrder.profileParam o = None) /\
   (inferBluetoothParamOrder behavior = None <->
    ~ soleConstantParam Param1 behavior /\ ~ soleConstantParam Param2 behavior)).
Proof.
  split; [exact isExpectedAction_iff|].
  split; [exact actionScore_filter|].
  split.
  - intros pre set post Hmeta Hpre Hset.
    assert (Hfirst : firstSet bluetoothOrderOfSet (Behavior.metadata behavior)
                     = Some (orderOfScores set)).
    { apply firstSet_Some. exists pre, set, post. split; [exact Hmeta|]. split.
      - intros s Hs. rewrite bluetoothOrderOfSet_cases.
        destruct (Hpre s Hs) as [-> ->]. reflexivity.
      - rewrite bluetoothOrderOfSet_cases.
        destruct (actionScore (PSet.param1 set)), (actionScore (PSet.param2 set));
          simpl; try reflexivity. lia. }
    exists (orderOfScores set). unfold inferBluetoothParamOrder. rewrite Hfirst.
    split; [reflexivity|]. unfold orderOfScores.
    destruct (Nat.leb_spec (actionScore (PSet.param2 set))
                           (actionScore (PSet.param1 set))) as [Hle|Hlt]; simpl.
    + split; [exact Hle|]. split; [discriminate|].
      intros q. destruct (PSet.param2 set) eqn:E2; split.
      * discriminate.
      * intros [-> H]. simpl in H. congruence.
      * intros [= <-]. simpl. split; [reflexivity|]. rewrite E2. discriminate.
      * intros [-> _]. reflexivity.
    + split; [lia|]. split; [intros _; exact Hlt|].
      intros q. destruct (PSet.param1 set) eqn:E1; split.
      * discriminate.
      * intros [-> H]. simpl in H. congruence.
      * intros [= <-]. simpl. split; [reflexivity|]. rewrite E1. discriminate.
      * intros [-> _]. reflexivity.
  - intros Hzero.
    assert (Hnone : firstSet bluetoothOrderOfSet (Behavior.metadata behavior) = None).
    { apply firstSet_None. intros s Hs. rewrite bluetoothOrderOfSet_cases.
      destruct (Hzero s Hs) as [-> ->]. reflexivity. }
    unfold inferBluetoothParamOrder. rewrite Hnone. split.
    + intros [a pp]. simpl. rewrite <- inferSingleConstantParam_iff.
      destruct (inferSingleConstantParam behavior) as [c|]; split.
      * intros [= <- <-]. auto.
      * intros [[= ->] ->]. reflexivity.
      * discriminate.
      * intros [H _]. discriminate.
    + rewrite <- inferSingleConstantParam_None.
      destruct (inferSingleConstantParam behavior); split; congruence.
Qed.

Lemma bluetooth_role_mapping_witness :
  (exists o,
     inferBluetoothParamOrder canonicalBluetooth = Some o /\
     BluetoothOrder.actionParam o <> Param2)
  /\ inferBluetoothParamOrder constantOrRange = None.
Proof.
  split.
  - destruct (proj1 (proj2 (proj2 (bluetooth_role_mapping canonicalBluetooth)))
                [] canonicalActions [] eq_refl)
      as (o & Ho & _ & Hp2 & _).
    + intros s [].
    + left. vm_compute. lia.
    + exists o. split; [exact Ho|]. intros H. apply Hp2 in H. vm_compute in H. lia.
  - apply (proj2 (proj2 (proj2 (bluetooth_role_mapping constantOrRange)))).
    + intros s [<-|[]]. split; reflexivity.
    + split.
      * intros (_ & H & _).
        destruct (H (rangeDesc "Level" 1 10)) as (_ & _ & Hr);
          [simpl; auto | discriminate].
      * intros ((d & [] & _) & _).
Defined.

(** C4 as stated fails. [constantOrRange] is bluetooth-eligible, no set has a
    label overlap, [param1] is the only parameter with constants and
    [param2] declares nothing, yet no role mapping is produced (the
    parameter also declares a range). [underscoreActions] carries no label
    that equals a canonical one up to case and whitespace, and both its
    parameters declare constants, yet [param2] is made the action parameter
    (underscores and hyphens are ignored too). *)
Lemma bluetooth_role_mapping_counterexample :
  (In constantOrRange (getQuickBluetoothBehaviors [keyPressExample; constantOrRange]) /\
   forallb (fun set => (actionScore (PSet.param1 set) =? 0)%nat
                       && (actionScore (PSet.param2 set) =? 0)%nat)
           (Behavior.metadata constantOrRange) = true /\
   onlyParamWithConstants Param1 constantOrRange /\
   inferBluetoothParamOrder constantOrRange = None)
  /\
  (In underscoreActions (getQuickBluetoothBehaviors [keyPressExample; underscoreActions]) /\
   forallb (fun d => forallb (fun label =>
                        negb (sameLabelIgnoringCaseAndSpace (Desc.name d) label))
                      BT_ACTION_LABELS)
           (flat_map bothParams (Behavior.metadata underscoreActions)) = true /\
   declaresConstant (allDescs Param1 underscoreActions) /\
   declaresConstant (allDescs Param2 underscoreActions) /\
   inferBluetoothParamOrder underscoreActions
   = Some (BluetoothOrder.mk Param2 (Some Param1))).
Proof.
  split.
  - split; [simpl; auto|]. split; [reflexivity|]. split; [|reflexivity].
    split; [|reflexivity]. exists (constantDesc "Auto" 0). simpl. split; [auto | discriminate].
  - split; [simpl; auto|]. split; [reflexivity|].
    split; [exists (constantDesc "Slot" 7); simpl; split; [auto | discriminate]|].
    split; [exists (constantDesc "next_profile" 1); simpl; split; [auto | discriminate]|].
    reflexivity.
Qed.

(** ** Bluetooth encoding *)

Lemma inferBluetoothParamOrder_resolved behavior order :
  inferBluetoothParamOrder behavior = Some order ->
  resolvedProfileParam order = otherParamName (BluetoothOrder.actionParam order).
Proof.
  unfold inferBluetoothParamOrder, resolvedProfileParam.
  destruct (firstSet _ _) as [o|] eqn:Hf.
  - intros [= ->]. apply firstSet_Some in Hf as (pre & set & post & _ & _ & Hset).
    rewrite bluetoothOrderOfSet_cases in Hset.
    destruct (_ && _); [discriminate|]. injection Hset as <-.
    unfold orderOfScores. simpl.
    now destruct (paramOf _ set).
  - destruct (inferSingleConstantParam behavior); [|discriminate].
    now intros [= <-].
Qed.

Lemma ParamName_eqb_refl p : ParamName_eqb p p = true.
Proof. now destruct p. Qed.

Lemma ParamName_eqb_other p : ParamName_eqb (otherParamName p) p = false.
Proof. now destruct p. Qed.

(** What pressing an action button emits, in terms of the render state. *)
Lemma bluetoothActionClick_emitted localeCompare st behavior order a value :
  bluetoothBehavior localeCompare st = Some behavior ->
  bluetoothOrder localeCompare st = Some order ->
  actionsRendered localeCompare st = true ->
  canEdit st = true ->
  choiceConstant a = Some value ->
  exists click,
    bluetoothActionClick localeCompare st a = Some click /\
    Binding.behaviorId (BtClick.emitted click) = Behavior.id behavior /\
    bindingParam (BluetoothOrder.actionParam order) (BtClick.emitted click) = value /\
    bindingParam (otherParamName (BluetoothOrder.actionParam order))
                 (BtClick.emitted click)
    = (if wantsProfile localeCompare st
       then effectiveProfile localeCompare st behavior order
       else 0).
Proof.
  intros Hb Ho Hr He Hv.
  assert (Hres : resolvedProfileParam order
                 = otherParamName (BluetoothOrder.actionParam order)).
  { unfold bluetoothOrder in Ho. rewrite Hb in Ho.
    now apply inferBluetoothParamOrder_resolved in Ho. }
  unfold bluetoothActionClick. rewrite Hb, Ho, Hr, Hv, He, Hres. simpl negb. cbv iota.
  eexists. split; [reflexivity|].
  destruct (BluetoothOrder.actionParam order); simpl;
    destruct (wantsProfile localeCompare st); simpl; auto.
Qed.

(** *** The canonical behaviour under any locale *)

Lemma insertSorted_Permutation {A} (cmp : A -> A -> Z) x l :
  Permutation (insertSorted cmp x l) (x :: l).
Proof.
  induction l as [|y l IH]; simpl; [reflexivity|].
  destruct (cmp x y <=? 0); [reflexivity|].
  rewrite IH. apply perm_swap.
Qed.

Lemma sortWith_Permutation {A} (cmp : A -> A -> Z) l :
  Permutation (sortWith cmp l) l.
Proof.
  induction l as [|x l IH]; simpl; [reflexivity|].
  unfold sortWith in *. simpl. rewrite insertSorted_Permutation. now constructor.
Qed.

(** Filling a [Map] by successive [set] calls: with pairwise distinct keys
    every element is found under its key. *)
Lemma fold_insert_lookup {V} (key : V -> string) (l : list V) :
  forall (m : gmap string V) (k : string),
    List.NoDup (map key l) ->
    (forall v, In v l -> key v = k ->
               fold_left (fun m c => <[key c := c]> m) l m !! k = Some v) /\
    (~ In k (map key l) ->
     fold_left (fun m c => <[key c := c]> m) l m !! k = m !! k).
Proof.
  induction l as [|x l IH]; intros m k Hnd; simpl.
  - split; [intros v [] | reflexivity].
  - inversion Hnd as [|? ? Hx Hnd']; subst.
    destruct (IH (<[key x := x]> m) k Hnd') as [IH1 IH2]. split.
    + intros v [<-|Hv] Hk.
      * rewrite IH2 by (rewrite <- Hk; exact Hx). rewrite Hk.
        apply lookup_insert_eq.
      * now apply IH1.
    + intros Hk. rewrite IH2 by tauto.
      apply lookup_insert_ne. tauto.
Qed.

Lemma bluetoothActions_canonical localeCompare action profile :
  bluetoothActions localeCompare (bluetoothPanel canonicalBluetooth action profile)
  = canonicalEntries.
Proof.
  unfold bluetoothActions.
  assert (Hb : bluetoothBehavior localeCompare
                 (bluetoothPanel canonicalBluetooth action profile)
               = Some canonicalBluetooth) by reflexivity.
  assert (Ho : bluetoothOrder localeCompare
                 (bluetoothPanel canonicalBluetooth action profile)
               = Some (BluetoothOrder.mk Param1 None)) by reflexivity.
  rewrite Hb, Ho. cbn [BluetoothOrder.actionParam].
  unfold collectConstantChoices.
  set (cmp := fun a b : Desc.t => localeCompare (Desc.name a) (Desc.name b)).
  set (choices := fold_left _ (Behavior.metadata canonicalBluetooth) []).
  pose proof (sortWith_Permutation cmp choices) as Hperm.
  assert (Hnd : List.NoDup (map (fun c => normalizeName (Desc.name c))
                                (sortWith cmp choices))).
  { eapply Permutation_NoDup; [apply Permutation_map, Permutation_sym, Hperm|].
    vm_compute. repeat constructor; simpl; intuition discriminate. }
  assert (Hget : forall d, In d choices ->
            fold_left (fun m c => <[normalizeName (Desc.name c) := c]> m)
                      (sortWith cmp choices) (∅ : gmap string Desc.t)
              !! normalizeName (Desc.name d) = Some d).
  { intros d Hd.
    apply (fold_insert_lookup (fun c => normalizeName (Desc.name c)) _ _ _ Hnd);
      [|reflexivity].
    eapply Permutation_in; [apply Permutation_sym, Hperm | exact Hd]. }
  unfold canonicalEntries, BT_ACTION_LABELS. cbn [map].
  repeat f_equal;
    match goal with
    | |- _ !! _ = Some ?d => apply (Hget d); vm_compute; tauto
    end.
Qed.

(** On the canonical behaviour a profile action is selected exactly when
    the action cell holds the constant of "Clear Selected Profile" or of
    "Select Profile"; with an empty cell the first action, "Next Profile",
    is the selected one. *)
Lemma wantsProfile_canonical localeCompare action profile :
  wantsProfile localeCompare (bluetoothPanel canonicalBluetooth action profile)
  = match action with
    | Some v => (v =? 10) || (v =? 13)
    | None => false
    end.
Proof.
  unfold wantsProfile, selectedActionName, selectedAction, firstAvailable.
  rewrite !bluetoothActions_canonical.
  destruct action as [v|]; [|reflexivity].
  cbn [Panel.bluetoothActionValue bluetoothPanel canonicalEntries List.find
       choiceConstant snd fst Desc.constant constantDesc].
  destruct (Z.eqb_spec 11 v) as [<-|]; [reflexivity|].
  destruct (Z.eqb_spec 12 v) as [<-|]; [reflexivity|].
  destruct (Z.eqb_spec 14 v) as [<-|]; [reflexivity|].
  destruct (Z.eqb_spec 10 v) as [<-|]; [reflexivity|].
  destruct (Z.eqb_spec 13 v) as [<-|]; [reflexivity|].
  destruct (Z.eqb_spec 15 v) as [<-|]; [reflexivity|].
  destruct (Z.eqb_spec v 10); [congruence|].
  destruct (Z.eqb_spec v 13); [congruence|]. reflexivity.
Qed.

(** C5 (amended). A press of an action button emits a binding of the
    selected behaviour with the action constant in the action parameter;
    the other parameter receives the chosen profile value when the pressed
    action is named "Select Profile" or "Clear Selected Profile" and 0
    otherwise, whether or not the behaviour declares profile values. This
    is stated for the presses that do not change whether a profile action
    is selected, among them every press of the action that is already
    selected; a press that switches between a profile action and another
    action is left out. With the six canonical actions on [param1] and
    nothing on [param2]: "Select Profile" with profile 3 yields
    [{param1: 13, param2: 3}] (13 being the constant of that action), by the
    button as well as by the profile control, once it is the selected
    action; and "Clear All Profiles" yields [param2 = 0] whenever no
    profile action is selected, as in the panel before any action was
    chosen; this holds for every locale order. *)
Theorem bluetooth_action_encoding :
  (forall localeCompare st behavior order label choice value,
     bluetoothBehavior localeCompare st = Some behavior ->
     bluetoothOrder localeCompare st = Some order ->
     actionsRendered localeCompare st = true ->
     canEdit st = true ->
     choiceConstant (label, choice) = Some value ->
     wantsProfile localeCompare st
     = (String.eqb label "Select Profile"
        || String.eqb label "Clear Selected Profile") ->
     exists click,
       bluetoothActionClick localeCompare st (label, choice) = Some click /\
       Binding.behaviorId (BtClick.emitted click) = Behavior.id behavior /\
       bindingParam (BluetoothOrder.actionParam order) (BtClick.emitted click) = value /\
       bindingParam (otherParamName (BluetoothOrder.actionParam order))
                    (BtClick.emitted click)
       = (if String.eqb label "Select Profile"
             || String.eqb label "Clear Selected Profile"
          then effectiveProfile localeCompare st behavior order
          else 0) /\
       (forall profile,
          Panel.bluetoothProfileValue st = Some profile ->
          effectiveProfile localeCompare st behavior order = profile))
  /\
  (forall localeCompare st label,
     selectedActionName localeCompare st = Some label ->
     wantsProfile localeCompare st
     = (String.eqb label "Select Profile"
        || String.eqb label "Clear Selected Profile"))
  /\
  (forall localeCompare,
     bluetoothActionClick localeCompare
       (bluetoothPanel canonicalBluetooth (Some 13) (Some 3))
       ("Select Profile", Some (constantDesc "Select Profile" 13))
     = Some (BtClick.mk (Binding.mk 30 13 3) (Some 13) (Some 3)))
  /\
  (forall localeCompare profile,
     bluetoothProfileChange localeCompare
       (bluetoothPanel canonicalBluetooth (Some 13) profile) 3
     = Some (Binding.mk 30 13 3))
  /\
  (forall localeCompare action profile,
     action <> Some 10 -> action <> Some 13 ->
     exists click,
       bluetoothActionClick localeCompare
         (bluetoothPanel canonicalBluetooth action profile)
         ("Clear All Profiles", Some (constantDesc "Clear All Profiles" 14))
       = Some click /\
       BtClick.emitted click = Binding.mk 30 14 0).
Proof.
  split; [|split; [|split; [|split]]].
  - intros localeCompare st behavior order label choice value Hb Ho Hr He Hv Hsel.
    destruct (bluetoothActionClick_emitted localeCompare st behavior order
                (label, choice) value Hb Ho Hr He Hv)
      as (click & Hclick & Hid & Haction & Hprofile).
    exists click. repeat split; auto.
    + rewrite Hprofile. now rewrite Hsel.
    + intros profile Hp. unfold effectiveProfile. now rewrite Hp.
  - intros localeCompare st label Hsel. unfold wantsProfile. now rewrite Hsel.
  - intros localeCompare.
    unfold bluetoothActionClick, actionsRendered, needsProfile, effectiveProfile,
      effectiveProfileDescs, wantsProfile, selectedActionName, selectedAction.
    rewrite !bluetoothActions_canonical. reflexivity.
  - intros localeCompare profile.
    unfold bluetoothProfileChange, actionsRendered, needsProfile,
      effectiveProfileDescs, wantsProfile, selectedActionName, selectedAction.
    rewrite !bluetoothActions_canonical. reflexivity.
  - intros localeCompare action profile H10 H13.
    assert (Hr : actionsRendered localeCompare
                   (bluetoothPanel canonicalBluetooth action profile) = true).
    { unfold actionsRendered. now rewrite bluetoothActions_canonical. }
    destruct (bluetoothActionClick_emitted localeCompare
                (bluetoothPanel canonicalBluetooth action profile)
                canonicalBluetooth (BluetoothOrder.mk Param1 None)
                ("Clear All Profiles", Some (constantDesc "Clear All Profiles" 14)) 14
                eq_refl eq_refl Hr eq_refl eq_refl)
      as (click & Hclick & Hid & Haction & Hprofile).
    exists click. split; [exact Hclick|].
    rewrite wantsProfile_canonical in Hprofile.
    assert (Hno : match action with
                  | Some v => (v =? 10) || (v =? 13)
                  | None => false
                  end = false).
    { destruct action as [v|]; [|reflexivity].
      destruct (Z.eqb_spec v 10); [congruence|].
      destruct (Z.eqb_spec v 13); [congruence|]. reflexivity. }
    rewrite Hno in Hprofile.
    destruct (BtClick.emitted click) as [i p1 p2].
    cbn in Hid, Haction, Hprofile. now subst.
Qed.

Lemma bluetooth_action_encoding_witness :
  (exists click,
     bluetoothActionClick codeUnitCompare
       (bluetoothPanel canonicalBluetooth (Some 13) (Some 3))
       ("Select Profile", Some (constantDesc "Select Profile" 13)) = Some click /\
     bindingParam Param1 (BtClick.emitted click) = 13 /\
     bindingParam Param2 (BtClick.emitted click) = 3)
  /\
  (exists click,
     bluetoothActionClick codeUnitCompare
       (bluetoothPanel canonicalBluetooth None None)
       ("Clear All Profiles", Some (constantDesc "Clear All Profiles" 14)) = Some click /\
     BtClick.emitted click = Binding.mk 30 14 0).
Proof.
  split.
  - destruct (proj1 bluetooth_action_encoding codeUnitCompare
                (bluetoothPanel canonicalBluetooth (Some 13) (Some 3))
                canonicalBluetooth (BluetoothOrder.mk Param1 None)
                "Select Profile" (Some (constantDesc "Select Profile" 13)) 13
                eq_refl eq_refl eq_refl eq_refl eq_refl eq_refl)
      as (click & Hclick & _ & Haction & Hother & Hprofile).
    exists click. split; [exact Hclick|]. split; [exact Haction|].
    exact (eq_trans Hother (Hprofile 3 eq_refl)).
  - apply (proj2 (proj2 (proj2 (proj2 bluetooth_action_encoding)))
             codeUnitCompare None None); discriminate.
Defined.

(** C5 as stated fails: in [profilesPanel] the behaviour declares profile
    values (the profile control is shown), "Next Profile" is the selected
    action and 2 the chosen profile, yet pressing "Next Profile" writes 0,
    not 2, into the profile parameter. *)
Lemma bluetooth_action_encoding_counterexample :
  bluetoothOrder codeUnitCompare profilesPanel
  = Some (BluetoothOrder.mk Param1 (Some Param2)) /\
  effectiveProfileDescs codeUnitCompare profilesPanel bluetoothWithProfiles
    (BluetoothOrder.mk Param1 (Some Param2)) = [rangeDesc "Profile" 0 4] /\
  needsProfile codeUnitCompare profilesPanel bluetoothWithProfiles
    (BluetoothOrder.mk Param1 (Some Param2)) = true /\
  selectedActionName codeUnitCompare profilesPanel = Some "Next Profile" /\
  bluetoothActionClick codeUnitCompare profilesPanel
    ("Next Profile", Some (constantDesc "Next Profile" 11))
  = Some (BtClick.mk (Binding.mk 31 11 0) (Some 11) (Some 2)).
Proof. repeat split. Qed.

(** The profile test looks at the action selected when the panel was
    rendered, not at the button pressed: with "Select Profile" selected and
    profile 3 chosen, pressing "Clear All Profiles" carries the 3 along. *)
Lemma bluetoothActionClick_reads_selected_action :
  bluetoothActionClick codeUnitCompare
    (bluetoothPanel canonicalBluetooth (Some 13) (Some 3))
    ("Clear All Profiles", Some (constantDesc "Clear All Profiles" 14))
  = Some (BtClick.mk (Binding.mk 30 14 3) (Some 14) (Some 3)).
Proof. reflexivity. Qed.

(** ** The keymap replica *)

Lemma js_get_set_same {A} (arr : list (option A)) i v :
  js_get (js_set arr i v) i = v.
Proof.
  unfold js_get, js_set.
  destruct (Nat.ltb_spec i (length arr)) as [Hlt|Hge].
  - now rewrite list_lookup_insert_eq.
  - rewrite lookup_app_r by lia.
    rewrite lookup_app_r by (rewrite length_replicate; lia).
    rewrite length_replicate.
    now replace (i - length arr - (i - length arr))%nat with 0%nat by lia.
Qed.

Lemma js_get_set_other {A} (arr : list (option A)) i j v :
  i <> j -> js_get (js_set arr i v) j = js_get arr j.
Proof.
  intros Hne. unfold js_get, js_set.
  destruct (Nat.ltb_spec i (length arr)) as [Hlt|Hge].
  - now rewrite list_lookup_insert_ne.
  - destruct (Nat.lt_ge_cases j (length arr)) as [Hj|Hj].
    + now rewrite lookup_app_l.
    + rewrite (lookup_ge_None_2 arr j) by lia.
      rewrite lookup_app_r by lia.
      destruct (Nat.lt_ge_cases (j - length arr) (i - length arr)) as [Hr|Hr].
      * rewrite lookup_app_l by (rewrite length_replicate; lia).
        rewrite lookup_replicate_2 by lia. reflexivity.
      * rewrite lookup_app_r by (rewrite length_replicate; lia).
        rewrite length_replicate.
        rewrite lookup_ge_None_2; [reflexivity|]. simpl. lia.
Qed.

Lemma layerAt_Some layers layer l :
  layerAt layers layer = Some l ->
  0 <= layer /\ layers !! Z.to_nat layer = Some l.
Proof.
  unfold layerAt. destruct (Z.ltb_spec layer 0); [discriminate|]. auto.
Qed.

Lemma layerAt_insert_same layers layer l l' :
  layerAt layers layer = Some l ->
  layerAt (<[Z.to_nat layer := l']> layers) layer = Some l'.
Proof.
  intros H. apply layerAt_Some in H as [Hpos Hl]. unfold layerAt.
  destruct (Z.ltb_spec layer 0); [lia|].
  apply list_lookup_insert_eq. now apply lookup_lt_Some in Hl.
Qed.

Lemma layerAt_insert_other layers layer layer' l' :
  0 <= layer -> layer' <> layer ->
  layerAt (<[Z.to_nat layer := l']> layers) layer' = layerAt layers layer'.
Proof.
  intros Hpos Hne. unfold layerAt.
  destruct (Z.ltb_spec layer' 0); [reflexivity|].
  apply list_lookup_insert_ne. lia.
Qed.

(** The recipe replaces exactly one binding and nothing else. *)
Lemma setBindingRecipe_spec layer keyPosition v keymap l :
  layerAt (Keymap.layers keymap) layer = Some l ->
  exists keymap',
    setBindingRecipe layer keyPosition v keymap = Some keymap' /\
    bindingAt keymap' layer keyPosition = v /\
    (forall layer' keyPosition',
       layer' <> layer \/ keyPosition' <> keyPosition ->
       bindingAt keymap' layer' keyPosition' = bindingAt keymap layer' keyPosition') /\
    map Layer.id (Keymap.layers keymap') = map Layer.id (Keymap.layers keymap) /\
    map Layer.name (Keymap.layers keymap') = map Layer.name (Keymap.layers keymap) /\
    Keymap.availableLayers keymap' = Keymap.availableLayers keymap.
Proof.
  intros Hl. unfold setBindingRecipe. rewrite Hl.
  eexists. split; [reflexivity|].
  pose proof (layerAt_Some _ _ _ Hl) as [Hpos Hnth].
  unfold bindingAt. cbn [Keymap.layers Keymap.availableLayers].
  repeat split.
  - rewrite (layerAt_insert_same _ _ _ _ Hl). apply js_get_set_same.
  - intros layer' keyPosition' Hne.
    destruct (Z.eq_dec layer' layer) as [->|Hlayer].
    + rewrite (layerAt_insert_same _ _ _ _ Hl), Hl. cbn [Layer.bindings].
      apply js_get_set_other. destruct Hne; congruence.
    + now rewrite layerAt_insert_other.
  - rewrite list_fmap_insert. cbn [Layer.id].
    apply list_insert_id. now rewrite list_lookup_fmap, Hnth.
  - rewrite list_fmap_insert. cbn [Layer.name].
    apply list_insert_id. now rewrite list_lookup_fmap, Hnth.
Qed.

(** ** Set-binding edits *)

Lemma isRespOk_true r :
  isRespOk r = true <-> r = Some SET_LAYER_BINDING_RESP_OK.
Proof. destruct r as [[]|]; simpl; split; congruence. Qed.

(** C1. A set-binding edit issued by [doUpdateBinding] over a connection,
    while the replica has the selected layer, sends one request; the replica
    gets the new binding at the selected layer and key position (and changes
    nowhere else) when the device answers [SET_LAYER_BINDING_RESP_OK], and
    is left as it was on any other answer. The inverse it returns, whenever
    it is run, sends the binding that stood at that position in the keymap
    the handler captured before the call. *)
Theorem doUpdateBinding_confirmed_only {Dev} (device : Dev -> Request -> Response.t * Dev)
    cl binding cmd (w : World.t Dev) live :
  doUpdateBinding device cl binding = Done (Some cmd) ->
  Closure.conn cl = true ->
  World.keymap w = Some live ->
  layerAt (Keymap.layers live) (Closure.selectedLayerIndex cl) <> None ->
  exists keymap keyPosition l inverse w',
    Closure.keymap cl = Some keymap /\
    Closure.selectedKeyPosition cl = Some keyPosition /\
    layerAt (Keymap.layers keymap) (Closure.selectedLayerIndex cl) = Some l /\
    cmd w = (Done inverse, w') /\
    World.sent w'
    = (World.sent w ++ [SetLayerBinding (Layer.id l) keyPosition (Some binding)])%list /\
    (Response.setLayerBinding
       (fst (device (World.dev w)
                    (SetLayerBinding (Layer.id l) keyPosition (Some binding))))
     = Some SET_LAYER_BINDING_RESP_OK ->
     exists keymap',
       World.keymap w' = Some keymap' /\
       bindingAt keymap' (Closure.selectedLayerIndex cl) keyPosition = Some binding /\
       (forall layer' keyPosition',
          layer' <> Closure.selectedLayerIndex cl \/ keyPosition' <> keyPosition ->
          bindingAt keymap' layer' keyPosition' = bindingAt live layer' keyPosition') /\
       map Layer.id (Keymap.layers keymap') = map Layer.id (Keymap.layers live) /\
       map Layer.name (Keymap.layers keymap') = map Layer.name (Keymap.layers live) /\
       Keymap.availableLayers keymap' = Keymap.availableLayers live) /\
    (Response.setLayerBinding
       (fst (device (World.dev w)
                    (SetLayerBinding (Layer.id l) keyPosition (Some binding))))
     <> Some SET_LAYER_BINDING_RESP_OK ->
     World.keymap w' = World.keymap w) /\
    (forall w2 : World.t Dev,
       World.sent (snd (inverse w2))
       = (World.sent w2
          ++ [SetLayerBinding (Layer.id l) keyPosition
                (bindingAt keymap (Closure.selectedLayerIndex cl) keyPosition)])%list).
Proof.
  intros Hcmd Hconn Hlive Hlayer. unfold doUpdateBinding in Hcmd.
  destruct (layerAt (Keymap.layers live) (Closure.selectedLayerIndex cl))
    as [l0|] eqn:Hl0; [clear Hlayer | contradiction].
  destruct (Closure.keymap cl) as [keymap|] eqn:Hkm; [|discriminate].
  destruct (Closure.selectedKeyPosition cl) as [keyPosition|] eqn:Hkp; [|discriminate].
  destruct (layerAt (Keymap.layers keymap) (Closure.selectedLayerIndex cl))
    as [l|] eqn:Hl; [|discriminate].
  injection Hcmd as <-. rewrite Hconn. cbn [negb].
  exists keymap, keyPosition, l.
  unfold bind at 1 2, call_rpc at 1.
  destruct (device (World.dev w)
              (SetLayerBinding (Layer.id l) keyPosition (Some binding)))
    as [resp d'] eqn:Hdev.
  cbn [fst].
  assert (Hinv : forall w2 : World.t Dev,
            World.sent
              (snd ((bind
                       (call_rpc device
                          (SetLayerBinding (Layer.id l) keyPosition
                             (js_get (Layer.bindings l) keyPosition)))
                       (fun resp0 =>
                          if isRespOk (Response.setLayerBinding resp0)
                          then setKeymap
                                 (setBindingRecipe (Closure.selectedLayerIndex cl)
                                    keyPosition
                                    (js_get (Layer.bindings l) keyPosition))
                          else ret tt)) w2))
            = (World.sent w2
               ++ [SetLayerBinding (Layer.id l) keyPosition
                     (bindingAt keymap (Closure.selectedLayerIndex cl) keyPosition)])%list).
  { intros w2. unfold bindingAt. rewrite Hl. unfold bind, call_rpc.
    destruct (device (World.dev w2) _) as [resp2 d2].
    destruct (isRespOk (Response.setLayerBinding resp2)); [|reflexivity].
    unfold setKeymap. cbn [World.keymap].
    destruct (World.keymap w2) as [km2|]; [|reflexivity].
    destruct (setBindingRecipe _ _ _ km2); reflexivity. }
  destruct (isRespOk (Response.setLayerBinding resp)) eqn:Hok.
  - destruct (setBindingRecipe_spec (Closure.selectedLayerIndex cl) keyPosition
                (Some binding) live l0 Hl0) as (keymap' & Hrec & Hspec).
    unfold setKeymap at 1. cbn [World.keymap]. rewrite Hlive, Hrec.
    unfold ret at 1. do 2 eexists.
    do 5 (split; [first [exact Hl | reflexivity]|]). split; [|split; [|exact Hinv]].
    + intros _. exists keymap'. split; [reflexivity | exact Hspec].
    + intros Hne. apply isRespOk_true in Hok. contradiction.
  - unfold ret at 1 2. do 2 eexists.
    do 5 (split; [first [exact Hl | reflexivity]|]). split; [|split; [|exact Hinv]].
    + intros H. apply isRespOk_true in H. congruence.
    + reflexivity.
Qed.

Lemma doUpdateBinding_confirmed_only_witness :
  exists cmd inverse w',
    doUpdateBinding acceptingDevice (exampleClosure 1 (Some 2%nat)) (Binding.mk 1 30 0)
    = Done (Some cmd) /\
    cmd (exampleWorld tt 1) = (Done inverse, w') /\
    World.sent w' = [SetLayerBinding 11 2 (Some (Binding.mk 1 30 0))] /\
    World.sent (snd (inverse w')) =
      [SetLayerBinding 11 2 (Some (Binding.mk 1 30 0)); SetLayerBinding 11 2 (keyPress 9)].
Proof.
  destruct (doUpdateBinding_confirmed_only acceptingDevice
              (exampleClosure 1 (Some 2%nat)) (Binding.mk 1 30 0) _
              (exampleWorld tt 1) exampleKeymap eq_refl eq_refl eq_refl
              ltac:(discriminate))
    as (keymap & keyPosition & l & inverse & w' & Hkm & Hkp & Hl & Hrun & Hsent
        & _ & _ & Hinv).
  injection Hkm as <-. injection Hkp as <-. injection Hl as <-.
  eexists. exists inverse, w'. split; [reflexivity|]. split; [exact Hrun|].
  split; [exact Hsent|]. rewrite Hinv, Hsent. reflexivity.
Defined.

(** ** Removing layers *)

Lemma length_spliceOut_le {A} (i : Z) (l : list A) :
  (length (spliceOut i l) <= length l)%nat.
Proof.
  unfold spliceOut. rewrite length_app, length_take, length_drop. lia.
Qed.

Lemma length_spliceOut_last {A} (l : list A) :
  length (spliceOut (Z.of_nat (length l) - 1) l) = (length l - 1)%nat.
Proof.
  unfold spliceOut, spliceStart. rewrite length_app, length_take, length_drop.
  destruct (Z.ltb_spec (Z.of_nat (length l) - 1) 0); lia.
Qed.

(** What a confirmed [doRemove] of [removeLayer] leaves behind. *)
Lemma removeLayer_doRemove_Done {Dev} (device : Dev -> Request -> Response.t * Dev)
    cl layerIndex (w w' : World.t Dev) captured live :
  Closure.keymap cl = Some captured ->
  World.keymap w = Some live ->
  removeLayer_doRemove device cl layerIndex w = (Done tt, w') ->
  World.keymap w'
  = Some (Keymap.mk (spliceOut layerIndex (Keymap.layers live))
                    (Keymap.availableLayers live + 1)) /\
  World.selectedLayerIndex w'
  = (if layerIndex =? Z.of_nat (length (Keymap.layers captured)) - 1
     then layerIndex - 1
     else World.selectedLayerIndex w).
Proof.
  intros Hcl Hlive. unfold removeLayer_doRemove. rewrite Hcl.
  destruct (Closure.conn cl); [|discriminate].
  unfold bind at 1, call_rpc.
  destruct (device (World.dev w) (RemoveLayer layerIndex)) as [resp d'].
  destruct (Response.removeLayerOk resp); [|discriminate].
  destruct (layerIndex =? Z.of_nat (length (Keymap.layers captured)) - 1);
    unfold bind, setSelectedLayerIndex, ret, setKeymap, removeLayerRecipe;
    cbn [World.keymap]; rewrite Hlive; intros [= <-]; auto.
Qed.

(** What a confirmed [doRemove] of [addLayer] (the undo of an added layer)
    leaves behind. *)
Lemma addLayer_doRemove_Done {Dev} (device : Dev -> Request -> Response.t * Dev)
    cl layerIndex (w w' : World.t Dev) live :
  World.keymap w = Some live ->
  addLayer_doRemove device cl layerIndex w = (Done tt, w') ->
  World.keymap w'
  = Some (Keymap.mk (spliceOut layerIndex (Keymap.layers live))
                    (Keymap.availableLayers live + 1)) /\
  World.selectedLayerIndex w' = World.selectedLayerIndex w.
Proof.
  intros Hlive. unfold addLayer_doRemove.
  destruct (Closure.conn cl); [|discriminate]. cbn [negb].
  unfold bind at 1, call_rpc.
  destruct (device (World.dev w) (RemoveLayer layerIndex)) as [resp d'].
  destruct (Response.removeLayerOk resp); [|discriminate].
  unfold setKeymap, removeLayerRecipe. cbn [World.keymap]. rewrite Hlive.
  intros [= <-]. auto.
Qed.

(** The clamp effect brings the selection under the layer count and never
    below a selection that was non-negative. *)
Lemma clampSelectedLayer_bounds {Dev} (w : World.t Dev) keymap :
  World.keymap w = Some keymap ->
  (1 <= length (Keymap.layers keymap))%nat ->
  0 <= World.selectedLayerIndex w ->
  World.keymap (clampSelectedLayer w) = Some keymap /\
  0 <= World.selectedLayerIndex (clampSelectedLayer w)
    <= Z.of_nat (length (Keymap.layers keymap)) - 1.
Proof.
  intros Hkm Hlen Hsel. unfold clampSelectedLayer. rewrite Hkm.
  destruct (Z.ltb_spec (Z.of_nat (length (Keymap.layers keymap)) - 1)
                       (World.selectedLayerIndex w));
    cbn [World.keymap World.selectedLayerIndex]; split; auto; lia.
Qed.

(** With a callback that captured the replica itself, a confirmed removal
    of a layer, by [removeLayer] or by the undo of [addLayer], leaves the
    selected-layer index, once the clamp effect has run, within
    [0 .. layerCount - 1], provided a layer remains and the selection was
    valid before; removing the last layer while it is selected moves the
    selection to the new last index. *)
Lemma fresh_removeLayer_stays_in_range :
  (forall Dev (device : Dev -> Request -> Response.t * Dev) cl layerIndex
          (w w' : World.t Dev) live,
     Closure.keymap cl = Some live ->
     World.keymap w = Some live ->
     0 <= World.selectedLayerIndex w < Z.of_nat (length (Keymap.layers live)) ->
     removeLayer_doRemove device cl layerIndex w = (Done tt, w') ->
     exists live',
       World.keymap w' = Some live' /\
       Keymap.layers live' = spliceOut layerIndex (Keymap.layers live) /\
       ((1 <= length (Keymap.layers live'))%nat ->
        0 <= World.selectedLayerIndex (clampSelectedLayer w')
          <= Z.of_nat (length (Keymap.layers live')) - 1))
  /\
  (forall Dev (device : Dev -> Request -> Response.t * Dev) cl layerIndex
          (w w' : World.t Dev) live,
     World.keymap w = Some live ->
     0 <= World.selectedLayerIndex w < Z.of_nat (length (Keymap.layers live)) ->
     addLayer_doRemove device cl layerIndex w = (Done tt, w') ->
     exists live',
       World.keymap w' = Some live' /\
       Keymap.layers live' = spliceOut layerIndex (Keymap.layers live) /\
       ((1 <= length (Keymap.layers live'))%nat ->
        0 <= World.selectedLayerIndex (clampSelectedLayer w')
          <= Z.of_nat (length (Keymap.layers live')) - 1))
  /\
  (forall Dev (device : Dev -> Request -> Response.t * Dev) cl cmd inverse
          (w w' : World.t Dev) live,
     Closure.keymap cl = Some live ->
     World.keymap w = Some live ->
     Closure.selectedLayerIndex cl = World.selectedLayerIndex w ->
     World.selectedLayerIndex w = Z.of_nat (length (Keymap.layers live)) - 1 ->
     (2 <= length (Keymap.layers live))%nat ->
     removeLayer device cl = Done cmd ->
     cmd w = (Done inverse, w') ->
     exists live',
       World.keymap w' = Some live' /\
       length (Keymap.layers live') = (length (Keymap.layers live) - 1)%nat /\
       World.selectedLayerIndex w' = Z.of_nat (length (Keymap.layers live')) - 1 /\
       clampSelectedLayer w' = w').
Proof.
  repeat apply conj.
  - intros Dev device cl layerIndex w w' live Hcl Hlive Hsel Hrun.
    destruct (removeLayer_doRemove_Done device cl layerIndex w w' live live
                Hcl Hlive Hrun) as [Hkm' Hsel'].
    eexists. split; [exact Hkm'|]. split; [reflexivity|].
    cbn [Keymap.layers]. intros Hrem.
    apply (clampSelectedLayer_bounds w' _ Hkm' Hrem).
    rewrite Hsel'.
    destruct (Z.eqb_spec layerIndex (Z.of_nat (length (Keymap.layers live)) - 1))
      as [->|_]; [|lia].
    rewrite length_spliceOut_last in Hrem. lia.
  - intros Dev device cl layerIndex w w' live Hlive Hsel Hrun.
    destruct (addLayer_doRemove_Done device cl layerIndex w w' live Hlive Hrun)
      as [Hkm' Hsel'].
    eexists. split; [exact Hkm'|]. split; [reflexivity|].
    cbn [Keymap.layers]. intros Hrem.
    apply (clampSelectedLayer_bounds w' _ Hkm' Hrem). lia.
  - intros Dev device cl cmd inverse w w' live Hcl Hlive Hidx Hlast Hlen Hcmd Hrun.
    unfold removeLayer in Hcmd. rewrite Hcl in Hcmd.
    destruct (layerAt (Keymap.layers live) (Closure.selectedLayerIndex cl));
      [|discriminate].
    injection Hcmd as <-. unfold bind at 1 in Hrun.
    destruct (removeLayer_doRemove device cl (Closure.selectedLayerIndex cl) w)
      as [[[]|e] w1] eqn:Hrem; [|discriminate].
    unfold ret in Hrun. injection Hrun as _ <-.
    destruct (removeLayer_doRemove_Done device cl _ w w1 live live Hcl Hlive Hrem)
      as [Hkm' Hsel'].
    rewrite Hidx, Hlast in Hkm', Hsel'. rewrite Z.eqb_refl in Hsel'.
    eexists. split; [exact Hkm'|]. cbn [Keymap.layers].
    rewrite length_spliceOut_last. split; [reflexivity|].
    split; [rewrite Hsel'; lia|].
    unfold clampSelectedLayer. rewrite Hkm'. cbn [Keymap.layers].
    rewrite length_spliceOut_last, Hsel'.
    destruct (Z.ltb_spec (Z.of_nat (length (Keymap.layers live) - 1) - 1)
                         (Z.of_nat (length (Keymap.layers live)) - 1 - 1));
      [lia | reflexivity].
Qed.

(** C9 (defect). The callback of [removeLayer] is not renewed when the
    keymap changes, so it can run on a keymap that is older than the
    replica. With the layers Base and Nav, Base selected, and the context
    value [undoRedo] staying the same function: remove Base, add a layer,
    undo the addition, undo the removal, and press remove again. Before
    the last press the replica holds both layers again, but the callback is
    the one created while Nav was the only layer: it takes index 0 for the
    last index and moves the selection to -1, and the clamp effect, which
    only lowers a selection that is too high, leaves it there, with one
    layer in the replica. *)
Theorem selected_layer_leaves_range :
  exists cl4 w4 w5,
    removeAddUndoUndoRemove false = Some (cl4, w4, w5) /\
    World.keymap w4 = Some twoLayerKeymap /\
    World.selectedLayerIndex w4 = 0 /\
    Closure.keymap cl4
    = Some (Keymap.mk [Layer.mk 11 "Nav" [keyPress 7; keyPress 8]] 3) /\
    Closure.selectedLayerIndex cl4 = 0 /\
    World.sent w5
    = [RemoveLayer 0; AddLayer; RemoveLayer 1; RestoreLayer 10 0; RemoveLayer 0] /\
    World.keymap w5
    = Some (Keymap.mk [Layer.mk 11 "Nav" [keyPress 7; keyPress 8]] 3) /\
    World.selectedLayerIndex w5 = -1 /\
    clampSelectedLayer w5 = w5.
Proof.
  assert (Hrun : exists r, removeAddUndoUndoRemove false = Some r /\
                           r = (fst (fst r), snd (fst r), snd r)).
  { vm_compute. eexists. split; reflexivity. }
  destruct Hrun as ([[cl4 w4] w5] & Hrun & _).
  exists cl4, w4, w5. split; [exact Hrun|].
  vm_compute in Hrun. injection Hrun as <- <- <-.
  repeat split.
Qed.

(** The same presses when the provider hands out another [undoRedo] for
    every render that follows a command: the callback is renewed each time
    and the selection ends on the layer that is left. *)
Lemma renewed_removeLayer_keeps_range :
  exists cl4 w4 w5,
    removeAddUndoUndoRemove true = Some (cl4, w4, w5) /\
    Closure.keymap cl4 = World.keymap w4 /\
    World.keymap w5
    = Some (Keymap.mk [Layer.mk 11 "Nav" [keyPress 7; keyPress 8]] 3) /\
    World.selectedLayerIndex w5 = 0.
Proof.
  assert (Hrun : exists r, removeAddUndoUndoRemove true = Some r /\
                           r = (fst (fst r), snd (fst r), snd r)).
  { vm_compute. eexists. split; reflexivity. }
  destruct Hrun as ([[cl4 w4] w5] & Hrun & _).
  exists cl4, w4, w5. split; [exact Hrun|].
  vm_compute in Hrun. injection Hrun as <- <- <-.
  repeat split.
Qed.

(** ** Import *)

Lemma bind_ext_at {Dev A B} (m1 m2 : @M Dev A) (k1 k2 : A -> @M Dev B) w :
  m1 w = m2 w ->
  (forall a w', k1 a w' = k2 a w') ->
  bind m1 k1 w = bind m2 k2 w.
Proof.
  intros Hm Hk. unfold bind. rewrite Hm.
  destruct (m2 w) as [[a|e] w']; [apply Hk | reflexivity].
Qed.

Lemma runEdits_app {Dev} (device : Dev -> Request -> Response.t * Dev) a b w :
  runEdits device (a ++ b) w =
  bind (runEdits device a)
       (fun ctl => match ctl with
                   | Return => ret Return
                   | Continue => runEdits device b
                   end) w.
Proof.
  revert w. induction a as [|e a IH]; intros w; [reflexivity|].
  cbn [app runEdits]. unfold bind.
  destruct (sendEdit device e w) as [[[]|err] w1]; try reflexivity.
  rewrite IH. reflexivity.
Qed.

(** The loop over the keys of one layer performs the edits of that layer. *)
Lemma keys_loop_runs_edits {Dev} (device : Dev -> Request -> Response.t * Dev)
    layerIndex layerId currentBindings nextBindings count :
  forall from w,
    (forall i, (from <= i < from + count)%nat -> js_get currentBindings i <> None) ->
    forFrom from count
      (importKey device layerIndex layerId currentBindings nextBindings) w
    = runEdits device
        (flat_map (keyEdit layerIndex layerId currentBindings nextBindings)
                  (seq from count)) w.
Proof.
  induction count as [|count IH]; intros from w Hdense; [reflexivity|].
  cbn [forFrom seq flat_map]. rewrite runEdits_app.
  apply bind_ext_at.
  - unfold importKey, keyEdit.
    destruct (js_get currentBindings from) as [old|] eqn:Hold;
      [|exfalso; apply (Hdense from); [lia | exact Hold]].
    destruct (js_get nextBindings from) as [next|]; [|reflexivity].
    destruct (Binding_eqb old (importedBinding next)); [reflexivity|].
    cbn [runEdits]. unfold sendEdit, editRequest. cbn [Edit.layerId Edit.keyPosition
      Edit.binding Edit.layerIndex].
    unfold bind. destruct (call_rpc device _ w) as [[resp|err] w1]; [|reflexivity].
    destruct (negb (isRespOk (Response.setLayerBinding resp))).
    + destruct (alert _ w1) as [[[]|err] w2]; reflexivity.
    + destruct (setKeymap _ w1) as [[[]|err] w2]; reflexivity.
  - intros [] w'; [|reflexivity]. apply IH. intros i Hi. apply Hdense. lia.
Qed.

Lemma dense_js_get keymap l i :
  denseKeymap keymap -> In l (Keymap.layers keymap) ->
  (i < length (Layer.bindings l))%nat -> js_get (Layer.bindings l) i <> None.
Proof.
  intros Hdense Hl Hi. unfold js_get.
  destruct (Layer.bindings l !! i) as [slot|] eqn:Hslot.
  - apply (Hdense l slot Hl). apply list_elem_of_In.
    eapply list_elem_of_lookup_2. exact Hslot.
  - apply lookup_ge_None in Hslot. lia.
Qed.

(** The loop over the layers performs the edits of those layers. *)
Lemma layers_loop_runs_edits {Dev} (device : Dev -> Request -> Response.t * Dev)
    keymap importedLayers count :
  denseKeymap keymap ->
  forall from w,
    (from + count <= length (Keymap.layers keymap))%nat ->
    forFrom from count (importLayer device keymap importedLayers) w
    = runEdits device
        (flat_map (layerEdits keymap importedLayers) (seq from count)) w.
Proof.
  intros Hdense. induction count as [|count IH]; intros from w Hlen; [reflexivity|].
  cbn [forFrom seq flat_map]. rewrite runEdits_app.
  apply bind_ext_at.
  - unfold importLayer, layerEdits.
    destruct (Keymap.layers keymap !! from) as [l|] eqn:Hl;
      [|apply lookup_ge_None in Hl; lia].
    destruct (importedLayers !! from) as [[nextBindings|]|]; try reflexivity.
    apply keys_loop_runs_edits. intros i Hi.
    apply (dense_js_get keymap); [exact Hdense | | lia].
    apply list_elem_of_In. eapply list_elem_of_lookup_2. exact Hl.
  - intros [] w'; [|reflexivity]. apply IH. lia.
Qed.

(** [importKeymap], past its guards, performs the planned edits. *)
Lemma importKeymap_runs_plan {Dev} (device : Dev -> Request -> Response.t * Dev)
    cl keymap importedLayers w :
  Closure.conn cl = true ->
  Closure.lockState cl = ZMK_STUDIO_CORE_LOCK_STATE_UNLOCKED ->
  Closure.keymap cl = Some keymap ->
  denseKeymap keymap ->
  importedLayers <> [] ->
  importKeymap device cl (Parsed (Some importedLayers)) w
  = bind (runEdits device (plannedEdits keymap importedLayers))
         (fun _ => ret tt) w.
Proof.
  intros Hconn Hlock Hkm Hdense Hne. unfold importKeymap.
  rewrite Hconn, Hlock, Hkm. cbn [negb isUnlocked].
  destruct importedLayers as [|il rest]; [contradiction|].
  apply bind_ext_at; [|reflexivity].
  apply layers_loop_runs_edits; [exact Hdense | lia].
Qed.

Lemma setBindingRecipe_length layer keyPosition v keymap keymap' :
  setBindingRecipe layer keyPosition v keymap = Some keymap' ->
  length (Keymap.layers keymap') = length (Keymap.layers keymap).
Proof.
  unfold setBindingRecipe.
  destruct (layerAt (Keymap.layers keymap) layer); [|discriminate].
  intros [= <-]. cbn [Keymap.layers]. apply length_insert.
Qed.

Lemma layerAt_in_range layers (i : nat) :
  (i < length layers)%nat -> exists l, layerAt layers (Z.of_nat i) = Some l.
Proof.
  intros Hi. unfold layerAt.
  destruct (Z.ltb_spec (Z.of_nat i) 0); [lia|]. rewrite Nat2Z.id.
  destruct (layers !! i) as [l|] eqn:Hl; [eauto|].
  apply lookup_ge_None in Hl. lia.
Qed.

Lemma applyEdit_length keymap e :
  length (Keymap.layers (applyEdit keymap e)) = length (Keymap.layers keymap).
Proof.
  unfold applyEdit.
  destruct (setBindingRecipe _ _ _ keymap) eqn:H; [|reflexivity].
  now apply setBindingRecipe_length in H.
Qed.

(** Performing a list of edits: the device confirms a prefix; the replica
    holds exactly the confirmed edits; one request went out per confirmed
    edit and one for the rejected edit, if any, which raises the alert. *)
Lemma runEdits_result {Dev} (device : Dev -> Request -> Response.t * Dev) edits :
  forall (w : World.t Dev) keymap,
    World.keymap w = Some keymap ->
    (forall e, In e edits ->
               (Edit.layerIndex e < length (Keymap.layers keymap))%nat) ->
    let n := confirmedCount device (World.dev w) edits in
    runEdits device edits w =
      (Done (if (n =? length edits)%nat then Continue else Return),
       World.mk (Some (applyEdits (take n edits) keymap))
                (World.selectedLayerIndex w)
                (deviceAfter device (World.dev w) (take (S n) edits))
                (World.sent w ++ map editRequest (take (S n) edits))%list
                (World.alerts w
                 ++ (if (n =? length edits)%nat then [] else [importFailed]))%list).
Proof.
  induction edits as [|e rest IH]; intros w keymap Hkm Hvalid.
  - cbn. rewrite !app_nil_r. unfold ret. rewrite <- Hkm. now destruct w.
  - cbn [runEdits confirmedCount]. unfold bind at 1, sendEdit, bind at 1, call_rpc.
    unfold deviceAccepts.
    destruct (device (World.dev w) (editRequest e)) as [resp d'] eqn:Hdev.
    cbn [fst snd].
    destruct (isRespOk (Response.setLayerBinding resp)) eqn:Hok; cbn [negb].
    + destruct (layerAt_in_range (Keymap.layers keymap) (Edit.layerIndex e))
        as [l Hl]; [apply Hvalid; now left|].
      destruct (setBindingRecipe_spec (Z.of_nat (Edit.layerIndex e))
                  (Edit.keyPosition e) (Some (Edit.binding e)) keymap l Hl)
        as (keymap' & Hrec & _).
      unfold bind at 1, setKeymap. cbn [World.keymap]. rewrite Hkm, Hrec.
      unfold ret at 1.
      match goal with
      | |- runEdits _ _ ?w2 = _ => rewrite (IH w2 keymap' eq_refl)
      end.
      2:{ intros e' He'. rewrite (setBindingRecipe_length _ _ _ _ _ Hrec).
          apply Hvalid. now right. }
      cbn [World.dev World.sent World.alerts World.selectedLayerIndex length
           take deviceAfter map applyEdits fold_left Nat.eqb].
      rewrite Hdev. cbn [snd]. unfold applyEdit at 2. rewrite Hrec.
      rewrite <- app_assoc. reflexivity.
    + unfold bind, alert, ret.
      cbn [World.dev World.sent World.alerts World.selectedLayerIndex World.keymap
           length take deviceAfter map applyEdits fold_left Nat.eqb].
      rewrite Hdev, Hkm. reflexivity.
Qed.

Lemma js_get_Some_lt {A} (arr : list (option A)) i x :
  js_get arr i = Some x -> (i < length arr)%nat.
Proof.
  unfold js_get. destruct (arr !! i) eqn:H; [|discriminate].
  intros _. eapply lookup_lt_Some. exact H.
Qed.

Lemma keyEdit_In layerIndex layerId currentBindings nextBindings keyPosition e :
  In e (keyEdit layerIndex layerId currentBindings nextBindings keyPosition) <->
  exists old next,
    js_get currentBindings keyPosition = Some old /\
    js_get nextBindings keyPosition = Some next /\
    Binding_eqb old (importedBinding next) = false /\
    e = Edit.mk layerIndex keyPosition layerId (importedBinding next).
Proof.
  unfold keyEdit.
  destruct (js_get currentBindings keyPosition) as [old|].
  - destruct (js_get nextBindings keyPosition) as [next|].
    + destruct (Binding_eqb old (importedBinding next)) eqn:Heq; simpl.
      * split; [intros [] | intros (? & ? & [= <-] & [= <-] & ? & _); congruence].
      * split.
        -- intros [<-|[]]. eauto 6.
        -- intros (? & ? & [= <-] & [= <-] & _ & ->). now left.
    + split; [intros [] | intros (? & ? & _ & ? & _); discriminate].
  - split; [intros [] | intros (? & ? & ? & _); discriminate].
Qed.

(** An edit is planned exactly for a layer index present in the keymap and
    in the document and a key position present in both bindings arrays,
    where the document has an entry that differs from the captured
    binding. *)
Lemma plannedEdits_In keymap importedLayers e :
  In e (plannedEdits keymap importedLayers) <->
  exists l nextBindings old next,
    Keymap.layers keymap !! Edit.layerIndex e = Some l /\
    importedLayers !! Edit.layerIndex e = Some (Some nextBindings) /\
    js_get (Layer.bindings l) (Edit.keyPosition e) = Some old /\
    js_get nextBindings (Edit.keyPosition e) = Some next /\
    Binding_eqb old (importedBinding next) = false /\
    Edit.layerId e = Layer.id l /\
    Edit.binding e = importedBinding next.
Proof.
  unfold plannedEdits. rewrite in_flat_map. split.
  - intros (li & Hli & He). unfold layerEdits in He.
    destruct (Keymap.layers keymap !! li) as [l|] eqn:Hl; [|destruct He].
    destruct (importedLayers !! li) as [[nextBindings|]|] eqn:Himp; try destruct He.
    apply in_flat_map in He as (kp & Hkp & He).
    apply keyEdit_In in He as (old & next & Hold & Hnext & Hdiff & ->).
    exists l, nextBindings, old, next. cbn. auto 8.
  - intros (l & nextBindings & old & next & Hl & Himp & Hold & Hnext & Hdiff & Hid & Hb).
    exists (Edit.layerIndex e). split.
    + apply in_seq. apply lookup_lt_Some in Hl. apply lookup_lt_Some in Himp.
      split; [lia|]. cbn [Nat.add]. apply Nat.min_glb_lt; assumption.
    + unfold layerEdits. rewrite Hl, Himp. apply in_flat_map.
      exists (Edit.keyPosition e). split.
      * apply in_seq. apply js_get_Some_lt in Hold. apply js_get_Some_lt in Hnext. lia.
      * apply keyEdit_In. exists old, next. repeat split; auto.
        destruct e; cbn in *. congruence.
Qed.

Lemma flat_map_seq_sorted {X} (R : X -> X -> Prop) (g : nat -> list X) count :
  (forall i, StronglySorted R (g i)) ->
  (forall i j x y, (i < j)%nat -> In x (g i) -> In y (g j) -> R x y) ->
  forall from, StronglySorted R (flat_map g (seq from count)).
Proof.
  intros Hsorted Hcross. induction count as [|count IH]; intros from; cbn.
  - constructor.
  - apply StronglySorted_app_2; [|apply Hsorted | apply IH].
    intros x y Hx Hy. apply list_elem_of_In in Hx, Hy.
    apply in_flat_map in Hy as (j & Hj & Hy). apply in_seq in Hj.
    apply (Hcross from j); auto. lia.
Qed.

(** The plan is in row-major order of positions. *)
Lemma plannedEdits_sorted keymap importedLayers :
  StronglySorted editBefore (plannedEdits keymap importedLayers).
Proof.
  assert (Hkey : forall li lid cur next kp e,
             In e (keyEdit li lid cur next kp) ->
             Edit.layerIndex e = li /\ Edit.keyPosition e = kp).
  { intros li lid cur next kp e He.
    apply keyEdit_In in He as (? & ? & _ & _ & _ & ->). auto. }
  assert (Hlayer : forall li e,
             In e (layerEdits keymap importedLayers li) -> Edit.layerIndex e = li).
  { intros li e He. unfold layerEdits in He.
    destruct (Keymap.layers keymap !! li); [|destruct He].
    destruct (importedLayers !! li) as [[?|]|]; try destruct He.
    apply in_flat_map in He as (kp & _ & He). now apply Hkey in He. }
  apply flat_map_seq_sorted.
  - intros li. unfold layerEdits.
    destruct (Keymap.layers keymap !! li); [|constructor].
    destruct (importedLayers !! li) as [[nextBindings|]|]; try constructor.
    apply flat_map_seq_sorted.
    + intros kp. unfold keyEdit.
      destruct (js_get _ kp); [|constructor].
      destruct (js_get nextBindings kp); [|constructor].
      destruct (Binding_eqb _ _); repeat constructor.
    + intros i j x y Hij Hx Hy. apply Hkey in Hx as [Hx1 Hx2], Hy as [Hy1 Hy2].
      right. lia.
  - intros i j x y Hij Hx Hy. apply Hlayer in Hx, Hy. left. lia.
Qed.

(** *** The replica under a list of confirmed edits *)

Lemma applyEdit_other keymap e layer keyPosition :
  layer <> Z.of_nat (Edit.layerIndex e) \/ keyPosition <> Edit.keyPosition e ->
  bindingAt (applyEdit keymap e) layer keyPosition = bindingAt keymap layer keyPosition.
Proof.
  intros Hne. unfold applyEdit.
  destruct (layerAt (Keymap.layers keymap) (Z.of_nat (Edit.layerIndex e)))
    as [l|] eqn:Hl.
  - destruct (setBindingRecipe_spec _ (Edit.keyPosition e) (Some (Edit.binding e))
                keymap l Hl) as (keymap' & -> & _ & Hother & _).
    now apply Hother.
  - unfold setBindingRecipe. now rewrite Hl.
Qed.

Lemma applyEdit_same keymap e :
  (Edit.layerIndex e < length (Keymap.layers keymap))%nat ->
  bindingAt (applyEdit keymap e) (Z.of_nat (Edit.layerIndex e)) (Edit.keyPosition e)
  = Some (Edit.binding e).
Proof.
  intros Hlt. destruct (layerAt_in_range _ _ Hlt) as [l Hl]. unfold applyEdit.
  destruct (setBindingRecipe_spec _ (Edit.keyPosition e) (Some (Edit.binding e))
              keymap l Hl) as (keymap' & -> & Hsame & _).
  exact Hsame.
Qed.

Lemma applyEdits_other edits :
  forall keymap layer keyPosition,
    (forall e, In e edits ->
               layer <> Z.of_nat (Edit.layerIndex e) \/
               keyPosition <> Edit.keyPosition e) ->
    bindingAt (applyEdits edits keymap) layer keyPosition
    = bindingAt keymap layer keyPosition.
Proof.
  induction edits as [|x rest IH]; intros keymap layer keyPosition H; [reflexivity|].
  cbn [applyEdits fold_left]. fold (applyEdits rest (applyEdit keymap x)).
  rewrite IH by (intros e He; apply H; now right).
  apply applyEdit_other. apply H. now left.
Qed.

Lemma applyEdits_length edits :
  forall keymap,
    length (Keymap.layers (applyEdits edits keymap)) = length (Keymap.layers keymap).
Proof.
  induction edits as [|x rest IH]; intros keymap; [reflexivity|].
  cbn [applyEdits fold_left]. fold (applyEdits rest (applyEdit keymap x)).
  now rewrite IH, applyEdit_length.
Qed.

Lemma applyEdits_same edits :
  forall keymap e,
    StronglySorted editBefore edits ->
    (forall x, In x edits ->
               (Edit.layerIndex x < length (Keymap.layers keymap))%nat) ->
    In e edits ->
    bindingAt (applyEdits edits keymap) (Z.of_nat (Edit.layerIndex e))
              (Edit.keyPosition e)
    = Some (Edit.binding e).
Proof.
  induction edits as [|x rest IH]; intros keymap e Hsorted Hvalid Hin; [destruct Hin|].
  apply StronglySorted_cons in Hsorted as [Hx Hrest].
  cbn [applyEdits fold_left]. fold (applyEdits rest (applyEdit keymap x)).
  destruct Hin as [<-|Hin].
  - rewrite applyEdits_other.
    + apply applyEdit_same. apply Hvalid. now left.
    + intros y Hy. rewrite Forall_forall in Hx.
      specialize (Hx y (proj2 (list_elem_of_In _ _) Hy)).
      destruct Hx as [Hlt | [Heq Hlt]]; [left | right]; lia.
  - apply IH; auto.
    intros y Hy. rewrite applyEdit_length. apply Hvalid. now right.
Qed.

Lemma confirmedCount_le {Dev} (device : Dev -> Request -> Response.t * Dev) edits :
  forall d, (confirmedCount device d edits <= length edits)%nat.
Proof.
  induction edits as [|e rest IH]; intros d; cbn; [lia|].
  destruct (deviceAccepts device d e); [|lia].
  specialize (IH (snd (device d (editRequest e)))). lia.
Qed.

(** The edit after the confirmed ones is the one the device rejected. *)
Lemma confirmedCount_rejects {Dev} (device : Dev -> Request -> Response.t * Dev) edits :
  forall d,
    (confirmedCount device d edits < length edits)%nat ->
    exists e,
      edits !! confirmedCount device d edits = Some e /\
      deviceAccepts device
        (deviceAfter device d (take (confirmedCount device d edits) edits)) e
      = false.
Proof.
  induction edits as [|e rest IH]; intros d Hlt; cbn in *; [lia|].
  destruct (deviceAccepts device d e) eqn:Hacc.
  - cbn. apply IH. lia.
  - exists e. cbn. auto.
Qed.

Lemma Binding_eqb_false a b : Binding_eqb a b = false <-> a <> b.
Proof.
  destruct a as [i1 p1 q1], b as [i2 p2 q2]. unfold Binding_eqb.
  cbn [Binding.behaviorId Binding.param1 Binding.param2].
  destruct (Z.eqb_spec i1 i2), (Z.eqb_spec p1 p2), (Z.eqb_spec q1 q2); cbn;
    split; intros H; try congruence; try (intros [= ? ? ?]; congruence).
Qed.

Lemma importedBinding_fields next :
  importedBinding next
  = Binding.mk (default 0 (ImportedBinding.behaviorId next))
               (default 0 (ImportedBinding.param1 next))
               (default 0 (ImportedBinding.param2 next)).
Proof. destruct next as [[?|] [?|] [?|]]; reflexivity. Qed.

(** C8. Past its guards (connected, unlocked, keymap loaded, a non-empty
    layer list in the document), and with the replica equal to the captured
    keymap, [importKeymap] completes and behaves as follows, [plan] being
    the positions, in row-major order, that lie below both layer counts and
    both key counts and whose imported entry, with 0 for each member it
    leaves out, differs from the captured binding in the behaviour id, in
    [param1] or in [param2], and [n] the number of planned edits the device
    confirms in a row: one set-binding request per planned edit is sent,
    carrying the three members of the imported entry, up to and including
    the first rejected one, and nothing else; the replica holds the new
    binding at each of the [n] confirmed positions and is untouched
    everywhere else; the failure alert is raised exactly when an edit was
    rejected. *)
Theorem importKeymap_applies_confirmed_prefix {Dev}
    (device : Dev -> Request -> Response.t * Dev) cl keymap importedLayers
    (w : World.t Dev) :
  Closure.conn cl = true ->
  Closure.lockState cl = ZMK_STUDIO_CORE_LOCK_STATE_UNLOCKED ->
  Closure.keymap cl = Some keymap ->
  World.keymap w = Some keymap ->
  denseKeymap keymap ->
  importedLayers <> [] ->
  exists w' keymap',
    importKeymap device cl (Parsed (Some importedLayers)) w = (Done tt, w') /\
    World.keymap w' = Some keymap' /\
    (* the plan *)
    (forall e,
       In e (plannedEdits keymap importedLayers) <->
       exists l nextBindings old next,
         Keymap.layers keymap !! Edit.layerIndex e = Some l /\
         importedLayers !! Edit.layerIndex e = Some (Some nextBindings) /\
         js_get (Layer.bindings l) (Edit.keyPosition e) = Some old /\
         js_get nextBindings (Edit.keyPosition e) = Some next /\
         old <> Binding.mk (default 0 (ImportedBinding.behaviorId next))
                           (default 0 (ImportedBinding.param1 next))
                           (default 0 (ImportedBinding.param2 next)) /\
         Edit.layerId e = Layer.id l /\
         Edit.binding e = Binding.mk (default 0 (ImportedBinding.behaviorId next))
                                     (default 0 (ImportedBinding.param1 next))
                                     (default 0 (ImportedBinding.param2 next))) /\
    (forall e,
       In e (plannedEdits keymap importedLayers) ->
       (Edit.layerIndex e
        < Nat.min (length (Keymap.layers keymap)) (length importedLayers))%nat /\
       (forall l nextBindings,
          Keymap.layers keymap !! Edit.layerIndex e = Some l ->
          importedLayers !! Edit.layerIndex e = Some (Some nextBindings) ->
          (Edit.keyPosition e
           < Nat.min (length (Layer.bindings l)) (length nextBindings))%nat)) /\
    StronglySorted editBefore (plannedEdits keymap importedLayers) /\
    (* requests *)
    World.sent w'
    = (World.sent w
       ++ map editRequest
            (take (S (confirmedCount device (World.dev w)
                        (plannedEdits keymap importedLayers)))
                  (plannedEdits keymap importedLayers)))%list /\
    (* replica *)
    (forall e,
       In e (take (confirmedCount device (World.dev w)
                     (plannedEdits keymap importedLayers))
                  (plannedEdits keymap importedLayers)) ->
       bindingAt keymap' (Z.of_nat (Edit.layerIndex e)) (Edit.keyPosition e)
       = Some (Edit.binding e)) /\
    (forall layer keyPosition,
       (forall e,
          In e (take (confirmedCount device (World.dev w)
                        (plannedEdits keymap importedLayers))
                     (plannedEdits keymap importedLayers)) ->
          layer <> Z.of_nat (Edit.layerIndex e) \/ keyPosition <> Edit.keyPosition e) ->
       bindingAt keymap' layer keyPosition = bindingAt keymap layer keyPosition) /\
    length (Keymap.layers keymap') = length (Keymap.layers keymap) /\
    (* outcome *)
    (confirmedCount device (World.dev w) (plannedEdits keymap importedLayers)
     = length (plannedEdits keymap importedLayers) ->
     World.alerts w' = World.alerts w) /\
    ((confirmedCount device (World.dev w) (plannedEdits keymap importedLayers)
      < length (plannedEdits keymap importedLayers))%nat ->
     World.alerts w' = (World.alerts w ++ [importFailed])%list /\
     exists e,
       plannedEdits keymap importedLayers
         !! confirmedCount device (World.dev w) (plannedEdits keymap importedLayers)
       = Some e /\
       deviceAccepts device
         (deviceAfter device (World.dev w)
            (take (confirmedCount device (World.dev w)
                     (plannedEdits keymap importedLayers))
                  (plannedEdits keymap importedLayers))) e
       = false).
Proof.
  intros Hconn Hlock Hcl Hlive Hdense Hne.
  set (plan := plannedEdits keymap importedLayers).
  set (n := confirmedCount device (World.dev w) plan).
  assert (Hvalid : forall e, In e plan ->
                     (Edit.layerIndex e < length (Keymap.layers keymap))%nat).
  { intros e He. apply plannedEdits_In in He as (l & ? & ? & ? & Hl & _).
    eapply lookup_lt_Some. exact Hl. }
  assert (Hprefix : forall e, In e (take n plan) -> In e plan).
  { intros e He. rewrite <- (take_drop n plan). apply in_or_app. now left. }
  assert (Hsorted : StronglySorted editBefore (take n plan)).
  { pose proof (plannedEdits_sorted keymap importedLayers) as Hs.
    fold plan in Hs. rewrite <- (take_drop n plan) in Hs.
    now apply StronglySorted_app_1_l in Hs. }
  rewrite (importKeymap_runs_plan device cl keymap importedLayers w
             Hconn Hlock Hcl Hdense Hne).
  fold plan. unfold bind.
  rewrite (runEdits_result device plan w keymap Hlive Hvalid). fold n.
  cbv zeta. unfold ret.
  do 2 eexists. split; [reflexivity|]. split; [reflexivity|].
  cbn [World.sent World.alerts World.keymap].
  split.
  { intros e. unfold plan. rewrite plannedEdits_In.
    split; intros (l & nextBindings & old & next & Hl & Himp & Hold & Hnext
                   & Hdiff & Hid & Hbinding);
      exists l, nextBindings, old, next; repeat (split; [assumption|]).
    - rewrite <- importedBinding_fields. split; [now apply Binding_eqb_false|].
      auto.
    - rewrite <- importedBinding_fields in Hdiff, Hbinding.
      split; [now apply Binding_eqb_false|]. auto. }
  split.
  { intros e He. apply plannedEdits_In in He
      as (l & nextBindings & old & next & Hl & Himp & Hold & Hnext & _).
    split.
    - pose proof (lookup_lt_Some _ _ _ Hl). pose proof (lookup_lt_Some _ _ _ Himp).
      apply Nat.min_glb_lt; assumption.
    - intros l' nb' Hl' Himp'.
      assert (l' = l) by congruence. assert (nb' = nextBindings) by congruence.
      subst. apply js_get_Some_lt in Hold. apply js_get_Some_lt in Hnext.
      apply Nat.min_glb_lt; assumption. }
  split; [apply plannedEdits_sorted|].
  split; [reflexivity|].
  split.
  { intros e He. apply applyEdits_same; auto. }
  split.
  { intros layer keyPosition H. now apply applyEdits_other. }
  split; [apply applyEdits_length|].
  split.
  { intros Hn. rewrite Hn, Nat.eqb_refl. apply app_nil_r. }
  intros Hlt. split.
  - destruct (Nat.eqb_spec n (length plan)); [lia | reflexivity].
  - apply confirmedCount_rejects. exact Hlt.
Qed.

Lemma exampleKeymap_dense : denseKeymap exampleKeymap.
Proof.
  intros l slot Hl Hs. simpl in Hl.
  destruct Hl as [<-|[<-|[<-|[]]]]; simpl in Hs;
    destruct Hs as [<-|[<-|[<-|[]]]]; discriminate.
Qed.

Lemma importKeymap_applies_confirmed_prefix_witness :
  exists w',
    importKeymap countingDevice (exampleClosure 0 None)
                 (Parsed (Some param2Document)) (exampleWorld 2%nat 0)
    = (Done tt, w') /\
    World.sent w'
    = [SetLayerBinding 10 0 (Some (Binding.mk 1 4 7));
       SetLayerBinding 10 2 (Some (Binding.mk 1 22 0));
       SetLayerBinding 11 1 (Some (Binding.mk 1 30 0))] /\
    World.alerts w' = [importFailed] /\
    World.keymap w'
    = Some (Keymap.mk
              [Layer.mk 10 "Base" [Some (Binding.mk 1 4 7); keyPress 5; keyPress 22];
               Layer.mk 11 "Nav" [keyPress 7; keyPress 8; keyPress 9];
               Layer.mk 12 "Fn" [keyPress 10; keyPress 11; keyPress 12]]
              2) /\
    (exists l nextBindings old next,
       Keymap.layers exampleKeymap !! 0%nat = Some l /\
       param2Document !! 0%nat = Some (Some nextBindings) /\
       js_get (Layer.bindings l) 0 = Some old /\
       js_get nextBindings 0 = Some next /\
       old <> Binding.mk (default 0 (ImportedBinding.behaviorId next))
                         (default 0 (ImportedBinding.param1 next))
                         (default 0 (ImportedBinding.param2 next)) /\
       10 = Layer.id l /\
       Binding.mk 1 4 7
       = Binding.mk (default 0 (ImportedBinding.behaviorId next))
                    (default 0 (ImportedBinding.param1 next))
                    (default 0 (ImportedBinding.param2 next))).
Proof.
  destruct (importKeymap_applies_confirmed_prefix countingDevice
              (exampleClosure 0 None) exampleKeymap param2Document
              (exampleWorld 2%nat 0)
              eq_refl eq_refl eq_refl eq_refl exampleKeymap_dense
              ltac:(discriminate))
    as (w' & keymap' & Hrun & Hkm & Hplan & _ & _ & Hsent & _ & _ & _ & _ & Hfail).
  exists w'. split; [exact Hrun|]. split; [exact Hsent|].
  split; [apply Hfail; vm_compute; lia|].
  split; [vm_compute in Hrun; injection Hrun as <-; reflexivity|].
  apply (proj1 (Hplan (Edit.mk 0 0 10 (Binding.mk 1 4 7)))).
  vm_compute. now left.
Defined.

(** * Further properties of the panel *)

(** ** Behaviour groups *)

Lemma filter_nil_iff {A} (p : A -> bool) (l : list A) :
  List.filter p l = [] <-> forall x, In x l -> p x = false.
Proof.
  induction l as [|x l IH]; simpl.
  - split; [intros _ ? [] | reflexivity].
  - destruct (p x) eqn:Hx.
    + split; [discriminate|]. intros H. specialize (H x (or_introl eq_refl)). congruence.
    + rewrite IH. split.
      * intros H y [<-|Hy]; auto.
      * intros H y Hy. apply H. now right.
Qed.

Lemma length_pos_not_nil {A} (l : list A) :
  (0 <? length l)%nat = true <-> l <> [].
Proof.
  destruct l; cbn; split; intros H; congruence || discriminate || reflexivity.
Qed.

Lemma supportsCategory_caps category b :
  supportsCategory category b = true -> isSome (getHidUsageCaps b) = true.
Proof. unfold supportsCategory. now destruct (getHidUsageCaps b). Qed.

Lemma fallback_shape {A} (all : list A) (p : A -> bool) :
  (if (length all =? 0)%nat then []
   else if (0 <? length (List.filter p all))%nat then List.filter p all else all)
  = match List.filter p all with [] => all | _ => List.filter p all end.
Proof.
  destruct all as [|a all]; [reflexivity|].
  cbn [length Nat.eqb].
  destruct (List.filter p (a :: all)); reflexivity.
Qed.

(** X1. The plain-key list for a category holds only behaviours of the
    given map that have HID-usage capabilities; it is empty exactly when no
    behaviour has any. When some capable behaviour serves the category it
    holds exactly those that do; when none does, the category restriction
    is dropped and it holds every capable behaviour. *)
Theorem getQuickHidUsageBehaviors_category_fallback behaviors category :
  (forall b, In b (getQuickHidUsageBehaviors behaviors category) ->
             In b behaviors /\ getHidUsageCaps b <> None)
  /\
  (getQuickHidUsageBehaviors behaviors category = [] <->
   forall b, In b behaviors -> getHidUsageCaps b = None)
  /\
  ((exists b, In b behaviors /\ supportsCategory category b = true) ->
   forall b, In b (getQuickHidUsageBehaviors behaviors category) <->
             In b behaviors /\ supportsCategory category b = true)
  /\
  ((forall b, In b behaviors -> supportsCategory category b = false) ->
   forall b, In b (getQuickHidUsageBehaviors behaviors category) <->
             In b behaviors /\ getHidUsageCaps b <> None).
Proof.
  pose proof (fallback_shape
                (List.filter (fun b => isSome (getHidUsageCaps b)) behaviors)
                (supportsCategory category)) as Hshape.
  unfold getQuickHidUsageBehaviors.
  change (fun b : Behavior.t => match getHidUsageCaps b with
                                | Some caps => _ | None => false end)
    with (supportsCategory category).
  rewrite Hshape. clear Hshape.
  set (all := List.filter (fun b => isSome (getHidUsageCaps b)) behaviors).
  assert (Hall : forall b, In b all <-> In b behaviors /\ getHidUsageCaps b <> None).
  { intros b. unfold all. rewrite filter_In, isSome_true. tauto. }
  assert (Hfil : forall b, In b (List.filter (supportsCategory category) all) <->
                           In b behaviors /\ supportsCategory category b = true).
  { intros b. rewrite filter_In, Hall. split; [tauto|].
    intros [Hin Hs]. repeat split; auto.
    apply isSome_true. now apply supportsCategory_caps in Hs. }
  clearbody all.
  destruct (List.filter (supportsCategory category) all) as [|x f] eqn:E.
  - assert (Hno : forall b, In b behaviors -> supportsCategory category b = false).
    { intros b Hb. destruct (supportsCategory category b) eqn:Hs; [|reflexivity].
      exfalso. apply (proj2 (Hfil b)). now split. }
    repeat apply conj.
    + intros b Hb. now apply Hall.
    + intros -> b Hb. destruct (getHidUsageCaps b) eqn:Hc; [|reflexivity].
      exfalso. apply (proj2 (Hall b)). split; [exact Hb | congruence].
    + intros H. destruct all as [|a all']; [reflexivity|]. exfalso.
      assert (Hin : In a (a :: all')) by now left.
      apply Hall in Hin as [Hin Hc]. apply Hc, H, Hin.
    + intros (b0 & Hb0 & Hs0). rewrite (Hno b0 Hb0) in Hs0. discriminate.
    + intros _ b. apply Hall.
  - assert (Hx : In x behaviors /\ supportsCategory category x = true).
    { apply Hfil. now left. }
    repeat apply conj.
    + intros b Hb. apply Hfil in Hb as [Hb Hs]. split; [exact Hb|].
      apply isSome_true. now apply supportsCategory_caps in Hs.
    + discriminate.
    + intros H. exfalso.
      destruct Hx as [Hx Hs]. apply supportsCategory_caps in Hs.
      rewrite (H x Hx) in Hs. discriminate.
    + intros _ b. apply Hfil.
    + intros Hnone. destruct Hx as [Hx Hs]. rewrite (Hnone x Hx) in Hs. discriminate.
Qed.

Lemma getQuickHidUsageBehaviors_category_fallback_witness :
  (forall b, In b (getQuickHidUsageBehaviors
                     [keyPressExample; consumerKeyExample; canonicalBluetooth] media) <->
             In b [keyPressExample; consumerKeyExample; canonicalBluetooth] /\
             supportsCategory media b = true)
  /\
  (forall b, In b (getQuickHidUsageBehaviors [layerTapMirrored; canonicalBluetooth] media) <->
             In b [layerTapMirrored; canonicalBluetooth] /\ getHidUsageCaps b <> None).
Proof.
  split.
  - apply (proj1 (proj2 (proj2 (getQuickHidUsageBehaviors_category_fallback
                                  [keyPressExample; consumerKeyExample; canonicalBluetooth]
                                  media)))).
    exists consumerKeyExample. split; [simpl; auto | reflexivity].
  - apply (proj2 (proj2 (proj2 (getQuickHidUsageBehaviors_category_fallback
                                  [layerTapMirrored; canonicalBluetooth] media)))).
    intros b [<-|[<-|[]]]; reflexivity.
Defined.

Lemma filter_or_all_In {A} (p : A -> bool) (l : list A) (x : A) :
  In x (if (0 <? length (List.filter p l))%nat then List.filter p l else l) <->
  In x l /\ ((exists y, In y l /\ p y = true) -> p x = true).
Proof.
  destruct (List.filter p l) as [|y f] eqn:E.
  - cbn. split.
    + intros Hx. split; [exact Hx|]. intros (y & Hy & Hp).
      apply (proj1 (filter_nil_iff p l)) with (x := y) in E; [congruence | exact Hy].
    + tauto.
  - cbn [length Nat.ltb Nat.leb]. rewrite <- E, filter_In. split.
    + tauto.
    + intros [Hx Hp]. split; [exact Hx|]. apply Hp. exists y.
      apply filter_In. rewrite E. now left.
Qed.

Lemma filter_or_all_nil {A} (p : A -> bool) (l : list A) :
  (if (0 <? length (List.filter p l))%nat then List.filter p l else l) = [] <-> l = [].
Proof.
  destruct (List.filter p l) as [|y f] eqn:E; cbn [length Nat.ltb Nat.leb].
  - tauto.
  - split; [discriminate|]. intros ->. discriminate.
Qed.

Lemma sortWith_In {A} (cmp : A -> A -> Z) (l : list A) (x : A) :
  In x (sortWith cmp l) <-> In x l.
Proof.
  split; apply Permutation_in;
    [apply sortWith_Permutation | symmetry; apply sortWith_Permutation].
Qed.

Lemma sortWith_nil {A} (cmp : A -> A -> Z) (l : list A) :
  sortWith cmp l = [] <-> l = [].
Proof.
  split.
  - intros H. apply Permutation_nil. rewrite <- H. apply sortWith_Permutation.
  - intros ->. reflexivity.
Qed.

Lemma namedForKind_named kind b :
  namedForKind kind b = true -> namedBluetoothOrOutput b = true.
Proof.
  unfold namedForKind, namedBluetoothOrOutput.
  destruct kind; intros ->; [reflexivity | apply orb_true_r].
Qed.

Lemma getQuickBluetoothBehaviors_In behaviors b :
  In b (getQuickBluetoothBehaviors behaviors) <->
  In b (getQuickBluetoothBase behaviors) /\
  ((exists y, In y (getQuickBluetoothBase behaviors) /\ namedBluetoothOrOutput y = true) ->
   namedBluetoothOrOutput b = true).
Proof. apply (filter_or_all_In namedBluetoothOrOutput). Qed.

Lemma bluetoothBehaviorsForKind_In localeCompare st b :
  In b (bluetoothBehaviorsForKind localeCompare st) <->
  In b (getQuickBluetoothBehaviors (Panel.behaviors st)) /\
  ((exists y, In y (getQuickBluetoothBehaviors (Panel.behaviors st)) /\
              namedForKind (Panel.bluetoothKind st) y = true) ->
   namedForKind (Panel.bluetoothKind st) b = true).
Proof.
  unfold bluetoothBehaviorsForKind.
  replace (fun b0 : Behavior.t =>
             testIgnoreCase
               match Panel.bluetoothKind st with
               | kindBluetooth => "bluetooth"
               | kindOutput => "output"
               end (Behavior.displayName b0))
    with (namedForKind (Panel.bluetoothKind st))
    by (unfold namedForKind; destruct (Panel.bluetoothKind st); reflexivity).
  rewrite filter_or_all_In. unfold bluetoothBehaviors.
  rewrite sortWith_In. split; intros [Hb Hk]; (split; [exact Hb|]).
  - intros (y & Hy & Hp). apply Hk. exists y. now rewrite sortWith_In.
  - intros (y & Hy & Hp). apply Hk. exists y. now rewrite sortWith_In in Hy.
Qed.

(** X2. The Bluetooth list shown for the chosen kind is drawn from the
    constant-only behaviours and is empty only when there are none. It
    holds exactly the constant-only behaviours named for the kind when
    there is one; when no constant-only behaviour is named "bluetooth" or
    "output" at all, both name filters fall back and every constant-only
    behaviour is shown. *)
Theorem bluetoothBehaviorsForKind_name_fallback
    (localeCompare : string -> string -> Z) (st : Panel.t) :
  let base := getQuickBluetoothBase (Panel.behaviors st) in
  let shown := bluetoothBehaviorsForKind localeCompare st in
  (forall b, In b shown -> In b base)
  /\ (shown = [] <-> base = [])
  /\ ((exists b, In b base /\ namedForKind (Panel.bluetoothKind st) b = true) ->
      forall b, In b shown <->
                In b base /\ namedForKind (Panel.bluetoothKind st) b = true)
  /\ ((exists b, In b base /\ namedBluetoothOrOutput b = true) ->
      forall b, In b shown -> namedBluetoothOrOutput b = true)
  /\ ((forall b, In b base -> namedBluetoothOrOutput b = false) ->
      forall b, In b shown <-> In b base).
Proof.
  intros base shown. split; [|split; [|split; [|split]]].
  - intros b Hb. apply bluetoothBehaviorsForKind_In in Hb as [Hb _].
    now apply getQuickBluetoothBehaviors_In in Hb as [Hb _].
  - unfold shown, bluetoothBehaviorsForKind, bluetoothBehaviors.
    rewrite filter_or_all_nil, sortWith_nil.
    apply (filter_or_all_nil _ base).
  - intros (y & Hy & Hk) b. unfold shown.
    rewrite bluetoothBehaviorsForKind_In, !getQuickBluetoothBehaviors_In.
    fold base. split.
    + intros [[Hb _] Hn]. split; [exact Hb|]. apply Hn. exists y.
      split; [|exact Hk]. apply getQuickBluetoothBehaviors_In. fold base.
      split; [exact Hy|]. intros _. now apply namedForKind_named with (kind := Panel.bluetoothKind st).
    + intros [Hb Hkb]. split; [split; [exact Hb|]|]; intros _; [|exact Hkb].
      now apply namedForKind_named with (kind := Panel.bluetoothKind st).
  - intros Hex b Hb. apply bluetoothBehaviorsForKind_In in Hb as [Hb _].
    apply getQuickBluetoothBehaviors_In in Hb as [_ Hn]. now apply Hn.
  - intros Hnone b. unfold shown.
    rewrite bluetoothBehaviorsForKind_In, !getQuickBluetoothBehaviors_In.
    fold base. split; [tauto|]. intros Hb. split; [split; [exact Hb|]|].
    + intros (y & Hy & Hn). rewrite (Hnone y Hy) in Hn. discriminate.
    + intros (y & Hy & Hk). apply getQuickBluetoothBehaviors_In in Hy as [Hy _].
      apply namedForKind_named in Hk. fold base in Hy.
      rewrite (Hnone y Hy) in Hk. discriminate.
Qed.

Lemma bluetoothBehaviorsForKind_name_fallback_witness :
  (forall b,
     In b (bluetoothBehaviorsForKind codeUnitCompare
             (kindPanel [canonicalBluetooth; outputSelection; keyPressExample] kindOutput)) <->
     In b (getQuickBluetoothBase [canonicalBluetooth; outputSelection; keyPressExample]) /\
     namedForKind kindOutput b = true)
  /\
  (forall b,
     In b (bluetoothBehaviorsForKind codeUnitCompare
             (kindPanel [constantOrRange; keyPressExample] kindOutput)) <->
     In b (getQuickBluetoothBase [constantOrRange; keyPressExample])).
Proof.
  split.
  - apply (proj1 (proj2 (proj2 (bluetoothBehaviorsForKind_name_fallback codeUnitCompare
             (kindPanel [canonicalBluetooth; outputSelection; keyPressExample] kindOutput))))).
    exists outputSelection. split; [vm_compute; auto | reflexivity].
  - apply (proj2 (proj2 (proj2 (proj2 (bluetoothBehaviorsForKind_name_fallback codeUnitCompare
             (kindPanel [constantOrRange; keyPressExample] kindOutput)))))).
    intros b Hb. vm_compute in Hb. destruct Hb as [<-|[]]. reflexivity.
Defined.

(** ** Constant choices *)

Lemma fold_left_flat_map {A B C} (f : C -> B -> C) (g : A -> list B) l acc :
  fold_left (fun acc x => fold_left f (g x) acc) l acc
  = fold_left f (flat_map g l) acc.
Proof.
  revert acc. induction l as [|x l IH]; intros acc; simpl; [reflexivity|].
  now rewrite fold_left_app, IH.
Qed.

Lemma addChoice_cases choices d :
  addChoice choices d =
  match Desc.constant d with
  | None => choices
  | Some c => if existsb (hasConstant c) choices then choices else (choices ++ [d])%list
  end.
Proof. reflexivity. Qed.

Lemma hasConstant_true c d : hasConstant c d = true <-> Desc.constant d = Some c.
Proof.
  unfold hasConstant. destruct (Desc.constant d) as [c'|].
  - rewrite Z.eqb_eq. split; congruence.
  - split; discriminate.
Qed.

Lemma fold_addChoice_In l : forall acc d,
  In d (fold_left addChoice l acc) <->
  In d acc \/
  exists c, Desc.constant d = Some c /\ existsb (hasConstant c) acc = false /\
            List.find (hasConstant c) l = Some d.
Proof.
  induction l as [|x l IH]; intros acc d; cbn [fold_left List.find].
  - split; [tauto|]. intros [H|(c & _ & _ & H)]; [exact H | discriminate].
  - rewrite IH, addChoice_cases. destruct (Desc.constant x) as [cx|] eqn:Hx.
    + destruct (existsb (hasConstant cx) acc) eqn:Hex.
      * split; (intros [H|(c & Hc & Hacc & Hf)]; [now left | right; exists c]).
        -- repeat split; auto. destruct (hasConstant c x) eqn:Hcx; [|exact Hf].
           apply hasConstant_true in Hcx. congruence.
        -- repeat split; auto. destruct (hasConstant c x) eqn:Hcx; [|exact Hf].
           apply hasConstant_true in Hcx. congruence.
      * split.
        -- intros [H|(c & Hc & Hacc & Hf)].
           ++ apply in_app_or in H as [H|[<-|[]]]; [now left|].
              right. exists cx. repeat split; auto.
              now rewrite (proj2 (hasConstant_true cx x) Hx).
           ++ rewrite existsb_app, orb_false_iff in Hacc. destruct Hacc as [Hacc Hxc].
              cbn in Hxc. rewrite orb_false_r in Hxc.
              right. exists c. repeat split; auto. now rewrite Hxc.
        -- intros [H|(c & Hc & Hacc & Hf)].
           ++ left. apply in_or_app. now left.
           ++ destruct (hasConstant c x) eqn:Hcx.
              ** inversion Hf; subst. left. apply in_or_app. right. now left.
              ** right. exists c. repeat split; auto.
                 rewrite existsb_app, Hacc. cbn. now rewrite Hcx.
    + split; (intros [H|(c & Hc & Hacc & Hf)]; [now left | right; exists c]).
      * repeat split; auto. unfold hasConstant at 1. now rewrite Hx.
      * repeat split; auto. unfold hasConstant at 1 in Hf. now rewrite Hx in Hf.
Qed.

Lemma fold_addChoice_NoDup l : forall acc,
  NoDup (map Desc.constant acc) ->
  NoDup (map Desc.constant (fold_left addChoice l acc)).
Proof.
  induction l as [|x l IH]; intros acc Hacc; cbn [fold_left]; [exact Hacc|].
  apply IH. rewrite addChoice_cases.
  destruct (Desc.constant x) as [cx|] eqn:Hx; [|exact Hacc].
  destruct (existsb (hasConstant cx) acc) eqn:Hex; [exact Hacc|].
  rewrite map_app. cbn [map]. rewrite Hx.
  apply NoDup_app. split; [exact Hacc|]. split; [|apply NoDup_singleton].
  intros o Ho Ho'. apply list_elem_of_singleton in Ho'. subst o.
  apply list_elem_of_In in Ho.
  apply in_map_iff in Ho as (d & Hd & Hin).
  apply (proj2 (hasConstant_true cx d)) in Hd.
  assert (existsb (hasConstant cx) acc = true)
    by (apply existsb_exists; now exists d).
  congruence.
Qed.

Lemma collectConstantChoices_In
    (localeCompare : string -> string -> Z) behavior param d :
  In d (collectConstantChoices localeCompare behavior param) <->
  exists c, Desc.constant d = Some c /\
            List.find (hasConstant c) (allDescs param behavior) = Some d.
Proof.
  unfold collectConstantChoices.
  rewrite (fold_left_flat_map addChoice (paramOf param)).
  fold (allDescs param behavior).
  rewrite sortWith_In, fold_addChoice_In. split.
  - intros [[]|(c & Hc & _ & Hf)]. now exists c.
  - intros (c & Hc & Hf). right. now exists c.
Qed.

Lemma collectConstantChoices_nonempty
    (localeCompare : string -> string -> Z) behavior param set :
  In set (Behavior.metadata behavior) ->
  existsb (fun p => isSome (Desc.constant p)) (paramOf param set) = true ->
  collectConstantChoices localeCompare behavior param <> [].
Proof.
  intros Hset Hex. apply existsb_exists in Hex as (d & Hd & Hc).
  destruct (Desc.constant d) as [c|] eqn:Hdc; [|discriminate].
  assert (Hin : In d (allDescs param behavior)).
  { apply in_flat_map. now exists set. }
  destruct (List.find (hasConstant c) (allDescs param behavior)) as [d'|] eqn:Hf.
  - assert (In d' (collectConstantChoices localeCompare behavior param)).
    { apply collectConstantChoices_In. exists c. split; [|exact Hf].
      apply find_some in Hf as [_ Hf]. now apply hasConstant_true. }
    intros E. rewrite E in H. destruct H.
  - exfalso. apply find_none with (x := d) in Hf; [|exact Hin].
    now rewrite (proj2 (hasConstant_true c d) Hdc) in Hf.
Qed.

(** X3. The constant choices of a parameter carry pairwise different
    values, and they are exactly the first descriptor of each value among
    those the behaviour declares for the parameter, over all its metadata
    sets: a later descriptor with a value already seen is dropped. *)
Theorem collectConstantChoices_first_of_each_value
    (localeCompare : string -> string -> Z) behavior param :
  NoDup (map Desc.constant (collectConstantChoices localeCompare behavior param))
  /\
  forall d, In d (collectConstantChoices localeCompare behavior param) <->
            exists c, Desc.constant d = Some c /\
                      List.find (hasConstant c) (allDescs param behavior) = Some d.
Proof.
  split; [|apply collectConstantChoices_In].
  unfold collectConstantChoices.
  rewrite (fold_left_flat_map addChoice (paramOf param)).
  rewrite (Permutation_map Desc.constant (sortWith_Permutation _ _)).
  apply fold_addChoice_NoDup. constructor.
Qed.

(** ** Mod-tap *)

Lemma modTapOrderOfSet_Some set o :
  modTapOrderOfSet set = Some o ->
  existsb (fun p => isSome (Desc.constant p)) (paramOf (ModTapOrder.modParam o) set) = true /\
  existsb (fun p => isSome (Desc.hidUsage p)) (paramOf (ModTapOrder.usageParam o) set) = true /\
  ModTapOrder.usageParam o = otherParamName (ModTapOrder.modParam o).
Proof.
  unfold modTapOrderOfSet.
  destruct (existsb _ (PSet.param1 set) && existsb _ (PSet.param2 set)) eqn:H1.
  - intros [= <-]. apply andb_true_iff in H1 as [Hc Hu]. now repeat split.
  - destruct (existsb _ (PSet.param2 set) && existsb _ (PSet.param1 set)) eqn:H2;
      [|discriminate].
    intros [= <-]. apply andb_true_iff in H2 as [Hc Hu]. now repeat split.
Qed.

Lemma inferModTapParamOrder_set b o :
  inferModTapParamOrder b = Some o ->
  exists set, In set (Behavior.metadata b) /\ modTapOrderOfSet set = Some o.
Proof.
  unfold inferModTapParamOrder. rewrite firstSet_Some.
  intros (pre & set & post & E & _ & Hs). exists set. split; [|exact Hs].
  rewrite E. apply in_or_app. right. now left.
Qed.

Lemma existsb_paramOf_both (p : Desc.t -> bool) param set :
  existsb p (paramOf param set) = true -> existsb p (bothParams set) = true.
Proof.
  unfold bothParams. rewrite existsb_app. intros H.
  destruct param; cbn [paramOf] in H; rewrite H; [reflexivity | apply orb_true_r].
Qed.

Lemma inferModTapParamOrder_choices (localeCompare : string -> string -> Z) b o :
  inferModTapParamOrder b = Some o ->
  exists c0 rest k,
    collectConstantChoices localeCompare b (ModTapOrder.modParam o) = c0 :: rest /\
    Desc.constant c0 = Some k.
Proof.
  intros Ho. apply inferModTapParamOrder_set in Ho as (set & Hset & Hs).
  apply modTapOrderOfSet_Some in Hs as (Hc & _ & _).
  pose proof (collectConstantChoices_nonempty localeCompare b _ set Hset Hc) as Hne.
  destruct (collectConstantChoices localeCompare b (ModTapOrder.modParam o))
    as [|c0 rest] eqn:E; [contradiction|].
  assert (Hin : In c0 (collectConstantChoices localeCompare b (ModTapOrder.modParam o)))
    by (rewrite E; now left).
  apply collectConstantChoices_In in Hin as (k & Hk & _).
  now exists c0, rest, k.
Qed.

(** X4. A behaviour for which a mod-tap order is inferred takes the
    modifier on one parameter and the usage on the other, is listed in the
    mod-tap group whenever it is in the behaviour map and declares no layer
    parameter, and has at least one constant choice for its modifier
    parameter. *)
Theorem inferModTapParamOrder_implies_group_and_choices
    (localeCompare : string -> string -> Z) behaviors b order :
  inferModTapParamOrder b = Some order ->
  ModTapOrder.usageParam order = otherParamName (ModTapOrder.modParam order)
  /\ (In b behaviors -> hasLayerIdParam b = false ->
      In b (getQuickModTapBehaviors behaviors))
  /\ collectConstantChoices localeCompare b (ModTapOrder.modParam order) <> [].
Proof.
  intros Ho.
  destruct (inferModTapParamOrder_choices localeCompare b order Ho)
    as (c0 & rest & k & E & _).
  apply inferModTapParamOrder_set in Ho as (set & Hset & Hs).
  apply modTapOrderOfSet_Some in Hs as (Hc & Hu & Hother).
  split; [exact Hother|]. split; [|rewrite E; discriminate].
  intros Hin Hlayer. unfold getQuickModTapBehaviors. apply filter_In.
  split; [exact Hin|]. rewrite Hlayer.
  assert (hasHidUsageParam b = true) as ->.
  { apply existsb_exists. exists set. split; [exact Hset|].
    now apply existsb_paramOf_both in Hu. }
  assert (hasConstantParam b = true) as ->.
  { apply existsb_exists. exists set. split; [exact Hset|].
    now apply existsb_paramOf_both in Hc. }
  reflexivity.
Qed.

Lemma inferModTapParamOrder_implies_group_and_choices_witness :
  ModTapOrder.usageParam (ModTapOrder.mk Param1 Param2) = otherParamName Param1
  /\ (In modTapExample [keyPressExample; modTapExample] ->
      hasLayerIdParam modTapExample = false ->
      In modTapExample (getQuickModTapBehaviors [keyPressExample; modTapExample]))
  /\ collectConstantChoices codeUnitCompare modTapExample Param1 <> [].
Proof.
  apply (inferModTapParamOrder_implies_group_and_choices codeUnitCompare
           [keyPressExample; modTapExample] modTapExample (ModTapOrder.mk Param1 Param2)).
  reflexivity.
Defined.


Lemma onUsageClicked_modTap localeCompare st b order M U :
  canEdit st = true ->
  Panel.behaviorGroup st = modTap ->
  modTapBehavior localeCompare st = Some b ->
  inferModTapParamOrder b = Some order ->
  Panel.modTapModifierValue st = Some M ->
  onUsageClicked localeCompare st U =
    Some (Binding.mk (Behavior.id b)
            (match ModTapOrder.modParam order with Param1 => M | Param2 => U end)
            (match ModTapOrder.modParam order with Param2 => M | Param1 => U end)).
Proof.
  intros Hedit Hg Hb Ho HM.
  destruct (inferModTapParamOrder_choices localeCompare b order Ho)
    as (c0 & rest & k & E & Hk).
  unfold onUsageClicked, paletteRendered. rewrite Hedit, Hg, Hb, HM.
  cbn [isSome andb negb]. cbv iota. now rewrite Ho, E.
Qed.

Lemma getQuickHidUsageBehaviors_In behaviors category b :
  In b (getQuickHidUsageBehaviors behaviors category) <->
  In b behaviors /\ hasHidUsageParam b = true /\
  ((exists y, In y behaviors /\ supportsCategory category y = true) ->
   supportsCategory category b = true).
Proof.
  unfold getQuickHidUsageBehaviors.
  change (fun b : Behavior.t => match getHidUsageCaps b with
                                | Some caps => _ | None => false end)
    with (supportsCategory category).
  rewrite fallback_shape.
  set (all := List.filter (fun b => isSome (getHidUsageCaps b)) behaviors).
  assert (Hall : forall x, In x all <-> In x behaviors /\ hasHidUsageParam x = true).
  { intros x. unfold all. rewrite filter_In, isSome_true, getHidUsageCaps_None.
    destruct (hasHidUsageParam x); intuition congruence. }
  transitivity (In b (if (0 <? length (List.filter (supportsCategory category) all))%nat
                      then List.filter (supportsCategory category) all else all)).
  { now destruct (List.filter (supportsCategory category) all). }
  rewrite filter_or_all_In, Hall. split.
  - intros [[Hb Hu] Hs]. repeat split; auto. intros (y & Hy & Hp). apply Hs.
    exists y. split; [|exact Hp]. apply Hall. split; [exact Hy|].
    apply supportsCategory_caps, isSome_true in Hp.
    destruct (hasHidUsageParam y) eqn:E; [reflexivity|].
    now apply getHidUsageCaps_None in E.
  - intros (Hb & Hu & Hs). repeat split; auto. intros (y & Hy & Hp). apply Hs.
    exists y. split; [|exact Hp]. now apply Hall in Hy.
Qed.

(** X6. The groups of the panel overlap only one way. A behaviour in the
    Bluetooth list is in no other list; no behaviour is in both the
    layer-tap and the mod-tap list; but every layer-tap or mod-tap
    behaviour is also offered as a plain key in each category its usage
    range serves. *)
Theorem behavior_groups_overlap behaviors b :
  (In b (getQuickBluetoothBehaviors behaviors) ->
   ~ In b (getQuickLayerTapBehaviors behaviors) /\
   ~ In b (getQuickModTapBehaviors behaviors) /\
   forall category, ~ In b (getQuickHidUsageBehaviors behaviors category))
  /\
  ~ (In b (getQuickLayerTapBehaviors behaviors) /\
     In b (getQuickModTapBehaviors behaviors))
  /\
  (In b (getQuickLayerTapBehaviors behaviors) \/
   In b (getQuickModTapBehaviors behaviors) ->
   forall category, supportsCategory category b = true ->
                    In b (getQuickHidUsageBehaviors behaviors category)).
Proof.
  unfold getQuickLayerTapBehaviors, getQuickModTapBehaviors.
  split; [|split].
  - intros Hb. apply getQuickBluetoothBehaviors_In in Hb as [Hb _].
    unfold getQuickBluetoothBase in Hb. apply filter_In in Hb as [Hb Hp].
    apply andb_true_iff in Hp as [Hp Hl]. apply andb_true_iff in Hp as [Hc Hu].
    apply negb_true_iff in Hl, Hu.
    split; [|split].
    + rewrite filter_In, Hl. cbn. intros [_ H]. discriminate.
    + rewrite filter_In, Hu. cbn. intros [_ H]. discriminate.
    + intros category. rewrite getQuickHidUsageBehaviors_In, Hu.
      intros (_ & H & _). discriminate.
  - rewrite !filter_In. intros [[_ H1] [_ H2]].
    apply andb_true_iff in H1 as [Hl _]. rewrite Hl in H2.
    cbn in H2. now rewrite andb_false_r in H2.
  - intros Hb category Hs. apply getQuickHidUsageBehaviors_In.
    assert (In b behaviors /\ hasHidUsageParam b = true) as [Hin Hu].
    { rewrite !filter_In in Hb. destruct Hb as [[Hin H]|[Hin H]]; (split; [exact Hin|]).
      - now apply andb_true_iff in H as [_ H].
      - apply andb_true_iff in H as [H _]. now apply andb_true_iff in H as [H _]. }
    repeat split; auto.
Qed.

Lemma behavior_groups_overlap_witness :
  In layerTapExample
     (getQuickHidUsageBehaviors [keyPressExample; layerTapExample; canonicalBluetooth] main)
  /\
  (~ In canonicalBluetooth
        (getQuickLayerTapBehaviors [keyPressExample; layerTapExample; canonicalBluetooth]) /\
   ~ In canonicalBluetooth
        (getQuickModTapBehaviors [keyPressExample; layerTapExample; canonicalBluetooth]) /\
   forall category,
     ~ In canonicalBluetooth
          (getQuickHidUsageBehaviors
             [keyPressExample; layerTapExample; canonicalBluetooth] category)).
Proof.
  split.
  - apply (proj2 (proj2 (behavior_groups_overlap
                           [keyPressExample; layerTapExample; canonicalBluetooth]
                           layerTapExample))).
    + left. vm_compute. auto.
    + reflexivity.
  - apply (proj1 (behavior_groups_overlap
                    [keyPressExample; layerTapExample; canonicalBluetooth]
                    canonicalBluetooth)).
    vm_compute. auto.
Defined.

(** ** Bluetooth *)

Lemma inferBluetoothParamOrder_profileParam behavior order p :
  inferBluetoothParamOrder behavior = Some order ->
  BluetoothOrder.profileParam order = Some p ->
  p = otherParamName (BluetoothOrder.actionParam order).
Proof.
  intros Ho Hp. pose proof (inferBluetoothParamOrder_resolved _ _ Ho) as Hr.
  unfold resolvedProfileParam in Hr. now rewrite Hp in Hr.
Qed.

(** X7. Bluetooth round trip: once the binding emitted by an action button
    is the selected binding, the effect that follows the selected binding
    sets the action cell to the constant of the pressed action. When the
    behaviour has a profile parameter the profile cell becomes the profile
    written into the binding, and that one follows the action that was
    selected when the button was pressed, not the pressed one: it is the
    chosen profile when a profile action was selected and 0 otherwise, so
    pressing "Select Profile" while "Next Profile" is selected leaves 0.
    Without a profile parameter the profile cell is cleared. *)
Theorem bluetooth_click_then_sync localeCompare st a click :
  bluetoothActionClick localeCompare st a = Some click ->
  exists behavior order value,
    bluetoothBehavior localeCompare st = Some behavior /\
    bluetoothOrder localeCompare st = Some order /\
    choiceConstant a = Some value /\
    bluetoothValuesEffect localeCompare
      (withSelectedBinding st (Some (BtClick.emitted click)))
    = (Some value,
       match BluetoothOrder.profileParam order with
       | Some _ =>
           Some (if wantsProfile localeCompare st
                 then effectiveProfile localeCompare st behavior order
                 else 0)
       | None => None
       end).
Proof.
  intros Hclick.
  destruct (bluetoothBehavior localeCompare st) as [behavior|] eqn:Hb;
    [|unfold bluetoothActionClick in Hclick; rewrite Hb in Hclick; discriminate].
  destruct (bluetoothOrder localeCompare st) as [order|] eqn:Ho;
    [|unfold bluetoothActionClick in Hclick; rewrite Hb, Ho in Hclick; discriminate].
  destruct (actionsRendered localeCompare st) eqn:Hr;
    [|unfold bluetoothActionClick in Hclick; rewrite Hb, Ho, Hr in Hclick; discriminate].
  destruct (choiceConstant a) as [value|] eqn:Hv;
    [|unfold bluetoothActionClick in Hclick; rewrite Hb, Ho, Hr, Hv in Hclick;
      discriminate].
  destruct (canEdit st) eqn:He;
    [|unfold bluetoothActionClick in Hclick; rewrite Hb, Ho, Hr, Hv, He in Hclick;
      discriminate].
  destruct (bluetoothActionClick_emitted localeCompare st behavior order a value
              Hb Ho Hr He Hv) as (click' & Hc' & Hid & Hact & Hoth).
  rewrite Hclick in Hc'. injection Hc' as <-.
  exists behavior, order, value. repeat split.
  assert (Horder : inferBluetoothParamOrder behavior = Some order).
  { unfold bluetoothOrder in Ho. now rewrite Hb in Ho. }
  unfold bluetoothValuesEffect, activeBluetooth.
  change (bluetoothBehavior localeCompare (withSelectedBinding st ?x))
    with (bluetoothBehavior localeCompare st).
  change (bluetoothOrder localeCompare (withSelectedBinding st ?x))
    with (bluetoothOrder localeCompare st).
  change (Panel.selectedBinding (withSelectedBinding st ?x)) with x.
  rewrite Hb, Ho, Hid, Z.eqb_refl. cbn [negb]. rewrite Hact.
  destruct (BluetoothOrder.profileParam order) as [p|] eqn:Hp; [|reflexivity].
  rewrite (inferBluetoothParamOrder_profileParam _ _ _ Horder Hp), Hoth.
  now destruct (wantsProfile localeCompare st).
Qed.

Lemma bluetooth_click_then_sync_witness :
  exists behavior order value,
    bluetoothBehavior codeUnitCompare profilesPanel = Some behavior /\
    bluetoothOrder codeUnitCompare profilesPanel = Some order /\
    choiceConstant ("Select Profile", Some (constantDesc "Select Profile" 13))
    = Some value /\
    bluetoothValuesEffect codeUnitCompare
      (withSelectedBinding profilesPanel (Some (Binding.mk 31 13 0)))
    = (Some value,
       match BluetoothOrder.profileParam order with
       | Some _ =>
           Some (if wantsProfile codeUnitCompare profilesPanel
                 then effectiveProfile codeUnitCompare profilesPanel behavior order
                 else 0)
       | None => None
       end).
Proof.
  apply (bluetooth_click_then_sync codeUnitCompare profilesPanel
           ("Select Profile", Some (constantDesc "Select Profile" 13))
           (BtClick.mk (Binding.mk 31 13 0) (Some 13) (Some 2))).
  vm_compute. reflexivity.
Defined.

(** ** Names *)

Lemma toLowerChar_idem c : toLowerChar (toLowerChar c) = toLowerChar c.
Proof. destruct c as [[] [] [] [] [] [] [] []]; reflexivity. Qed.

Lemma isSeparatorChar_toLowerChar c :
  isSeparatorChar (toLowerChar c) = isSeparatorChar c.
Proof. destruct c as [[] [] [] [] [] [] [] []]; reflexivity. Qed.

Lemma isSeparatorChar_fixed c : isSeparatorChar c = true -> toLowerChar c = c.
Proof. destruct c as [[] [] [] [] [] [] [] []]; intros H; try reflexivity; discriminate. Qed.

(** X8. On names whose characters lie below U+0100, where lower-casing
    acts on each character by itself, [normalizeName] yields a canonical
    form: normalising twice is normalising once, lower-casing the name
    first changes nothing, white space (the no-break space included),
    underscores and hyphens are dropped wherever they stand, the normal
    form of a concatenation is the concatenation of the normal forms, and
    the result holds no separator and no capital letter. *)
Theorem normalizeName_canonical :
  (forall s, normalizeName (normalizeName s) = normalizeName s)
  /\ (forall s, normalizeName (toLowerCase s) = normalizeName s)
  /\ (forall a b, normalizeName (a ++ b) = (normalizeName a ++ normalizeName b)%string)
  /\ (forall a c b, isSeparatorChar c = true ->
                    normalizeName (a ++ String c b) = normalizeName (a ++ b))
  /\ (forall s c, In c (list_ascii_of_string (normalizeName s)) ->
                  isSeparatorChar c = false /\ toLowerChar c = c).
Proof.
  assert (Happ : forall a b,
             normalizeName (a ++ b) = (normalizeName a ++ normalizeName b)%string).
  { induction a as [|c a IH]; intros b; [reflexivity|].
    change (String c a ++ b)%string with (String c (a ++ b)).
    cbn [normalizeName]. rewrite IH.
    now destruct (isSeparatorChar (toLowerChar c)). }
  split; [|split; [|split; [|split]]].
  - induction s as [|c s IH]; cbn [normalizeName]; [reflexivity|].
    destruct (isSeparatorChar (toLowerChar c)) eqn:E; [exact IH|].
    cbn [normalizeName]. now rewrite toLowerChar_idem, E, IH.
  - induction s as [|c s IH]; cbn [normalizeName toLowerCase]; [reflexivity|].
    now rewrite toLowerChar_idem, IH.
  - exact Happ.
  - intros a c b Hc. rewrite !Happ. cbn [normalizeName].
    now rewrite isSeparatorChar_toLowerChar, Hc.
  - induction s as [|c0 s IH]; intros c; cbn [normalizeName]; [intros []|].
    destruct (isSeparatorChar (toLowerChar c0)) eqn:E; [apply IH|].
    cbn [list_ascii_of_string]. intros [<-|Hin]; [|now apply IH].
    split; [exact E | apply toLowerChar_idem].
Qed.

Lemma normalizeName_canonical_witness :
  normalizeName ("Select" ++ String (ascii_of_nat 160) "Profile")
  = normalizeName ("Select" ++ "Profile")
  /\ isSeparatorChar "p" = false /\ toLowerChar "p" = "p"%char.
Proof.
  split.
  - apply (proj1 (proj2 (proj2 (proj2 normalizeName_canonical)))). reflexivity.
  - apply (proj2 (proj2 (proj2 (proj2 normalizeName_canonical))) "Select Profile").
    vm_compute. do 6 right. now left.
Defined.

(** ** Keeping the selectors valid *)

Lemma existsb_id_find offered id :
  existsb (fun b => Behavior.id b =? id) offered = true ->
  exists b, List.find (fun b => Behavior.id b =? id) offered = Some b /\ Behavior.id b = id.
Proof.
  intros H. destruct (List.find (fun b => Behavior.id b =? id) offered) as [b|] eqn:E.
  - exists b. split; [reflexivity|]. apply find_some in E as [_ E]. now apply Z.eqb_eq.
  - apply find_none_existsb in E. congruence.
Qed.

(** X9. Each effect that keeps a behaviour selector valid leaves no
    selection exactly when no behaviour is offered; otherwise it leaves the
    id of an offered behaviour, so the selected behaviour resolves. It keeps
    a selection that is offered, and running it again changes nothing. *)
Theorem defaultSelection_valid offered selected :
  (defaultSelection offered selected = None <-> offered = [])
  /\ (forall id, defaultSelection offered selected = Some id ->
                 exists b, findById (Some id) offered = Some b /\ Behavior.id b = id)
  /\ (forall id, selected = Some id -> In id (map Behavior.id offered) ->
                 defaultSelection offered selected = Some id)
  /\ defaultSelection offered (defaultSelection offered selected)
     = defaultSelection offered selected.
Proof.
  destruct offered as [|first rest].
  - split; [split; reflexivity|]. split; [discriminate|].
    split; [intros id _ []|reflexivity].
  - assert (Hfirst : existsb (fun b => Behavior.id b =? Behavior.id first) (first :: rest)
                     = true) by (cbn; now rewrite Z.eqb_refl).
    split; [|split; [|split]].
    + split; [|discriminate]. cbn. destruct selected as [id|]; [|discriminate].
      destruct (_ || _); discriminate.
    + intros id. unfold defaultSelection, findById. destruct selected as [id0|].
      * destruct (existsb (fun b => Behavior.id b =? id0) (first :: rest)) eqn:E;
          intros [= <-]; now apply existsb_id_find.
      * intros [= <-]. now apply existsb_id_find.
    + intros id -> Hin. unfold defaultSelection.
      assert (existsb (fun b => Behavior.id b =? id) (first :: rest) = true) as ->;
        [|reflexivity].
      apply in_map_iff in Hin as (b & Hb & Hin). apply existsb_exists.
      exists b. split; [exact Hin|]. now apply Z.eqb_eq.
    + unfold defaultSelection. destruct selected as [id|].
      * destruct (existsb (fun b => Behavior.id b =? id) (first :: rest)) eqn:E.
        -- now rewrite E.
        -- now rewrite Hfirst.
      * now rewrite Hfirst.
Qed.

Lemma defaultSelection_valid_witness :
  defaultSelection [keyPressExample; layerTapExample] (Some 5) = Some 5.
Proof.
  apply (proj1 (proj2 (proj2 (defaultSelection_valid
                                [keyPressExample; layerTapExample] (Some 5)))) 5).
  - reflexivity.
  - simpl. auto.
Defined.

(** X10. The effect on the layer-tap target leaves no target exactly when
    there are no layers; otherwise the target is the id of an existing
    layer: the current one when it exists, the first layer when it does
    not. *)
Theorem layerTapTargetLayerIdEffect_valid st :
  (layerTapTargetLayerIdEffect st = None <-> Panel.layers st = [])
  /\ (forall L, layerTapTargetLayerIdEffect st = Some L ->
                In L (map LayerInfo.id (Panel.layers st)))
  /\ (forall L, Panel.layerTapTargetLayerId st = Some L ->
                In L (map LayerInfo.id (Panel.layers st)) ->
                layerTapTargetLayerIdEffect st = Some L)
  /\ (forall l rest, Panel.layers st = l :: rest ->
                     (forall L, Panel.layerTapTargetLayerId st = Some L ->
                                ~ In L (map LayerInfo.id (Panel.layers st))) ->
                     layerTapTargetLayerIdEffect st = Some (LayerInfo.id l)).
Proof.
  unfold layerTapTargetLayerIdEffect.
  assert (Hex : forall L, existsb (fun l => LayerInfo.id l =? L) (Panel.layers st) = true
                          <-> In L (map LayerInfo.id (Panel.layers st))).
  { intros L. rewrite existsb_exists, in_map_iff. split; intros (l & H1 & H2).
    - exists l. split; [now apply Z.eqb_eq | exact H1].
    - exists l. split; [exact H2 | now apply Z.eqb_eq]. }
  repeat apply conj.
  - destruct (Panel.layerTapTargetLayerId st) as [t|].
    + destruct (existsb _ (Panel.layers st)) eqn:E.
      * intros H. discriminate.
      * destruct (Panel.layers st); [reflexivity | discriminate].
    + destruct (Panel.layers st); [reflexivity | discriminate].
  - intros ->. destruct (Panel.layerTapTargetLayerId st); reflexivity.
  - intros L. destruct (Panel.layerTapTargetLayerId st) as [t|].
    + destruct (existsb _ (Panel.layers st)) eqn:E.
      * intros [= <-]. now apply Hex.
      * destruct (Panel.layers st) as [|l rest]; [discriminate|].
        intros [= <-]. now left.
    + destruct (Panel.layers st) as [|l rest]; [discriminate|].
      intros [= <-]. now left.
  - intros L -> Hin. apply Hex in Hin. now rewrite Hin.
  - intros l rest Hl Hnot. destruct (Panel.layerTapTargetLayerId st) as [t|].
    + destruct (existsb _ (Panel.layers st)) eqn:E.
      * apply Hex in E. now apply Hnot in E.
      * now rewrite Hl.
    + now rewrite Hl.
Qed.

Lemma layerTapTargetLayerIdEffect_valid_witness :
  layerTapTargetLayerIdEffect (examplePanel layerTap [layerTapExample] 5) = Some 2.
Proof.
  apply (proj1 (proj2 (proj2 (layerTapTargetLayerIdEffect_valid
                                (examplePanel layerTap [layerTapExample] 5)))) 2).
  - reflexivity.
  - simpl. auto.
Defined.

(** ** Categories *)

Lemma Category_eqb_eq a b : Category_eqb a b = true <-> a = b.
Proof. destruct a, b; cbn; split; congruence. Qed.

(** X11. After its effect the palette category is always an allowed one:
    an allowed category stays, and the only category that can be refused
    is media, which is replaced by main. Media is refused only in the
    layer-tap or mod-tap group, when the selected behaviour has no consumer
    usage range. *)
Theorem categoryEffect_allowed localeCompare st :
  In (categoryEffect localeCompare st) (allowedCategories localeCompare st)
  /\ (In (Panel.category st) (allowedCategories localeCompare st) ->
      categoryEffect localeCompare st = Panel.category st)
  /\ (~ In (Panel.category st) (allowedCategories localeCompare st) ->
      Panel.category st = media /\ categoryEffect localeCompare st = main)
  /\ (~ In media (allowedCategories localeCompare st) ->
      exists b,
        (Panel.behaviorGroup st = layerTap /\ layerTapBehavior localeCompare st = Some b
         \/ Panel.behaviorGroup st = modTap /\ modTapBehavior localeCompare st = Some b)
        /\ supportsCategory media b = false).
Proof.
  assert (Hshape : allowedCategories localeCompare st = allCategories \/
                   (allowedCategories localeCompare st = [main; mods; nav; func] /\
                    exists b,
                      (Panel.behaviorGroup st = layerTap /\
                       layerTapBehavior localeCompare st = Some b
                       \/ Panel.behaviorGroup st = modTap /\
                          modTapBehavior localeCompare st = Some b)
                      /\ supportsCategory media b = false)).
  { unfold allowedCategories, supportsCategory.
    destruct (Panel.behaviorGroup st); auto.
    - destruct (layerTapBehavior localeCompare st) as [b|]; auto.
      destruct (getHidUsageCaps b) as [caps|] eqn:Hc.
      + destruct (0 <? Caps.consumerMax caps) eqn:E; auto.
        right. split; [reflexivity|]. exists b. rewrite Hc, E. auto.
      + right. split; [reflexivity|]. exists b. rewrite Hc. auto.
    - destruct (modTapBehavior localeCompare st) as [b|]; auto.
      destruct (getHidUsageCaps b) as [caps|] eqn:Hc.
      + destruct (0 <? Caps.consumerMax caps) eqn:E; auto.
        right. split; [reflexivity|]. exists b. rewrite Hc, E. auto.
      + right. split; [reflexivity|]. exists b. rewrite Hc. auto. }
  unfold categoryEffect.
  destruct Hshape as [-> | [-> Hb]].
  - repeat apply conj.
    + destruct (Panel.category st); cbn; auto 10.
    + destruct (Panel.category st); reflexivity.
    + intros H. exfalso. apply H. destruct (Panel.category st); cbn; auto 10.
    + intros H. exfalso. apply H. cbn. auto 10.
  - repeat apply conj.
    + destruct (Panel.category st); cbn; auto 10.
    + destruct (Panel.category st); cbn; try reflexivity. intuition discriminate.
    + intros H. destruct (Panel.category st); cbn;
        try (exfalso; apply H; cbn; auto 10; fail). now split.
    + intros _. exact Hb.
Qed.

Lemma categoryEffect_allowed_witness :
  categoryEffect codeUnitCompare
    (Panel.mk (Some 0) (bound (Binding.mk 1 4 0)) [layerTapMirrored] [LayerInfo.mk 0 "Base"]
              layerTap media kindBluetooth None (Some 6) (Some 0) None None None None None)
  = main.
Proof.
  apply (categoryEffect_allowed codeUnitCompare
    (Panel.mk (Some 0) (bound (Binding.mk 1 4 0)) [layerTapMirrored] [LayerInfo.mk 0 "Base"]
              layerTap media kindBluetooth None (Some 6) (Some 0) None None None None None)).
  vm_compute. intuition discriminate.
Defined.

(** * Further properties of the keymap editor *)

Lemma spliceStart_in_range index len :
  0 <= index -> (Z.to_nat index <= len)%nat -> spliceStart index len = Z.to_nat index.
Proof.
  intros H0 Hle. unfold spliceStart.
  destruct (index <? 0) eqn:E; [apply Z.ltb_lt in E; lia|].
  apply Nat.min_l. exact Hle.
Qed.

Lemma spliceIn_spliceOut {A} (index : Z) (l : list A) (x : A) :
  0 <= index -> l !! Z.to_nat index = Some x ->
  spliceIn index x (spliceOut index l) = l.
Proof.
  intros H0 Hx. pose proof (lookup_lt_Some _ _ _ Hx) as Hlt.
  unfold spliceIn, spliceOut.
  rewrite (spliceStart_in_range index (length l)) by lia.
  set (n := Z.to_nat index) in *.
  assert (Hlen : length (take n l ++ drop (S n) l) = (length l - 1)%nat).
  { rewrite length_app, length_take, length_drop. lia. }
  rewrite Hlen, (spliceStart_in_range index (length l - 1)) by (fold n; lia).
  fold n.
  assert (Htake : length (take n l) = n) by (rewrite length_take; lia).
  rewrite take_app_length' by (symmetry; exact Htake).
  rewrite drop_app_length' by (symmetry; exact Htake).
  now apply take_drop_middle.
Qed.

Lemma spliceOut_snoc {A} (l : list A) (x : A) :
  spliceOut (Z.of_nat (length l)) (l ++ [x]) = l.
Proof.
  unfold spliceOut. rewrite length_app. cbn [length].
  rewrite spliceStart_in_range by lia. rewrite Nat2Z.id.
  rewrite take_app_length, drop_ge by (rewrite length_app; cbn; lia).
  apply app_nil_r.
Qed.

Lemma Keymap_eta layers n km :
  layers = Keymap.layers km -> n = Keymap.availableLayers km ->
  Keymap.mk layers n = km.
Proof. intros -> ->. now destruct km. Qed.

Lemma removeLayer_doRemove_run {Dev} (device : Dev -> Request -> Response.t * Dev)
    cl captured live layerIndex (w : World.t Dev) r d :
  Closure.conn cl = true ->
  Closure.keymap cl = Some captured ->
  World.keymap w = Some live ->
  device (World.dev w) (RemoveLayer layerIndex) = (r, d) ->
  Response.removeLayerOk r = true ->
  removeLayer_doRemove device cl layerIndex w
  = (Done tt,
     World.mk (Some (Keymap.mk (spliceOut layerIndex (Keymap.layers live))
                               (Keymap.availableLayers live + 1)))
              (if layerIndex =? Z.of_nat (length (Keymap.layers captured)) - 1
               then layerIndex - 1 else World.selectedLayerIndex w)
              d (World.sent w ++ [RemoveLayer layerIndex])%list (World.alerts w)).
Proof.
  intros Hconn Hcl Hw Hd Hok.
  unfold removeLayer_doRemove. rewrite Hconn, Hcl.
  unfold bind at 1, call_rpc. rewrite Hd, Hok.
  unfold bind, ret, setKeymap, setSelectedLayerIndex, removeLayerRecipe.
  destruct (layerIndex =? Z.of_nat (length (Keymap.layers captured)) - 1);
    cbn [World.keymap World.selectedLayerIndex World.dev World.sent World.alerts];
    now rewrite Hw.
Qed.

Lemma removeLayer_doRestore_run {Dev} (device : Dev -> Request -> Response.t * Dev)
    cl live layerId atIndex layer (w : World.t Dev) r d :
  Closure.conn cl = true ->
  World.keymap w = Some live ->
  device (World.dev w) (RestoreLayer layerId atIndex) = (r, d) ->
  Response.restoreLayerOk r = Some layer ->
  removeLayer_doRestore device cl layerId atIndex w
  = (Done tt,
     World.mk (Some (Keymap.mk (spliceIn atIndex layer (Keymap.layers live))
                               (Keymap.availableLayers live - 1)))
              atIndex d (World.sent w ++ [RestoreLayer layerId atIndex])%list
              (World.alerts w)).
Proof.
  intros Hconn Hw Hd Hok.
  unfold removeLayer_doRestore. rewrite Hconn. cbn [negb].
  unfold bind at 1, call_rpc. rewrite Hd, Hok.
  unfold bind, ret, setKeymap, setSelectedLayerIndex, restoreLayerRecipe.
  cbn [World.keymap World.selectedLayerIndex World.dev World.sent World.alerts].
  now rewrite Hw.
Qed.

(** X12. Removing a layer and undoing it. [removeLayer] works on the
    keymap and the selection its callback captured, and the captured keymap
    may be older than the replica, for the callback is not renewed when the
    keymap changes. When the device confirms both requests, the removal
    asks the device to remove the captured index, takes what the replica
    has at that index out of it, and moves the selection down only if the
    index is the last one of the captured keymap; the undo asks the device
    to restore, at that index, the layer the captured keymap has there,
    puts the layer the device answers with into the replica, and selects
    it. Exactly these two requests are sent. When the callback captured
    the replica itself and the device answers with the removed layer, the
    two steps are a round trip: the replica holds one layer less in
    between and is again the keymap it was at the end. *)
Theorem removeLayer_then_restore {Dev} (device : Dev -> Request -> Response.t * Dev)
    cl captured live l restored (w : World.t Dev) r1 d1 r2 d2 :
  Closure.conn cl = true ->
  Closure.keymap cl = Some captured ->
  World.keymap w = Some live ->
  layerAt (Keymap.layers captured) (Closure.selectedLayerIndex cl) = Some l ->
  device (World.dev w) (RemoveLayer (Closure.selectedLayerIndex cl)) = (r1, d1) ->
  Response.removeLayerOk r1 = true ->
  device d1 (RestoreLayer (Layer.id l) (Closure.selectedLayerIndex cl)) = (r2, d2) ->
  Response.restoreLayerOk r2 = Some restored ->
  exists cmd undo w1 w2,
    removeLayer device cl = Done cmd /\
    cmd w = (Done undo, w1) /\
    World.keymap w1
    = Some (Keymap.mk (spliceOut (Closure.selectedLayerIndex cl) (Keymap.layers live))
                      (Keymap.availableLayers live + 1)) /\
    World.selectedLayerIndex w1
    = (if Closure.selectedLayerIndex cl =? Z.of_nat (length (Keymap.layers captured)) - 1
       then Closure.selectedLayerIndex cl - 1
       else World.selectedLayerIndex w) /\
    undo w1 = (Done tt, w2) /\
    World.keymap w2
    = Some (Keymap.mk (spliceIn (Closure.selectedLayerIndex cl) restored
                         (spliceOut (Closure.selectedLayerIndex cl)
                                    (Keymap.layers live)))
                      (Keymap.availableLayers live + 1 - 1)) /\
    World.selectedLayerIndex w2 = Closure.selectedLayerIndex cl /\
    World.sent w2
    = (World.sent w ++ [RemoveLayer (Closure.selectedLayerIndex cl);
                        RestoreLayer (Layer.id l) (Closure.selectedLayerIndex cl)])%list /\
    (captured = live -> restored = l ->
     S (length (spliceOut (Closure.selectedLayerIndex cl) (Keymap.layers live)))
     = length (Keymap.layers live) /\
     World.keymap w2 = Some live).
Proof.
  intros Hconn Hcl Hw Hl Hd1 Hok1 Hd2 Hok2.
  pose proof (layerAt_Some _ _ _ Hl) as [H0 Hlook].
  pose proof (lookup_lt_Some _ _ _ Hlook) as Hlt.
  unfold removeLayer. rewrite Hcl, Hl.
  pose proof (removeLayer_doRemove_run device cl captured live _ w r1 d1
                Hconn Hcl Hw Hd1 Hok1) as Hrun1.
  match type of Hrun1 with _ = (_, ?w1) =>
    pose proof (removeLayer_doRestore_run device cl _ (Layer.id l)
                  (Closure.selectedLayerIndex cl) restored w1 r2 d2
                  Hconn eq_refl Hd2 Hok2) as Hrun2
  end.
  eexists _, _, _, _. split; [reflexivity|].
  split; [unfold bind at 1; rewrite Hrun1; reflexivity|].
  split; [reflexivity|]. split; [reflexivity|].
  split; [exact Hrun2|].
  cbn [World.keymap World.selectedLayerIndex World.sent Keymap.layers
       Keymap.availableLayers].
  split; [reflexivity|]. split; [reflexivity|].
  split; [now rewrite <- app_assoc|].
  intros <- ->. split.
  - unfold spliceOut. rewrite spliceStart_in_range by lia.
    rewrite length_app, length_take, length_drop. lia.
  - rewrite (spliceIn_spliceOut _ _ _ H0 Hlook).
    f_equal. apply Keymap_eta; [reflexivity | lia].
Qed.

Lemma removeLayer_then_restore_witness :
  (exists cmd undo w1 w2,
     removeLayer (layerDevice 3 (Layer.mk 11 "Nav" [keyPress 7; keyPress 8; keyPress 9]))
                 (exampleClosure 1 None) = Done cmd /\
     cmd (exampleWorld tt 1) = (Done undo, w1) /\
     undo w1 = (Done tt, w2) /\
     World.keymap w2 = Some exampleKeymap /\
     World.selectedLayerIndex w2 = 1 /\
     World.sent w2 = [RemoveLayer 1; RestoreLayer 11 1])
  /\
  (exists cmd undo w1 w2,
     removeLayer restoringDevice (exampleClosure 1 None) = Done cmd /\
     cmd (World.mk (Some twoLayerKeymap) 1 tt [] []) = (Done undo, w1) /\
     World.keymap w1
     = Some (Keymap.mk [Layer.mk 10 "Base" [keyPress 4; keyPress 5]] 3) /\
     World.selectedLayerIndex w1 = 1 /\
     undo w1 = (Done tt, w2) /\
     World.sent w2 = [RemoveLayer 1; RestoreLayer 11 1] /\
     World.keymap w2
     = Some (Keymap.mk [Layer.mk 10 "Base" [keyPress 4; keyPress 5];
                        Layer.mk 10 "Base" [keyPress 4; keyPress 5]] 2)).
Proof.
  split.
  - destruct (removeLayer_then_restore
                (layerDevice 3 (Layer.mk 11 "Nav" [keyPress 7; keyPress 8; keyPress 9]))
                (exampleClosure 1 None) exampleKeymap exampleKeymap
                (Layer.mk 11 "Nav" [keyPress 7; keyPress 8; keyPress 9])
                (Layer.mk 11 "Nav" [keyPress 7; keyPress 8; keyPress 9])
                (exampleWorld tt 1)
                (fst (layerDevice 3 (Layer.mk 11 "Nav" [keyPress 7; keyPress 8; keyPress 9])
                                  tt AddLayer)) tt
                (fst (layerDevice 3 (Layer.mk 11 "Nav" [keyPress 7; keyPress 8; keyPress 9])
                                  tt AddLayer)) tt
                eq_refl eq_refl eq_refl eq_refl eq_refl eq_refl eq_refl eq_refl)
      as (cmd & undo & w1 & w2 & Hcmd & Hrun & _ & _ & Hundo & _ & Hsel & Hsent & Hround).
    exists cmd, undo, w1, w2. split; [exact Hcmd|]. split; [exact Hrun|].
    split; [exact Hundo|]. split; [exact (proj2 (Hround eq_refl eq_refl))|].
    split; [exact Hsel | exact Hsent].
  - destruct (removeLayer_then_restore restoringDevice
                (exampleClosure 1 None) exampleKeymap twoLayerKeymap
                (Layer.mk 11 "Nav" [keyPress 7; keyPress 8; keyPress 9])
                (Layer.mk 10 "Base" [keyPress 4; keyPress 5])
                (World.mk (Some twoLayerKeymap) 1 tt [] [])
                (fst (restoringDevice tt AddLayer)) tt
                (fst (restoringDevice tt AddLayer)) tt
                eq_refl eq_refl eq_refl eq_refl eq_refl eq_refl eq_refl eq_refl)
      as (cmd & undo & w1 & w2 & Hcmd & Hrun & Hkm1 & Hsel1 & Hundo & Hkm2 & _ & Hsent & _).
    exists cmd, undo, w1, w2. split; [exact Hcmd|]. split; [exact Hrun|].
    split; [exact Hkm1|]. split; [exact Hsel1|]. split; [exact Hundo|].
    split; [exact Hsent | exact Hkm2].
Defined.

Lemma addLayer_doAdd_run {Dev} (device : Dev -> Request -> Response.t * Dev)
    cl captured live (w : World.t Dev) r d index layer :
  Closure.conn cl = true ->
  Closure.keymap cl = Some captured ->
  World.keymap w = Some live ->
  device (World.dev w) AddLayer = (r, d) ->
  Response.addLayerOk r = Some (index, layer) ->
  addLayer_doAdd device cl w
  = (Done index,
     World.mk (Some (Keymap.mk (Keymap.layers live ++ [layer])%list
                               (Keymap.availableLayers live - 1)))
              (Z.of_nat (length (Keymap.layers captured)))
              d (World.sent w ++ [AddLayer])%list (World.alerts w)).
Proof.
  intros Hconn Hcl Hw Hd Hok.
  unfold addLayer_doAdd. rewrite Hconn, Hcl.
  unfold bind at 1, call_rpc. rewrite Hd, Hok.
  unfold bind, ret, setKeymap, setSelectedLayerIndex, addLayerRecipe.
  cbn [World.keymap World.selectedLayerIndex World.dev World.sent World.alerts].
  now rewrite Hw.
Qed.

Lemma addLayer_doRemove_run {Dev} (device : Dev -> Request -> Response.t * Dev)
    cl live layerIndex (w : World.t Dev) r d :
  Closure.conn cl = true ->
  World.keymap w = Some live ->
  device (World.dev w) (RemoveLayer layerIndex) = (r, d) ->
  Response.removeLayerOk r = true ->
  addLayer_doRemove device cl layerIndex w
  = (Done tt,
     World.mk (Some (Keymap.mk (spliceOut layerIndex (Keymap.layers live))
                               (Keymap.availableLayers live + 1)))
              (World.selectedLayerIndex w)
              d (World.sent w ++ [RemoveLayer layerIndex])%list (World.alerts w)).
Proof.
  intros Hconn Hw Hd Hok.
  unfold addLayer_doRemove. rewrite Hconn. cbn [negb].
  unfold bind at 1, call_rpc. rewrite Hd, Hok.
  unfold setKeymap, removeLayerRecipe.
  cbn [World.keymap World.selectedLayerIndex World.dev World.sent World.alerts].
  now rewrite Hw.
Qed.

(** X13. Adding a layer appends the layer the device returns and selects
    it. Undoing removes the layer at the index the device reported: when
    that is the appended position the replica is again the keymap it was;
    the selection is left one past the last layer, and the clamping effect
    then moves it to the last layer. *)
Theorem addLayer_then_undo {Dev} (device : Dev -> Request -> Response.t * Dev)
    cl keymap (w : World.t Dev) r1 d1 index layer r2 d2 :
  Closure.conn cl = true ->
  Closure.keymap cl = Some keymap ->
  World.keymap w = Some keymap ->
  device (World.dev w) AddLayer = (r1, d1) ->
  Response.addLayerOk r1 = Some (index, layer) ->
  device d1 (RemoveLayer index) = (r2, d2) ->
  Response.removeLayerOk r2 = true ->
  exists undo w1 w2,
    addLayer device cl w = (Done undo, w1) /\
    World.keymap w1
    = Some (Keymap.mk (Keymap.layers keymap ++ [layer])%list
                      (Keymap.availableLayers keymap - 1)) /\
    World.selectedLayerIndex w1 = Z.of_nat (length (Keymap.layers keymap)) /\
    undo w1 = (Done tt, w2) /\
    World.selectedLayerIndex w2 = Z.of_nat (length (Keymap.layers keymap)) /\
    World.sent w2 = (World.sent w ++ [AddLayer; RemoveLayer index])%list /\
    (index = Z.of_nat (length (Keymap.layers keymap)) ->
     World.keymap w2 = Some keymap /\
     World.keymap (clampSelectedLayer w2) = Some keymap /\
     World.selectedLayerIndex (clampSelectedLayer w2)
     = Z.of_nat (length (Keymap.layers keymap)) - 1).
Proof.
  intros Hconn Hcl Hw Hd1 Hok1 Hd2 Hok2.
  pose proof (addLayer_doAdd_run device cl keymap keymap w r1 d1 index layer
                Hconn Hcl Hw Hd1 Hok1) as Hrun1.
  match type of Hrun1 with _ = (_, ?w1) =>
    pose proof (addLayer_doRemove_run device cl _ index w1 r2 d2
                  Hconn eq_refl Hd2 Hok2) as Hrun2
  end.
  eexists _, _, _.
  split; [unfold addLayer, bind; rewrite Hrun1; reflexivity|].
  split; [reflexivity|]. split; [reflexivity|].
  split; [exact Hrun2|].
  cbn [World.keymap World.selectedLayerIndex World.sent Keymap.layers
       Keymap.availableLayers].
  split; [reflexivity|]. split; [now rewrite <- app_assoc|].
  intros ->. rewrite spliceOut_snoc.
  assert (Hkm : Keymap.mk (Keymap.layers keymap)
                          (Keymap.availableLayers keymap - 1 + 1) = keymap)
    by (apply Keymap_eta; [reflexivity | lia]).
  rewrite Hkm. split; [reflexivity|].
  unfold clampSelectedLayer.
  cbn [World.keymap World.selectedLayerIndex].
  assert ((Z.of_nat (length (Keymap.layers keymap)) - 1
           <? Z.of_nat (length (Keymap.layers keymap))) = true) as ->
    by (apply Z.ltb_lt; lia).
  split; reflexivity.
Qed.

Lemma addLayer_then_undo_witness :
  exists undo w1 w2,
    addLayer (layerDevice 3 blankLayer) (exampleClosure 0 None) (exampleWorld tt 0)
    = (Done undo, w1) /\
    World.keymap w1
    = Some (Keymap.mk (Keymap.layers exampleKeymap ++ [blankLayer])%list
                      (Keymap.availableLayers exampleKeymap - 1)) /\
    World.selectedLayerIndex w1 = Z.of_nat (length (Keymap.layers exampleKeymap)) /\
    undo w1 = (Done tt, w2) /\
    World.selectedLayerIndex w2 = Z.of_nat (length (Keymap.layers exampleKeymap)) /\
    World.sent w2 = ([] ++ [AddLayer; RemoveLayer 3])%list /\
    (3 = Z.of_nat (length (Keymap.layers exampleKeymap)) ->
     World.keymap w2 = Some exampleKeymap /\
     World.keymap (clampSelectedLayer w2) = Some exampleKeymap /\
     World.selectedLayerIndex (clampSelectedLayer w2)
     = Z.of_nat (length (Keymap.layers exampleKeymap)) - 1).
Proof.
  apply (addLayer_then_undo (layerDevice 3 blankLayer) (exampleClosure 0 None)
           exampleKeymap (exampleWorld tt 0)
           (fst (layerDevice 3 blankLayer tt AddLayer)) tt 3 blankLayer
           (fst (layerDevice 3 blankLayer tt AddLayer)) tt); reflexivity.
Defined.

(** X14. A layer edit the device refuses, or one attempted without a
    connection, raises and leaves the replica and the selection as they
    were: without a connection nothing is sent; a refused request is the
    only one sent. *)
Theorem failed_layer_edit_changes_nothing {Dev}
    (device : Dev -> Request -> Response.t * Dev) cl (w : World.t Dev) :
  (Closure.conn cl = false ->
   addLayer device cl w = (Raised NotConnected, w) /\
   (forall cmd, removeLayer device cl = Done cmd -> cmd w = (Raised NotConnected, w)))
  /\
  (forall keymap r d,
     Closure.conn cl = true -> Closure.keymap cl = Some keymap ->
     device (World.dev w) AddLayer = (r, d) ->
     Response.addLayerOk r = None ->
     addLayer device cl w
     = (Raised (FailedToAddLayer (Response.err r)),
        World.mk (World.keymap w) (World.selectedLayerIndex w) d
                 (World.sent w ++ [AddLayer])%list (World.alerts w)))
  /\
  (forall cmd r d,
     Closure.conn cl = true ->
     removeLayer device cl = Done cmd ->
     device (World.dev w) (RemoveLayer (Closure.selectedLayerIndex cl)) = (r, d) ->
     Response.removeLayerOk r = false ->
     cmd w
     = (Raised (FailedToRemoveLayer (Response.err r)),
        World.mk (World.keymap w) (World.selectedLayerIndex w) d
                 (World.sent w ++ [RemoveLayer (Closure.selectedLayerIndex cl)])%list
                 (World.alerts w))).
Proof.
  split; [|split].
  - intros Hconn. split.
    + unfold addLayer, bind, addLayer_doAdd. now rewrite Hconn.
    + intros cmd Hcmd. unfold removeLayer in Hcmd.
      destruct (Closure.keymap cl) as [keymap|]; [|discriminate].
      destruct (layerAt _ _); [|discriminate].
      injection Hcmd as <-. unfold bind, removeLayer_doRemove. now rewrite Hconn.
  - intros keymap r d Hconn Hcl Hd Hno.
    unfold addLayer, bind, addLayer_doAdd. rewrite Hconn, Hcl.
    unfold bind, call_rpc. now rewrite Hd, Hno.
  - intros cmd r d Hconn Hcmd Hd Hno. unfold removeLayer in Hcmd.
    destruct (Closure.keymap cl) as [keymap|] eqn:Hcl; [|discriminate].
    destruct (layerAt _ _); [|discriminate].
    injection Hcmd as <-. unfold bind at 1, removeLayer_doRemove.
    rewrite Hconn, Hcl. unfold bind, call_rpc. now rewrite Hd, Hno.
Qed.

Lemma failed_layer_edit_changes_nothing_witness :
  addLayer rejectingDevice (exampleClosure 0 None) (exampleWorld tt 0)
  = (Raised (FailedToAddLayer (Response.err rejectResponse)),
     World.mk (World.keymap (exampleWorld tt 0))
              (World.selectedLayerIndex (exampleWorld tt 0)) tt
              (World.sent (exampleWorld tt 0) ++ [AddLayer])%list
              (World.alerts (exampleWorld tt 0))).
Proof.
  apply (proj1 (proj2 (failed_layer_edit_changes_nothing rejectingDevice
                         (exampleClosure 0 None) (exampleWorld tt 0)))
           exampleKeymap rejectResponse tt); reflexivity.
Defined.

Lemma js_set_in_range {A} (arr : list (option A)) i v :
  (i < length arr)%nat -> js_set arr i v = <[i := v]> arr.
Proof.
  intros H. unfold js_set.
  destruct (i <? length arr)%nat eqn:E; [reflexivity|].
  apply Nat.ltb_ge in E. lia.
Qed.

Lemma js_set_undo {A} (arr : list (option A)) i v :
  (i < length arr)%nat -> js_set (js_set arr i v) i (js_get arr i) = arr.
Proof.
  intros H. rewrite (js_set_in_range arr) by exact H.
  rewrite js_set_in_range by (rewrite length_insert; exact H).
  rewrite list_insert_insert_eq. apply list_insert_id.
  unfold js_get. destruct (lookup_lt_is_Some_2 arr i H) as [slot Hs].
  now rewrite Hs.
Qed.

Lemma setBindingRecipe_undo layer keyPosition v keymap l :
  layerAt (Keymap.layers keymap) layer = Some l ->
  (keyPosition < length (Layer.bindings l))%nat ->
  exists keymap1,
    setBindingRecipe layer keyPosition v keymap = Some keymap1 /\
    bindingAt keymap1 layer keyPosition = v /\
    setBindingRecipe layer keyPosition (js_get (Layer.bindings l) keyPosition) keymap1
    = Some keymap.
Proof.
  intros Hl Hlt. pose proof (layerAt_Some _ _ _ Hl) as [H0 Hlook].
  unfold setBindingRecipe at 1. rewrite Hl. eexists. split; [reflexivity|].
  split.
  - unfold bindingAt. cbn [Keymap.layers].
    rewrite (layerAt_insert_same _ _ _ _ Hl). cbn [Layer.bindings].
    apply js_get_set_same.
  - unfold setBindingRecipe. cbn [Keymap.layers Keymap.availableLayers].
    rewrite (layerAt_insert_same _ _ _ _ Hl).
    cbn [Layer.id Layer.name Layer.bindings].
    rewrite js_set_undo by exact Hlt.
    rewrite list_insert_insert_eq. f_equal. apply Keymap_eta; [|reflexivity].
    apply list_insert_id. rewrite Hlook. now destruct l.
Qed.

(** X15. Undoing a key assignment is a round trip: when the selected key
    lies within the layer and the device confirms both requests, the
    replica shows the new binding after the edit and is again the keymap it
    was after the undo; the undo asks the device for the binding the
    callback captured. *)
Theorem doUpdateBinding_then_undo {Dev} (device : Dev -> Request -> Response.t * Dev)
    cl keymap keyPosition l binding (w : World.t Dev) r1 d1 r2 d2 :
  Closure.conn cl = true ->
  Closure.keymap cl = Some keymap ->
  World.keymap w = Some keymap ->
  Closure.selectedKeyPosition cl = Some keyPosition ->
  layerAt (Keymap.layers keymap) (Closure.selectedLayerIndex cl) = Some l ->
  (keyPosition < length (Layer.bindings l))%nat ->
  device (World.dev w) (SetLayerBinding (Layer.id l) keyPosition (Some binding))
  = (r1, d1) ->
  isRespOk (Response.setLayerBinding r1) = true ->
  device d1 (SetLayerBinding (Layer.id l) keyPosition
                             (js_get (Layer.bindings l) keyPosition))
  = (r2, d2) ->
  isRespOk (Response.setLayerBinding r2) = true ->
  exists cmd undo w1 w2 keymap1,
    doUpdateBinding device cl binding = Done (Some cmd) /\
    cmd w = (Done undo, w1) /\
    World.keymap w1 = Some keymap1 /\
    bindingAt keymap1 (Closure.selectedLayerIndex cl) keyPosition = Some binding /\
    undo w1 = (Done tt, w2) /\
    World.keymap w2 = Some keymap /\
    World.sent w2
    = (World.sent w
       ++ [SetLayerBinding (Layer.id l) keyPosition (Some binding);
           SetLayerBinding (Layer.id l) keyPosition
                           (js_get (Layer.bindings l) keyPosition)])%list.
Proof.
  intros Hconn Hcl Hw Hkp Hl Hlt Hd1 Hok1 Hd2 Hok2.
  destruct (setBindingRecipe_undo (Closure.selectedLayerIndex cl) keyPosition
              (Some binding) keymap l Hl Hlt) as (keymap1 & Hset & Hat & Hback).
  unfold doUpdateBinding. rewrite Hcl, Hkp, Hl, Hconn. cbn [negb].
  eexists _, _,
    (World.mk (Some keymap1) (World.selectedLayerIndex w) d1
              (World.sent w ++ [SetLayerBinding (Layer.id l) keyPosition (Some binding)])
              (World.alerts w)),
    (World.mk (Some keymap) (World.selectedLayerIndex w) d2
              ((World.sent w ++ [SetLayerBinding (Layer.id l) keyPosition (Some binding)])
               ++ [SetLayerBinding (Layer.id l) keyPosition
                                   (js_get (Layer.bindings l) keyPosition)])
              (World.alerts w)),
    keymap1.
  split; [reflexivity|].
  split.
  { unfold bind, call_rpc, ret, setKeymap. rewrite Hd1, Hok1.
    cbn [World.keymap World.selectedLayerIndex World.dev World.sent World.alerts].
    now rewrite Hw, Hset. }
  split; [reflexivity|]. split; [exact Hat|].
  split.
  { unfold bind, call_rpc, ret, setKeymap.
    cbn [World.keymap World.selectedLayerIndex World.dev World.sent World.alerts].
    rewrite Hd2, Hok2.
    cbn [World.keymap World.selectedLayerIndex World.dev World.sent World.alerts].
    now rewrite Hback. }
  split; [reflexivity|].
  cbn [World.sent]. now rewrite <- app_assoc.
Qed.

Lemma doUpdateBinding_then_undo_witness :
  exists cmd undo w1 w2 keymap1,
    doUpdateBinding acceptingDevice (exampleClosure 1 (Some 2%nat)) (Binding.mk 1 40 0)
    = Done (Some cmd) /\
    cmd (exampleWorld tt 1) = (Done undo, w1) /\
    World.keymap w1 = Some keymap1 /\
    bindingAt keymap1 1 2 = Some (Binding.mk 1 40 0) /\
    undo w1 = (Done tt, w2) /\
    World.keymap w2 = Some exampleKeymap /\
    World.sent w2
    = ([] ++ [SetLayerBinding 11 2 (Some (Binding.mk 1 40 0));
              SetLayerBinding 11 2 (keyPress 9)])%list.
Proof.
  apply (doUpdateBinding_then_undo acceptingDevice (exampleClosure 1 (Some 2%nat))
           exampleKeymap 2%nat (Layer.mk 11 "Nav" [keyPress 7; keyPress 8; keyPress 9])
           (Binding.mk 1 40 0) (exampleWorld tt 1) okResponse tt okResponse tt);
    try reflexivity.
  simpl. lia.
Defined.

(** X16. Each guard of [importKeymap] ends the import with one alert and
    nothing else: no request is sent and the replica is untouched. The
    guards are tried in the order connection, lock, keymap, JSON, layers,
    and the first that fails chooses the message. *)
Theorem importKeymap_guards {Dev} (device : Dev -> Request -> Response.t * Dev)
    cl file (w : World.t Dev) :
  let alerted msg :=
    importKeymap device cl file w
    = (Done tt,
       World.mk (World.keymap w) (World.selectedLayerIndex w) (World.dev w)
                (World.sent w) (World.alerts w ++ [msg])%list) in
  (Closure.conn cl = false -> alerted "Not connected")
  /\ (Closure.conn cl = true ->
      Closure.lockState cl = ZMK_STUDIO_CORE_LOCK_STATE_LOCKED ->
      alerted "Unlock the device to import a keymap")
  /\ (Closure.conn cl = true ->
      Closure.lockState cl = ZMK_STUDIO_CORE_LOCK_STATE_UNLOCKED ->
      Closure.keymap cl = None ->
      alerted "Keymap not loaded yet")
  /\ (forall keymap,
        Closure.conn cl = true ->
        Closure.lockState cl = ZMK_STUDIO_CORE_LOCK_STATE_UNLOCKED ->
        Closure.keymap cl = Some keymap ->
        (file = InvalidJSON -> alerted "Invalid JSON file") /\
        (file = Parsed None \/ file = Parsed (Some []) ->
         alerted "Invalid keymap format (missing layers)")).
Proof.
  intros alerted. unfold alerted, importKeymap, alert.
  split; [|split; [|split]].
  - now intros ->.
  - now intros -> ->.
  - now intros -> -> ->.
  - intros keymap -> -> ->. split.
    + now intros ->.
    + now intros [-> | ->].
Qed.

Lemma importKeymap_guards_witness :
  importKeymap acceptingDevice (exampleClosure 0 None) (Parsed (Some []))
               (exampleWorld tt 0)
  = (Done tt,
     World.mk (World.keymap (exampleWorld tt 0))
              (World.selectedLayerIndex (exampleWorld tt 0))
              (World.dev (exampleWorld tt 0)) (World.sent (exampleWorld tt 0))
              (World.alerts (exampleWorld tt 0)
               ++ ["Invalid keymap format (missing layers)"])%list).
Proof.
  apply (proj2 (proj2 (proj2 (proj2 (importKeymap_guards acceptingDevice
           (exampleClosure 0 None) (Parsed (Some [])) (exampleWorld tt 0))))
           exampleKeymap eq_refl eq_refl eq_refl)).
  now right.
Defined.

(** ** Import and export *)

Lemma map_insert_same {A B} (f : A -> B) (l : list A) i x y :
  l !! i = Some x -> f y = f x -> map f (<[i := y]> l) = map f l.
Proof.
  revert i. induction l as [|a l IH]; intros [|i] Hx Hf; try discriminate.
  - cbn in Hx. injection Hx as ->. cbn. now rewrite Hf.
  - cbn. f_equal. now apply IH.
Qed.

Lemma lookup_map {A B} (f : A -> B) (l : list A) i :
  map f l !! i = option_map f (l !! i).
Proof.
  revert i. induction l as [|a l IH]; intros [|i]; cbn; auto.
Qed.

Lemma In_insert {A} (l : list A) i x y :
  In x (<[i := y]> l) -> x = y \/ In x l.
Proof.
  revert i. induction l as [|a l IH]; intros [|i]; cbn; try tauto.
  - intros [<-|H]; auto.
  - intros [<-|H]; auto. apply IH in H. tauto.
Qed.

Lemma applyEdit_shape keymap e l :
  Keymap.layers keymap !! Edit.layerIndex e = Some l ->
  (Edit.keyPosition e < length (Layer.bindings l))%nat ->
  keymapShape (applyEdit keymap e) = keymapShape keymap /\
  (denseKeymap keymap -> denseKeymap (applyEdit keymap e)).
Proof.
  intros Hl Hlt. unfold applyEdit, setBindingRecipe, layerAt.
  assert ((Z.of_nat (Edit.layerIndex e) <? 0) = false) as -> by (apply Z.ltb_ge; lia).
  rewrite Nat2Z.id, Hl. rewrite js_set_in_range by exact Hlt. split.
  - unfold keymapShape. cbn [Keymap.layers Keymap.availableLayers]. f_equal.
    apply map_insert_same with (x := l); [exact Hl|].
    cbn [Layer.id Layer.name Layer.bindings]. now rewrite length_insert.
  - intros Hdense l' slot Hin Hslot. cbn [Keymap.layers] in Hin.
    apply In_insert in Hin as [-> | Hin].
    + cbn [Layer.bindings] in Hslot. apply In_insert in Hslot as [-> | Hslot];
        [discriminate|].
      apply (Hdense l slot); [|exact Hslot].
      apply list_elem_of_In. eapply list_elem_of_lookup_2. exact Hl.
    + now apply (Hdense l' slot).
Qed.

Lemma applyEdits_shape edits :
  forall keymap,
    (forall e, In e edits ->
               exists s, fst (keymapShape keymap) !! Edit.layerIndex e = Some s /\
                         (Edit.keyPosition e < snd s)%nat) ->
    keymapShape (applyEdits edits keymap) = keymapShape keymap /\
    (denseKeymap keymap -> denseKeymap (applyEdits edits keymap)).
Proof.
  induction edits as [|e edits IH]; intros keymap Hin; [now split|].
  cbn [applyEdits fold_left].
  destruct (Hin e (or_introl eq_refl)) as (s & Hs & Hlt).
  assert (exists l, Keymap.layers keymap !! Edit.layerIndex e = Some l /\
                    (Edit.keyPosition e < length (Layer.bindings l))%nat)
    as (l & Hl & Hlt').
  { unfold keymapShape in Hs. cbn [fst] in Hs. rewrite lookup_map in Hs.
    destruct (Keymap.layers keymap !! Edit.layerIndex e) as [l|] eqn:Hl;
      [|discriminate].
    exists l. split; [reflexivity|]. injection Hs as <-. exact Hlt. }
  destruct (applyEdit_shape keymap e l Hl Hlt') as [Hshape Hdense].
  fold (applyEdits edits (applyEdit keymap e)).
  destruct (IH (applyEdit keymap e)) as [Hshape' Hdense'].
  { intros e' He'. rewrite Hshape. apply Hin. now right. }
  split; [congruence | auto].
Qed.

(** X17. An import never changes the shape of the keymap: whatever the
    document holds and whatever the device answers, the replica keeps the
    id, the name and the number of keys of every layer and the number of
    available layers, every slot still holds a binding, and the selected
    layer is the same. *)
Theorem importKeymap_keeps_shape {Dev} (device : Dev -> Request -> Response.t * Dev)
    cl keymap importedLayers (w : World.t Dev) :
  Closure.conn cl = true ->
  Closure.lockState cl = ZMK_STUDIO_CORE_LOCK_STATE_UNLOCKED ->
  Closure.keymap cl = Some keymap ->
  World.keymap w = Some keymap ->
  denseKeymap keymap ->
  importedLayers <> [] ->
  exists w' keymap',
    importKeymap device cl (Parsed (Some importedLayers)) w = (Done tt, w') /\
    World.keymap w' = Some keymap' /\
    keymapShape keymap' = keymapShape keymap /\
    denseKeymap keymap' /\
    World.selectedLayerIndex w' = World.selectedLayerIndex w.
Proof.
  intros Hconn Hlock Hcl Hlive Hdense Hne.
  set (plan := plannedEdits keymap importedLayers).
  assert (Hvalid : forall e, In e plan ->
                     (Edit.layerIndex e < length (Keymap.layers keymap))%nat).
  { intros e He. apply plannedEdits_In in He as (l & ? & ? & ? & Hl & _).
    eapply lookup_lt_Some. exact Hl. }
  rewrite (importKeymap_runs_plan device cl keymap importedLayers w
             Hconn Hlock Hcl Hdense Hne).
  fold plan. unfold bind.
  rewrite (runEdits_result device plan w keymap Hlive Hvalid).
  cbv zeta. unfold ret.
  set (n := confirmedCount device (World.dev w) plan).
  do 2 eexists. split; [reflexivity|]. split; [reflexivity|].
  destruct (applyEdits_shape (take n plan) keymap) as [Hshape Hd].
  { intros e He.
    assert (Hin : In e plan).
    { rewrite <- (take_drop n plan). apply in_or_app. now left. }
    apply plannedEdits_In in Hin as (l & nb & old & next & Hl & _ & Hold & _).
    exists (Layer.id l, Layer.name l, length (Layer.bindings l)). split.
    - unfold keymapShape. cbn [fst]. now rewrite lookup_map, Hl.
    - cbn [snd]. now apply js_get_Some_lt in Hold. }
  split; [exact Hshape|]. split; [now apply Hd | reflexivity].
Qed.

Lemma importKeymap_keeps_shape_witness :
  exists w' keymap',
    importKeymap (countingDevice) (exampleClosure 0 None)
                 (Parsed (Some exampleDocument)) (exampleWorld 2%nat 0) = (Done tt, w') /\
    World.keymap w' = Some keymap' /\
    keymapShape keymap' = keymapShape exampleKeymap /\
    denseKeymap keymap' /\
    World.selectedLayerIndex w' = World.selectedLayerIndex (exampleWorld 2%nat 0).
Proof.
  apply (importKeymap_keeps_shape countingDevice (exampleClosure 0 None)
           exampleKeymap exampleDocument (exampleWorld 2%nat 0));
    try reflexivity.
  - apply exampleKeymap_dense.
  - discriminate.
Defined.

Lemma exportBindings_Some bindings out :
  exportBindings bindings = Some out -> bindings = map Some out.
Proof.
  revert out. induction bindings as [|[b|] rest IH]; intros out; cbn.
  - now intros [= <-].
  - destruct (exportBindings rest) as [out'|]; [|discriminate].
    intros [= <-]. cbn. rewrite <- (IH out' eq_refl). now destruct b.
  - discriminate.
Qed.

Lemma exportLayers_Some layers out :
  exportLayers layers = Some out ->
  length out = length layers /\
  forall i l, layers !! i = Some l ->
              exists e, out !! i = Some e /\
                        Layer.bindings l = map Some (ExportedLayer.bindings e).
Proof.
  revert out. induction layers as [|l0 rest IH]; intros out; cbn [exportLayers].
  - intros [= <-]. split; [reflexivity|]. intros i l H. discriminate.
  - destruct (exportBindings (Layer.bindings l0)) as [bs|] eqn:Hb; [|discriminate].
    destruct (exportLayers rest) as [out'|]; [|discriminate].
    intros [= <-]. destruct (IH out' eq_refl) as [Hlen Hlook]. split.
    + cbn. now rewrite Hlen.
    + intros [|i] l Hl.
      * cbn in Hl. injection Hl as <-. eexists. split; [reflexivity|].
        now apply exportBindings_Some.
      * cbn in Hl. now apply Hlook.
Qed.

Lemma Binding_eqb_refl b : Binding_eqb b b = true.
Proof. unfold Binding_eqb. now rewrite !Z.eqb_refl. Qed.

Lemma exported_plan_empty keymap layers :
  exportLayers (Keymap.layers keymap) = Some layers ->
  forall importedLayers,
    readBack layers = Parsed (Some importedLayers) ->
    plannedEdits keymap importedLayers = [].
Proof.
  intros Hexp importedLayers [= <-].
  destruct (exportLayers_Some _ _ Hexp) as [_ Hlook].
  destruct (plannedEdits keymap _) as [|e rest] eqn:E; [reflexivity|]. exfalso.
  assert (Hin : In e (e :: rest)) by now left.
  rewrite <- E in Hin.
  apply plannedEdits_In in Hin
    as (l & nb & old & next & Hl & Himp & Hold & Hnext & Hneq & _).
  destruct (Hlook _ _ Hl) as (x & Hx & Hbs).
  rewrite lookup_map, Hx in Himp. cbn in Himp. injection Himp as <-.
  rewrite Hbs in Hold. unfold js_get in Hold, Hnext.
  rewrite lookup_map in Hold. rewrite lookup_map in Hnext.
  destruct (ExportedLayer.bindings x !! Edit.keyPosition e) as [b|]; [|discriminate].
  cbn in Hold, Hnext. injection Hold as <-. injection Hnext as <-.
  unfold importedBinding in Hneq. cbn in Hneq.
  assert (Hb : Binding.mk (Binding.behaviorId b) (Binding.param1 b) (Binding.param2 b) = b)
    by now destruct b.
  rewrite Hb, Binding_eqb_refl in Hneq. discriminate.
Qed.

Lemma exportLayers_dense keymap layers :
  exportLayers (Keymap.layers keymap) = Some layers -> denseKeymap keymap.
Proof.
  intros Hexp l slot Hl Hslot.
  destruct (exportLayers_Some _ _ Hexp) as [_ Hlook].
  apply list_elem_of_In, list_elem_of_lookup_1 in Hl as [i Hi].
  destruct (Hlook _ _ Hi) as (x & _ & Hbs).
  rewrite Hbs in Hslot. apply in_map_iff in Hslot as (b & <- & _). discriminate.
Qed.

(** X18. Importing the file that [exportKeymap] has just written changes
    nothing: with a connected, unlocked device and a keymap of at least one
    layer, no request is sent, no alert is raised and the replica stays as
    it is. The export of a keymap without layers is refused by the import
    as a file without layers. *)
Theorem export_then_import_is_noop {Dev} (device : Dev -> Request -> Response.t * Dev)
    cl keymap layers (w : World.t Dev) :
  Closure.conn cl = true ->
  Closure.lockState cl = ZMK_STUDIO_CORE_LOCK_STATE_UNLOCKED ->
  Closure.keymap cl = Some keymap ->
  exportKeymap (Closure.keymap cl) = Download layers ->
  (Keymap.layers keymap <> [] ->
   importKeymap device cl (readBack layers) w = (Done tt, w))
  /\
  (Keymap.layers keymap = [] ->
   importKeymap device cl (readBack layers) w
   = (Done tt,
      World.mk (World.keymap w) (World.selectedLayerIndex w) (World.dev w)
               (World.sent w)
               (World.alerts w ++ ["Invalid keymap format (missing layers)"])%list)).
Proof.
  intros Hconn Hlock Hcl Hexp. rewrite Hcl in Hexp. unfold exportKeymap in Hexp.
  destruct (exportLayers (Keymap.layers keymap)) as [out|] eqn:Hout; [|discriminate].
  injection Hexp as <-.
  destruct (exportLayers_Some _ _ Hout) as [Hlen _].
  split.
  - intros Hne.
    assert (Himp : exists importedLayers,
               readBack out = Parsed (Some importedLayers) /\ importedLayers <> []).
    { eexists. split; [reflexivity|]. destruct out; [|discriminate].
      destruct (Keymap.layers keymap); [contradiction | discriminate]. }
    destruct Himp as (importedLayers & Hread & Hne').
    rewrite Hread.
    rewrite (importKeymap_runs_plan device cl keymap importedLayers w
               Hconn Hlock Hcl (exportLayers_dense _ _ Hout) Hne').
    rewrite (exported_plan_empty keymap out Hout importedLayers Hread).
    reflexivity.
  - intros Hnil. rewrite Hnil in Hlen. destruct out; [|discriminate].
    unfold importKeymap, readBack. now rewrite Hconn, Hlock, Hcl.
Qed.

Lemma export_then_import_is_noop_witness :
  importKeymap rejectingDevice (exampleClosure 0 None)
    (readBack [ExportedLayer.mk "Base" [Binding.mk 1 4 0; Binding.mk 1 5 0; Binding.mk 1 6 0];
               ExportedLayer.mk "Nav" [Binding.mk 1 7 0; Binding.mk 1 8 0; Binding.mk 1 9 0];
               ExportedLayer.mk "Fn" [Binding.mk 1 10 0; Binding.mk 1 11 0;
                                      Binding.mk 1 12 0]])
    (exampleWorld tt 0)
  = (Done tt, exampleWorld tt 0).
Proof.
  apply (proj1 (export_then_import_is_noop rejectingDevice (exampleClosure 0 None)
                  exampleKeymap _ (exampleWorld tt 0)
                  eq_refl eq_refl eq_refl eq_refl)).
  discriminate.
Defined.

(** * Properties of the key tester *)

Lemma findKeyPositionsFrom_empty_slot keymapBindings :
  forall i behaviors usage positions,
    In None keymapBindings ->
    findKeyPositionsFrom i keymapBindings behaviors usage positions = None.
Proof.
  induction keymapBindings as [|[b|] rest IH]; intros i behaviors usage positions Hin;
    cbn [findKeyPositionsFrom].
  - destruct Hin.
  - apply IH. destruct Hin as [H|H]; [discriminate | exact H].
  - reflexivity.
Qed.

Lemma findKeyPositionsFrom_dense keymapBindings behaviors usage :
  forall i positions,
    ~ In None keymapBindings ->
    findKeyPositionsFrom i keymapBindings behaviors usage positions
    = Some (positions ++
            List.filter
              (fun p =>
                 match js_get keymapBindings (p - i) with
                 | Some b =>
                     match extractHidUsageFromBinding b
                             (behaviors !! Binding.behaviorId b) with
                     | Some u => u =? usage
                     | None => false
                     end
                 | None => false
                 end)
              (seq i (length keymapBindings)))%list.
Proof.
  induction keymapBindings as [|[b|] rest IH]; intros i positions Hdense;
    cbn [findKeyPositionsFrom length seq List.filter].
  - now rewrite app_nil_r.
  - rewrite IH by (intros H; apply Hdense; now right).
    rewrite Nat.sub_diag. unfold js_get at 2. cbn [lookup list_lookup].
    f_equal.
    assert (Hext :
      List.filter
        (fun p => match js_get rest (p - S i) with
                  | Some b0 =>
                      match extractHidUsageFromBinding b0
                              (behaviors !! Binding.behaviorId b0) with
                      | Some u => u =? usage
                      | None => false
                      end
                  | None => false
                  end) (seq (S i) (length rest))
      = List.filter
          (fun p => match js_get (Some b :: rest) (p - i) with
                    | Some b0 =>
                        match extractHidUsageFromBinding b0
                                (behaviors !! Binding.behaviorId b0) with
                        | Some u => u =? usage
                        | None => false
                        end
                    | None => false
                    end) (seq (S i) (length rest))).
    { apply filter_ext_in. intros p Hp. apply in_seq in Hp.
      replace (p - i)%nat with (S (p - S i)) by lia. reflexivity. }
    rewrite Hext.
    destruct (extractHidUsageFromBinding b (behaviors !! Binding.behaviorId b))
      as [u|]; [destruct (u =? usage)|]; now rewrite <- ?app_assoc.
  - exfalso. apply Hdense. now left.
Qed.

Lemma filter_seq_sorted (p : nat -> bool) from count :
  StronglySorted lt (List.filter p (seq from count)).
Proof.
  revert from. induction count as [|count IH]; intros from; cbn [seq List.filter].
  - constructor.
  - destruct (p from); [|apply IH]. constructor; [apply IH|].
    apply Forall_forall. intros x Hx. apply list_elem_of_In, filter_In in Hx as [Hx _].
    apply in_seq in Hx. lia.
Qed.

Lemma In_None_dec {A} (l : list (option A)) : In None l \/ ~ In None l.
Proof.
  induction l as [|[a|] l IH]; cbn.
  - right. tauto.
  - destruct IH as [H|H]; [left; now right | right; intros [E|E]; [discriminate | auto]].
  - left. now left.
Qed.

(** X19. [findKeyPositionsByHidUsage] fails exactly when a slot of the
    layer is empty. Otherwise it returns, in increasing order and without
    repetition, exactly the positions whose binding carries the given usage
    in the parameter [extractHidUsageFromBinding] reads. *)
Theorem findKeyPositionsByHidUsage_exact keymapBindings behaviors usage :
  (findKeyPositionsByHidUsage keymapBindings behaviors usage = None <->
   In None keymapBindings)
  /\
  (forall positions,
     findKeyPositionsByHidUsage keymapBindings behaviors usage = Some positions ->
     (forall p,
        In p positions <->
        exists b,
          keymapBindings !! p = Some (Some b) /\
          extractHidUsageFromBinding b (behaviors !! Binding.behaviorId b)
          = Some usage) /\
     StronglySorted lt positions).
Proof.
  unfold findKeyPositionsByHidUsage.
  destruct (In_None_dec keymapBindings) as [Hin|Hdense].
  - rewrite (findKeyPositionsFrom_empty_slot _ _ _ _ _ Hin).
    split; [tauto | discriminate].
  - rewrite (findKeyPositionsFrom_dense _ _ _ _ _ Hdense). cbn [app].
    split; [split; [discriminate | contradiction]|].
    intros positions [= <-]. split; [|apply filter_seq_sorted].
    intros p. rewrite filter_In, in_seq, Nat.sub_0_r. unfold js_get. split.
    + intros [_ Hp].
      destruct (keymapBindings !! p) as [[b|]|]; try discriminate.
      exists b. split; [reflexivity|].
      destruct (extractHidUsageFromBinding b _) as [u|]; [|discriminate].
      apply Z.eqb_eq in Hp. now subst.
    + intros (b & Hb & Hu). rewrite Hb, Hu, Z.eqb_refl. split; [|reflexivity].
      apply lookup_lt_Some in Hb. lia.
Qed.

Lemma findKeyPositionsByHidUsage_exact_witness :
  (forall p,
     In p [1%nat; 2%nat] <->
     exists b,
       [Some (Binding.mk 1 5 0); Some (Binding.mk 1 4 0); Some (Binding.mk 5 2 4)] !! p
       = Some (Some b) /\
       extractHidUsageFromBinding b (exampleBehaviorRecord !! Binding.behaviorId b)
       = Some 4) /\
  StronglySorted lt [1%nat; 2%nat].
Proof.
  apply (proj2 (findKeyPositionsByHidUsage_exact
                  [Some (Binding.mk 1 5 0); Some (Binding.mk 1 4 0); Some (Binding.mk 5 2 4)]
                  exampleBehaviorRecord 4)).
  vm_compute. reflexivity.
Defined.

(** X20. For a behaviour with a single metadata set the key tester reads
    the usage from the same parameter as the panel: the usage parameter of
    the layer-tap order, or of the mod-tap order, as long as the other
    parameter declares no usage itself; when it does, the key tester reads
    nothing. For a plain key it reads [param1] when only [param1] declares a
    usage. *)
Theorem extractHidUsageFromBinding_agrees_with_panel binding b set :
  Behavior.metadata b = [set] ->
  (forall order,
     inferLayerTapParamOrder b = Some order ->
     extractHidUsageFromBinding binding (Some b)
     = if existsb (fun p => isSome (Desc.hidUsage p))
                  (paramOf (LayerTapOrder.layerParam order) set)
       then None
       else Some (bindingParam (LayerTapOrder.usageParam order) binding))
  /\
  (forall order,
     inferModTapParamOrder b = Some order ->
     extractHidUsageFromBinding binding (Some b)
     = if existsb (fun p => isSome (Desc.hidUsage p))
                  (paramOf (ModTapOrder.modParam order) set)
       then None
       else Some (bindingParam (ModTapOrder.usageParam order) binding))
  /\
  (existsb (fun p => isSome (Desc.hidUsage p)) (PSet.param1 set) = true ->
   extractHidUsageFromBinding binding (Some b)
   = if existsb (fun p => isSome (Desc.hidUsage p)) (PSet.param2 set)
     then None
     else Some (Binding.param1 binding)).
Proof.
  intros Hm.
  unfold extractHidUsageFromBinding, inferLayerTapParamOrder, inferModTapParamOrder.
  rewrite Hm. cbn [firstSet]. unfold layerTapOrderOfSet, modTapOrderOfSet.
  split; [|split].
  - intros order.
    destruct (existsb (fun p => isSome (Desc.hidUsage p)) (PSet.param1 set)) eqn:Hu1,
             (existsb (fun p => isSome (Desc.hidUsage p)) (PSet.param2 set)) eqn:Hu2,
             (existsb (fun p => isSome (Desc.layerId p)) (PSet.param1 set)),
             (existsb (fun p => isSome (Desc.layerId p)) (PSet.param2 set));
      cbn; intros [= <-];
      cbn [paramOf LayerTapOrder.layerParam LayerTapOrder.usageParam bindingParam];
      rewrite ?Hu1, ?Hu2; reflexivity.
  - intros order.
    destruct (existsb (fun p => isSome (Desc.hidUsage p)) (PSet.param1 set)) eqn:Hu1,
             (existsb (fun p => isSome (Desc.hidUsage p)) (PSet.param2 set)) eqn:Hu2,
             (existsb (fun p => isSome (Desc.constant p)) (PSet.param1 set)),
             (existsb (fun p => isSome (Desc.constant p)) (PSet.param2 set));
      cbn; intros [= <-];
      cbn [paramOf ModTapOrder.modParam ModTapOrder.usageParam bindingParam];
      rewrite ?Hu1, ?Hu2; reflexivity.
  - intros ->.
    now destruct (existsb (fun p => isSome (Desc.hidUsage p)) (PSet.param2 set)).
Qed.

Lemma extractHidUsageFromBinding_agrees_with_panel_witness :
  extractHidUsageFromBinding (Binding.mk 5 2 4) (Some layerTapExample)
  = if existsb (fun p => isSome (Desc.hidUsage p))
               (paramOf Param1 (PSet.mk [layerIdDesc "Layer"] [hidUsageDesc "Key" 231 4095]))
    then None
    else Some (bindingParam Param2 (Binding.mk 5 2 4)).
Proof.
  apply (proj1 (extractHidUsageFromBinding_agrees_with_panel (Binding.mk 5 2 4)
                  layerTapExample
                  (PSet.mk [layerIdDesc "Layer"] [hidUsageDesc "Key" 231 4095])
                  eq_refl) (LayerTapOrder.mk Param1 Param2)).
  reflexivity.
Defined.

Lemma NoDup_List_filter {A} (p : A -> bool) (l : list A) :
  NoDup l -> NoDup (List.filter p l).
Proof.
  induction l as [|x l IH]; cbn; [auto|].
  rewrite NoDup_cons. intros [Hx Hl]. destruct (p x); [|auto].
  apply NoDup_cons. split; [|auto].
  rewrite list_elem_of_In, filter_In, <- list_elem_of_In. tauto.
Qed.

Lemma existsb_Zeqb_In u l : existsb (Z.eqb u) l = true <-> In u l.
Proof.
  rewrite existsb_exists. split.
  - intros (x & Hx & E). apply Z.eqb_eq in E. now subst.
  - intros H. exists u. split; [exact H | apply Z.eqb_refl].
Qed.

Lemma length_take_30 {A} (x : A) (l : list A) : (length (take 30 (x :: l)) <= 30)%nat.
Proof. rewrite length_take. lia. Qed.

Lemma onKeyDown_invariant kc show e now s :
  testerInvariant s -> testerInvariant (fst (onKeyDown kc show e now s)).
Proof.
  intros (Hnd & Hsub & Hlen). unfold onKeyDown.
  destruct show; [|now repeat split].
  destruct (KeyEvent.typingTarget e); [now repeat split|].
  destruct (KeyEvent.repeat e); [now repeat split|].
  cbn [negb fst]. unfold testerInvariant.
  cbn [Tester.testerPressedUsages Tester.testerHitUsages Tester.testerEvents].
  split; [|split; [|apply length_take_30]].
  - destruct (kc (KeyEvent.code e)) as [u|]; [|exact Hnd].
    destruct (existsb (Z.eqb u) (Tester.testerPressedUsages s)) eqn:E; [exact Hnd|].
    apply NoDup_app. split; [exact Hnd|]. split; [|apply NoDup_singleton].
    intros x Hx Hx'. apply list_elem_of_singleton in Hx'. subst x.
    apply list_elem_of_In, existsb_Zeqb_In in Hx. congruence.
  - intros u Hu. destruct (kc (KeyEvent.code e)) as [u'|]; [|now apply Hsub].
    assert (Hin : In u (Tester.testerPressedUsages s) \/ u = u').
    { destruct (existsb (Z.eqb u') (Tester.testerPressedUsages s)); [now left|].
      apply in_app_or in Hu as [Hu|[Hu|[]]]; auto. }
    destruct (decide (u' ∈ Tester.testerHitUsages s)) as [Hd|Hd].
    + destruct Hin as [Hin| ->]; [now apply Hsub | exact Hd].
    + apply elem_of_union. destruct Hin as [Hin| ->].
      * left. now apply Hsub.
      * right. now apply elem_of_singleton.
Qed.

Lemma onKeyUp_invariant kc show e now s :
  testerInvariant s -> testerInvariant (fst (onKeyUp kc show e now s)).
Proof.
  intros (Hnd & Hsub & Hlen). unfold onKeyUp.
  destruct show; [|now repeat split].
  destruct (KeyEvent.typingTarget e); [now repeat split|].
  cbn [negb fst]. unfold testerInvariant.
  cbn [Tester.testerPressedUsages Tester.testerHitUsages Tester.testerEvents].
  split; [|split; [|apply length_take_30]].
  - destruct (kc (KeyEvent.code e)) as [u|]; [|exact Hnd].
    now apply NoDup_List_filter.
  - intros u Hu. apply Hsub. destruct (kc (KeyEvent.code e)) as [u'|]; [|exact Hu].
    now apply filter_In in Hu as [Hu _].
Qed.

Lemma handle_hit_grows kc s ev u :
  u ∈ Tester.testerHitUsages s -> u ∈ Tester.testerHitUsages (handle kc s ev).
Proof.
  intros Hu. destruct ev as [[[] e] now]; cbn [handle].
  - unfold onKeyDown. cbn [negb].
    destruct (KeyEvent.typingTarget e); [exact Hu|].
    destruct (KeyEvent.repeat e); [exact Hu|].
    cbn [fst Tester.testerHitUsages].
    destruct (kc (KeyEvent.code e)) as [u'|]; [|exact Hu].
    destruct (decide (u' ∈ Tester.testerHitUsages s)); [exact Hu|].
    apply elem_of_union. now left.
  - unfold onKeyUp. cbn [negb].
    destruct (KeyEvent.typingTarget e); exact Hu.
Qed.

(** X21. Whatever keys are pressed and released after a reset, the key
    tester never lists a usage as pressed twice, every pressed usage is
    also recorded as hit, at most 30 events are kept, and a usage once hit
    stays hit. A key-down puts its usage among the pressed and the hit
    ones, a key-up takes it out of the pressed ones only; events from a
    typing target and repeated key-downs are ignored and left to the
    browser. *)
Theorem keyTester_invariants (keyboardCodeToHidUsage : string -> option Z) :
  (forall evs, testerInvariant (handleAll keyboardCodeToHidUsage evs resetKeyTester))
  /\ (forall evs s u,
        u ∈ Tester.testerHitUsages s ->
        u ∈ Tester.testerHitUsages (handleAll keyboardCodeToHidUsage evs s))
  /\ (forall e now s u,
        KeyEvent.typingTarget e = false -> KeyEvent.repeat e = false ->
        keyboardCodeToHidUsage (KeyEvent.code e) = Some u ->
        In u (Tester.testerPressedUsages
                (fst (onKeyDown keyboardCodeToHidUsage true e now s))) /\
        u ∈ Tester.testerHitUsages
              (fst (onKeyDown keyboardCodeToHidUsage true e now s)))
  /\ (forall e now s u,
        KeyEvent.typingTarget e = false ->
        keyboardCodeToHidUsage (KeyEvent.code e) = Some u ->
        ~ In u (Tester.testerPressedUsages
                  (fst (onKeyUp keyboardCodeToHidUsage true e now s))) /\
        Tester.testerHitUsages (fst (onKeyUp keyboardCodeToHidUsage true e now s))
        = Tester.testerHitUsages s)
  /\ (forall e now s,
        KeyEvent.typingTarget e = true \/ KeyEvent.repeat e = true ->
        onKeyDown keyboardCodeToHidUsage true e now s = (s, false))
  /\ (forall e now s,
        KeyEvent.typingTarget e = true ->
        onKeyUp keyboardCodeToHidUsage true e now s = (s, false)).
Proof.
  split; [|split; [|split; [|split; [|split]]]].
  - intros evs.
    assert (Hgen : forall s, testerInvariant s ->
                             testerInvariant (handleAll keyboardCodeToHidUsage evs s)).
    { induction evs as [|ev evs IH]; intros s Hs; [exact Hs|].
      cbn [handleAll fold_left]. apply IH.
      destruct ev as [[[] e] now]; cbn [handle];
        [now apply onKeyDown_invariant | now apply onKeyUp_invariant]. }
    apply Hgen. repeat split; [constructor | intros u [] | cbn; lia].
  - induction evs as [|ev evs IH]; intros s u Hu; [exact Hu|].
    cbn [handleAll fold_left]. apply IH. now apply handle_hit_grows.
  - intros e now s u Ht Hr Hu. unfold onKeyDown. rewrite Ht, Hr, Hu.
    cbn [negb fst Tester.testerPressedUsages Tester.testerHitUsages]. split.
    + destruct (existsb (Z.eqb u) (Tester.testerPressedUsages s)) eqn:E.
      * now apply existsb_Zeqb_In.
      * apply in_or_app. right. now left.
    + destruct (decide (u ∈ Tester.testerHitUsages s)) as [Hd|Hd]; [exact Hd|].
      apply elem_of_union. right. now apply elem_of_singleton.
  - intros e now s u Ht Hu. unfold onKeyUp. rewrite Ht, Hu.
    cbn [negb fst Tester.testerPressedUsages Tester.testerHitUsages].
    split; [|reflexivity].
    rewrite filter_In, Z.eqb_refl. cbn. intros [_ H]. discriminate.
  - intros e now s [Ht|Hr]; unfold onKeyDown; cbn [negb].
    + now rewrite Ht.
    + rewrite Hr. now destruct (KeyEvent.typingTarget e).
  - intros e now s Ht. unfold onKeyUp. cbn [negb]. now rewrite Ht.
Qed.

Lemma keyTester_invariants_witness :
  (In 458756 (Tester.testerPressedUsages
                (fst (onKeyDown exampleCodes true (aKeyEvent "KeyA") 0 resetKeyTester))) /\
   458756 ∈ Tester.testerHitUsages
              (fst (onKeyDown exampleCodes true (aKeyEvent "KeyA") 0 resetKeyTester)))
  /\
  onKeyDown exampleCodes true (KeyEvent.mk false true "KeyA" "a") 1 resetKeyTester
  = (resetKeyTester, false).
Proof.
  split.
  - apply (proj1 (proj2 (proj2 (keyTester_invariants exampleCodes)))
             (aKeyEvent "KeyA") 0 resetKeyTester 458756); reflexivity.
  - apply (proj1 (proj2 (proj2 (proj2 (proj2 (keyTester_invariants exampleCodes)))))
             (KeyEvent.mk false true "KeyA" "a") 1 resetKeyTester).
    now right.
Defined.






(** X23. The profile control emits a binding only for a profile action
    (when [wantsProfile] holds) on an editable key. The binding names the
    selected behaviour, carries the selected action in the action
    parameter and the new profile in the other one; once it is the selected
    binding, the effect that follows the selected binding keeps the action
    and, for a behaviour with a profile parameter, takes over the new
    profile. *)
Theorem bluetoothProfileChange_then_sync localeCompare st nextProfile binding :
  bluetoothProfileChange localeCompare st nextProfile = Some binding ->
  exists behavior order sel,
    bluetoothBehavior localeCompare st = Some behavior /\
    bluetoothOrder localeCompare st = Some order /\
    selectedAction localeCompare st = Some sel /\
    wantsProfile localeCompare st = true /\
    canEdit st = true /\
    Binding.behaviorId binding = Behavior.id behavior /\
    bindingParam (BluetoothOrder.actionParam order) binding = sel /\
    bindingParam (otherParamName (BluetoothOrder.actionParam order)) binding
    = nextProfile /\
    bluetoothValuesEffect localeCompare (withSelectedBinding st (Some binding))
    = (Some sel,
       match BluetoothOrder.profileParam order with
       | Some _ => Some nextProfile
       | None => None
       end).
Proof.
  intros Hchange. unfold bluetoothProfileChange in Hchange.
  destruct (bluetoothBehavior localeCompare st) as [behavior|] eqn:Hb; [|discriminate].
  destruct (bluetoothOrder localeCompare st) as [order|] eqn:Ho; [|discriminate].
  destruct (negb (actionsRendered localeCompare st)
            || negb (needsProfile localeCompare st behavior order)); [discriminate|].
  destruct (negb _); [discriminate|].
  destruct (canEdit st) eqn:He; [|discriminate].
  destruct (wantsProfile localeCompare st) eqn:Hw; [|discriminate].
  cbn [negb orb] in Hchange.
  destruct (selectedAction localeCompare st) as [sel|] eqn:Hs; [|discriminate].
  assert (Horder : inferBluetoothParamOrder behavior = Some order).
  { unfold bluetoothOrder in Ho. now rewrite Hb in Ho. }
  rewrite (inferBluetoothParamOrder_resolved _ _ Horder) in Hchange.
  injection Hchange as <-.
  exists behavior, order, sel.
  assert (Hact : forall a b : Z,
             bindingParam (BluetoothOrder.actionParam order)
               (Binding.mk (Behavior.id behavior)
                  match BluetoothOrder.actionParam order with
                  | Param1 => a
                  | Param2 =>
                      if ParamName_eqb (otherParamName (BluetoothOrder.actionParam order))
                                       Param1 then b else 0
                  end
                  match BluetoothOrder.actionParam order with
                  | Param1 =>
                      if ParamName_eqb (otherParamName (BluetoothOrder.actionParam order))
                                       Param2 then b else 0
                  | Param2 => a
                  end) = a
             /\
             bindingParam (otherParamName (BluetoothOrder.actionParam order))
               (Binding.mk (Behavior.id behavior)
                  match BluetoothOrder.actionParam order with
                  | Param1 => a
                  | Param2 =>
                      if ParamName_eqb (otherParamName (BluetoothOrder.actionParam order))
                                       Param1 then b else 0
                  end
                  match BluetoothOrder.actionParam order with
                  | Param1 =>
                      if ParamName_eqb (otherParamName (BluetoothOrder.actionParam order))
                                       Param2 then b else 0
                  | Param2 => a
                  end) = b).
  { intros a b. destruct (BluetoothOrder.actionParam order); now cbn. }
  destruct (Hact sel nextProfile) as [Ha Hp].
  do 5 (split; [reflexivity|]). split; [reflexivity|].
  split; [exact Ha|]. split; [exact Hp|].
  unfold bluetoothValuesEffect, activeBluetooth.
  change (bluetoothBehavior localeCompare (withSelectedBinding st ?x))
    with (bluetoothBehavior localeCompare st).
  change (bluetoothOrder localeCompare (withSelectedBinding st ?x))
    with (bluetoothOrder localeCompare st).
  change (Panel.selectedBinding (withSelectedBinding st ?x)) with x.
  rewrite Hb, Ho. cbn [Binding.behaviorId]. rewrite Z.eqb_refl. cbn [negb].
  rewrite Ha.
  destruct (BluetoothOrder.profileParam order) as [p|] eqn:Hpp; [|reflexivity].
  now rewrite (inferBluetoothParamOrder_profileParam _ _ _ Horder Hpp), Hp.
Qed.

Lemma bluetoothProfileChange_then_sync_witness :
  exists behavior order sel,
    bluetoothBehavior codeUnitCompare
      (bluetoothPanel bluetoothWithProfiles (Some 13) (Some 2)) = Some behavior /\
    bluetoothOrder codeUnitCompare
      (bluetoothPanel bluetoothWithProfiles (Some 13) (Some 2)) = Some order /\
    selectedAction codeUnitCompare
      (bluetoothPanel bluetoothWithProfiles (Some 13) (Some 2)) = Some sel /\
    wantsProfile codeUnitCompare
      (bluetoothPanel bluetoothWithProfiles (Some 13) (Some 2)) = true /\
    canEdit (bluetoothPanel bluetoothWithProfiles (Some 13) (Some 2)) = true /\
    Binding.behaviorId (Binding.mk 31 13 4) = Behavior.id behavior /\
    bindingParam (BluetoothOrder.actionParam order) (Binding.mk 31 13 4) = sel /\
    bindingParam (otherParamName (BluetoothOrder.actionParam order)) (Binding.mk 31 13 4)
    = 4 /\
    bluetoothValuesEffect codeUnitCompare
      (withSelectedBinding (bluetoothPanel bluetoothWithProfiles (Some 13) (Some 2))
                           (Some (Binding.mk 31 13 4)))
    = (Some sel,
       match BluetoothOrder.profileParam order with
       | Some _ => Some 4
       | None => None
       end).
Proof.
  apply (bluetoothProfileChange_then_sync codeUnitCompare
           (bluetoothPanel bluetoothWithProfiles (Some 13) (Some 2)) 4
           (Binding.mk 31 13 4)).
  vm_compute. reflexivity.
Defined.

(** * Properties of the key preview *)

Lemma findById_In id l b : findById id l = Some b -> In b l.
Proof.
  intros H. apply findById_Some in H as [_ H]. now apply find_some in H as [H _].
Qed.

Lemma layerTapBehavior_group localeCompare st b :
  layerTapBehavior localeCompare st = Some b ->
  hasLayerIdParam b && hasHidUsageParam b = true.
Proof.
  intros H. apply findById_In in H. unfold layerTapBehaviors in H.
  apply sortWith_In in H. unfold getQuickLayerTapBehaviors in H.
  now apply filter_In in H as [_ H].
Qed.

Lemma bluetoothBehavior_group localeCompare st b :
  bluetoothBehavior localeCompare st = Some b ->
  hasConstantParam b = true /\ hasHidUsageParam b = false /\ hasLayerIdParam b = false.
Proof.
  intros H. apply findById_In in H.
  apply bluetoothBehaviorsForKind_In in H as [H _].
  apply getQuickBluetoothBehaviors_In in H as [H _].
  unfold getQuickBluetoothBase in H. apply filter_In in H as [_ H].
  apply andb_true_iff in H as [H Hl]. apply andb_true_iff in H as [Hc Hu].
  apply negb_true_iff in Hl, Hu. auto.
Qed.

(** X24. The keymap view decodes what the panel encodes for a layer-tap:
    the binding emitted for target layer [L] and usage [U] is previewed as a
    layer-tap of layer [L], with the layer of that id if the keymap has
    one, and tapped usage [U], unless the behaviour is named like a
    Bluetooth behaviour and has recognised action constants. *)
Theorem preview_decodes_layerTap localeCompare st b order L U keymap :
  canEdit st = true ->
  Panel.behaviorGroup st = layerTap ->
  layerTapBehavior localeCompare st = Some b ->
  inferLayerTapParamOrder b = Some order ->
  Panel.layerTapTargetLayerId st = Some L ->
  (namedBluetoothOrOutput b && hasConstantParam b = false \/
   Preview.inferBluetoothParamOrder b = None) ->
  exists binding,
    onUsageClicked localeCompare st U = Some binding /\
    Preview.KeyPreview (Some b) binding keymap
    = Preview.ShowLayerTap L (List.find (fun l => Layer.id l =? L) (Keymap.layers keymap)) U.
Proof.
  intros Hedit Hg Hb Ho HL Hbt.
  eexists. split;
    [apply (onUsageClicked_layerTap localeCompare st b order L U); assumption|].
  pose proof (layerTapBehavior_group _ _ _ Hb) as Hgroup.
  unfold Preview.KeyPreview. fold (namedBluetoothOrOutput b).
  rewrite Hgroup, Ho.
  assert (Hdecode :
    Preview.ShowLayerTap
      (bindingParam (LayerTapOrder.layerParam order)
         match LayerTapOrder.layerParam order with
         | Param1 => Binding.mk (Behavior.id b) L U
         | Param2 => Binding.mk (Behavior.id b) U L
         end)
      (List.find
         (fun l => Layer.id l =?
                   bindingParam (LayerTapOrder.layerParam order)
                     match LayerTapOrder.layerParam order with
                     | Param1 => Binding.mk (Behavior.id b) L U
                     | Param2 => Binding.mk (Behavior.id b) U L
                     end) (Keymap.layers keymap))
      (bindingParam (LayerTapOrder.usageParam order)
         match LayerTapOrder.layerParam order with
         | Param1 => Binding.mk (Behavior.id b) L U
         | Param2 => Binding.mk (Behavior.id b) U L
         end)
    = Preview.ShowLayerTap L (List.find (fun l => Layer.id l =? L) (Keymap.layers keymap)) U).
  { destruct (inferLayerTapParamOrder_shape _ _ Ho) as [-> | ->]; reflexivity. }
  destruct Hbt as [-> | ->]; [exact Hdecode|].
  destruct (namedBluetoothOrOutput b && hasConstantParam b); exact Hdecode.
Qed.

Lemma preview_decodes_layerTap_witness :
  exists binding,
    onUsageClicked codeUnitCompare
      (examplePanel layerTap [keyPressExample; layerTapExample] 5) 4 = Some binding /\
    Preview.KeyPreview (Some layerTapExample) binding exampleKeymap
    = Preview.ShowLayerTap 2
        (List.find (fun l => Layer.id l =? 2) (Keymap.layers exampleKeymap)) 4.
Proof.
  apply (preview_decodes_layerTap codeUnitCompare
           (examplePanel layerTap [keyPressExample; layerTapExample] 5)
           layerTapExample (LayerTapOrder.mk Param1 Param2) 2 4 exampleKeymap);
    try reflexivity.
  now left.
Defined.

(** X25. The keymap view has no preview of its own for mod-tap: a
    behaviour of the mod-tap group that is not previewed as Bluetooth is
    shown as the plain usage in [param1], whichever parameter its order
    gives to the usage. For a behaviour with the modifier on [param1] the
    binding the panel emits, once a modifier is chosen and the palette is
    rendered, is therefore previewed by the chosen modifier value, not by
    the usage. *)
Theorem preview_shows_param1_for_modTap localeCompare st b keymap :
  modTapBehavior localeCompare st = Some b ->
  (namedBluetoothOrOutput b && hasConstantParam b = false \/
   Preview.inferBluetoothParamOrder b = None) ->
  (forall binding,
     Preview.KeyPreview (Some b) binding keymap
     = Preview.ShowUsage (Binding.param1 binding))
  /\
  (forall order M U,
     canEdit st = true ->
     Panel.behaviorGroup st = modTap ->
     inferModTapParamOrder b = Some order ->
     Panel.modTapModifierValue st = Some M ->
     ModTapOrder.modParam order = Param1 ->
     exists binding,
       onUsageClicked localeCompare st U = Some binding /\
       Preview.KeyPreview (Some b) binding keymap = Preview.ShowUsage M /\
       bindingParam (ModTapOrder.modParam order) binding = M /\
       bindingParam (ModTapOrder.usageParam order) binding = U).
Proof.
  intros Hb Hbt.
  assert (Hgroup : hasHidUsageParam b = true /\ hasLayerIdParam b = false).
  { apply findById_In in Hb. unfold modTapBehaviors in Hb.
    apply sortWith_In in Hb. unfold getQuickModTapBehaviors in Hb.
    apply filter_In in Hb as [_ H].
    apply andb_true_iff in H as [H Hl]. apply andb_true_iff in H as [Hu _].
    apply negb_true_iff in Hl. auto. }
  destruct Hgroup as [Hu Hl].
  assert (Hshow : forall binding,
             Preview.KeyPreview (Some b) binding keymap
             = Preview.ShowUsage (Binding.param1 binding)).
  { intros binding. unfold Preview.KeyPreview. fold (namedBluetoothOrOutput b).
    rewrite Hu, Hl. cbn [andb].
    destruct Hbt as [-> | ->]; [reflexivity|].
    now destruct (namedBluetoothOrOutput b && hasConstantParam b). }
  split; [exact Hshow|].
  intros order M U Hedit Hg Ho HM Hmod.
  apply inferModTapParamOrder_set in Ho as Hset. destruct Hset as (set & _ & Hs).
  apply modTapOrderOfSet_Some in Hs as (_ & _ & Hother).
  eexists. split.
  { apply (onUsageClicked_modTap localeCompare st b order M U); assumption. }
  rewrite Hshow, Hother, Hmod. repeat split; reflexivity.
Qed.

Lemma preview_shows_param1_for_modTap_witness :
  exists binding,
    onUsageClicked codeUnitCompare modTapPanel 7 = Some binding /\
    Preview.KeyPreview (Some modTapExample) binding exampleKeymap
    = Preview.ShowUsage 1 /\
    bindingParam Param1 binding = 1 /\
    bindingParam Param2 binding = 7.
Proof.
  apply (proj2 (preview_shows_param1_for_modTap codeUnitCompare modTapPanel
                  modTapExample exampleKeymap eq_refl (or_introl eq_refl))
           (ModTapOrder.mk Param1 Param2) 1 7); reflexivity.
Defined.

(** X26. The keymap view decodes what the panel encodes for a Bluetooth
    action, when the behaviour is named like one and the preview recognises
    its action constants: the action line is the abbreviation of the name
    declared for the pressed constant, and the profile line, shown only
    when that name is exactly "Select Profile", is the profile the panel
    wrote into the binding. *)
Theorem preview_decodes_bluetooth localeCompare st a click behavior order keymap :
  bluetoothActionClick localeCompare st a = Some click ->
  bluetoothBehavior localeCompare st = Some behavior ->
  Preview.inferBluetoothParamOrder behavior = Some order ->
  namedBluetoothOrOutput behavior = true ->
  exists value,
    choiceConstant a = Some value /\
    bluetoothOrder localeCompare st = Some order /\
    Preview.KeyPreview (Some behavior) (BtClick.emitted click) keymap
    = Preview.ShowBluetooth
        (Preview.abbreviateBluetoothBehavior (Behavior.displayName behavior))
        (Preview.abbreviateBluetoothAction
           (Preview.constantLabelForValue behavior
              (BluetoothOrder.actionParam order) value))
        (match Preview.constantLabelForValue behavior
                 (BluetoothOrder.actionParam order) value with
         | Some n =>
             if String.eqb n "Select Profile"
             then Some (if wantsProfile localeCompare st
                        then effectiveProfile localeCompare st behavior order
                        else 0)
             else None
         | None => None
         end).
Proof.
  intros Hclick Hb Hprev Hnamed.
  assert (Ho : bluetoothOrder localeCompare st = Some order).
  { unfold bluetoothOrder. rewrite Hb. unfold inferBluetoothParamOrder.
    unfold Preview.inferBluetoothParamOrder in Hprev. now rewrite Hprev. }
  destruct (actionsRendered localeCompare st) eqn:Hr;
    [|unfold bluetoothActionClick in Hclick; rewrite Hb, Ho, Hr in Hclick; discriminate].
  destruct (choiceConstant a) as [value|] eqn:Hv;
    [|unfold bluetoothActionClick in Hclick; rewrite Hb, Ho, Hr, Hv in Hclick;
      discriminate].
  destruct (canEdit st) eqn:He;
    [|unfold bluetoothActionClick in Hclick; rewrite Hb, Ho, Hr, Hv, He in Hclick;
      discriminate].
  destruct (bluetoothActionClick_emitted localeCompare st behavior order a value
              Hb Ho Hr He Hv) as (click' & Hc' & Hid & Hact & Hoth).
  rewrite Hclick in Hc'. injection Hc' as <-.
  exists value. split; [reflexivity|]. split; [exact Ho|].
  destruct (bluetoothBehavior_group _ _ _ Hb) as (Hconst & _ & _).
  assert (Horder : inferBluetoothParamOrder behavior = Some order).
  { unfold bluetoothOrder in Ho. now rewrite Hb in Ho. }
  pose proof (inferBluetoothParamOrder_resolved _ _ Horder) as Hres.
  unfold resolvedProfileParam in Hres.
  unfold Preview.KeyPreview. fold (namedBluetoothOrOutput behavior).
  rewrite Hnamed, Hconst, Hprev. cbn [andb]. rewrite Hact, Hres, Hoth.
  destruct (Preview.constantLabelForValue behavior (BluetoothOrder.actionParam order) value)
    as [n|]; reflexivity.
Qed.

Lemma preview_decodes_bluetooth_witness :
  exists value,
    choiceConstant ("Select Profile", Some (constantDesc "Select Profile" 13))
    = Some value /\
    bluetoothOrder codeUnitCompare (bluetoothPanel bluetoothWithProfiles (Some 13) (Some 3))
    = Some (BluetoothOrder.mk Param1 (Some Param2)) /\
    Preview.KeyPreview (Some bluetoothWithProfiles) (Binding.mk 31 13 3) exampleKeymap
    = Preview.ShowBluetooth
        (Preview.abbreviateBluetoothBehavior (Behavior.displayName bluetoothWithProfiles))
        (Preview.abbreviateBluetoothAction
           (Preview.constantLabelForValue bluetoothWithProfiles Param1 value))
        (match Preview.constantLabelForValue bluetoothWithProfiles Param1 value with
         | Some n =>
             if String.eqb n "Select Profile"
             then Some (if wantsProfile codeUnitCompare
                             (bluetoothPanel bluetoothWithProfiles (Some 13) (Some 3))
                        then effectiveProfile codeUnitCompare
                               (bluetoothPanel bluetoothWithProfiles (Some 13) (Some 3))
                               bluetoothWithProfiles
                               (BluetoothOrder.mk Param1 (Some Param2))
                        else 0)
             else None
         | None => None
         end).
Proof.
  apply (preview_decodes_bluetooth codeUnitCompare
           (bluetoothPanel bluetoothWithProfiles (Some 13) (Some 3))
           ("Select Profile", Some (constantDesc "Select Profile" 13))
           (BtClick.mk (Binding.mk 31 13 3) (Some 13) (Some 3))
           bluetoothWithProfiles (BluetoothOrder.mk Param1 (Some Param2)) exampleKeymap);
    vm_compute; reflexivity.
Defined.

(** * Properties of the palette *)

(** X27. Every key of the palette of a category carries a usage of one
    page: the consumer page for media, the keyboard page for every other
    category, the page whose range the behaviour list of the category is
    filtered by. The keyboard ids offered lie between 4 and 231, the
    consumer ids between 181 and 234. *)
Theorem paletteRows_pages hid_usage_from_page_and_id hid_usage_get_labels_short
    category rows :
  paletteRows hid_usage_from_page_and_id hid_usage_get_labels_short category = Ret rows ->
  forall row spec,
    In row rows -> In spec row ->
    exists id,
      KeySpec.usage spec = hid_usage_from_page_and_id (categoryPage category) (Int id) /\
      (if Category_eqb category media then 181 <= id <= 234 else 4 <= id <= 231).
Proof.
  intros Hrows row spec Hrow Hspec.
  assert (Hall : Forall (Forall (fun spec =>
            exists id,
              KeySpec.usage spec
              = hid_usage_from_page_and_id (categoryPage category) (Int id) /\
              (if Category_eqb category media
               then 181 <= id <= 234 else 4 <= id <= 231))) rows).
  { destruct category; cbv -[usageLabel] in Hrows; injection Hrows as <-.
    all: cbn [categoryPage Category_eqb].
    all: repeat (apply Forall_cons_2;
                 [repeat (apply Forall_cons_2;
                          [eexists; split; [reflexivity | split; discriminate]|]);
                  apply Forall_nil_2|]).
    all: apply Forall_nil_2. }
  rewrite Forall_forall in Hall. apply list_elem_of_In in Hrow, Hspec.
  specialize (Hall row Hrow). rewrite Forall_forall in Hall.
  exact (Hall spec Hspec).
Qed.

Lemma paletteRows_pages_witness :
  exists id,
    KeySpec.usage (makeKeyboardSpec exampleUsageTable noLabels KEYBOARD_PAGE (Int 58) None)
    = exampleUsageTable (categoryPage func) (Int id) /\
    (if Category_eqb func media then 181 <= id <= 234 else 4 <= id <= 231).
Proof.
  apply (paletteRows_pages exampleUsageTable noLabels func
           [rangeSpecs exampleUsageTable noLabels 12 58] eq_refl
           (rangeSpecs exampleUsageTable noLabels 12 58)).
  - now left.
  - now left.
Defined.

(** * Further round trips of the panel *)













Lemma fold_insert_lookup_last {V} (key : V -> string) (l : list V) :
  forall (m : gmap string V) (k : string),
    fold_left (fun m c => <[key c := c]> m) l m !! k
    = match List.find (fun v => String.eqb (key v) k) (rev l) with
      | Some v => Some v
      | None => m !! k
      end.
Proof.
  induction l as [|x l IH] using rev_ind; intros m k; [reflexivity|].
  rewrite fold_left_app, rev_app_distr. cbn [fold_left rev app List.find].
  destruct (String.eqb (key x) k) eqn:E.
  - apply String.eqb_eq in E. rewrite <- E. apply lookup_insert_eq.
  - apply String.eqb_neq in E. rewrite lookup_insert_ne by exact E. apply IH.
Qed.

(** [sort] with a comparator under which any two elements are comparable
    leaves each element in front of its successor. *)
Lemma insertSorted_Sorted {A} (cmp : A -> A -> Z) x l :
  (forall a b, cmp a b <= 0 \/ cmp b a <= 0) ->
  Sorted (fun a b => cmp a b <= 0) l ->
  Sorted (fun a b => cmp a b <= 0) (insertSorted cmp x l).
Proof.
  intros Htotal. induction l as [|y l IH]; intros Hs; cbn [insertSorted].
  - repeat constructor.
  - destruct (Z.leb_spec (cmp x y) 0) as [Hxy|Hxy].
    + constructor; [exact Hs | now constructor].
    + apply Sorted_inv in Hs as [Hs Hhd]. constructor; [now apply IH|].
      destruct l as [|z l]; cbn [insertSorted].
      * constructor. destruct (Htotal x y); lia.
      * destruct (cmp x z <=? 0).
        -- constructor. destruct (Htotal x y); lia.
        -- constructor. now apply HdRel_inv in Hhd.
Qed.

Lemma sortWith_Sorted {A} (cmp : A -> A -> Z) l :
  (forall a b, cmp a b <= 0 \/ cmp b a <= 0) ->
  Sorted (fun a b => cmp a b <= 0) (sortWith cmp l).
Proof.
  intros Htotal. induction l as [|x l IH]; [constructor|].
  unfold sortWith in *. cbn [fold_right]. now apply insertSorted_Sorted.
Qed.

Lemma codeUnitCompare_total a b :
  codeUnitCompare a b <= 0 \/ codeUnitCompare b a <= 0.
Proof.
  revert b. induction a as [|x a IH]; intros [|y b]; cbn [codeUnitCompare];
    try (left; lia); try (right; lia).
  cbv zeta.
  destruct (Z.ltb_spec (Z.of_nat (nat_of_ascii x)) (Z.of_nat (nat_of_ascii y)));
    [left; lia|].
  destruct (Z.ltb_spec (Z.of_nat (nat_of_ascii y)) (Z.of_nat (nat_of_ascii x)));
    [right; lia|].
  apply IH.
Qed.

(** X29. The Bluetooth panel offers the six canonical actions in their
    fixed order. The constant choices of the action parameter are sorted
    by name, for a locale order under which any two names are comparable;
    the choice attached to a label is the last choice of that sorted list
    whose name equals the label up to case, white space, underscores and
    hyphens, and none when there is no such choice. *)
Theorem bluetoothActions_entries localeCompare st b order :
  (forall x y, localeCompare x y <= 0 \/ localeCompare y x <= 0) ->
  bluetoothBehavior localeCompare st = Some b ->
  bluetoothOrder localeCompare st = Some order ->
  map fst (bluetoothActions localeCompare st) = BT_ACTION_LABELS /\
  Sorted (fun c d => localeCompare (Desc.name c) (Desc.name d) <= 0)
         (collectConstantChoices localeCompare b (BluetoothOrder.actionParam order)) /\
  forall label choice,
    In (label, choice) (bluetoothActions localeCompare st) ->
    choice
    = List.find (fun c => String.eqb (normalizeName (Desc.name c)) (normalizeName label))
                (rev (collectConstantChoices localeCompare b
                        (BluetoothOrder.actionParam order))).
Proof.
  intros Htotal Hb Ho. unfold bluetoothActions. rewrite Hb, Ho. split; [|split].
  - rewrite map_map. cbn [fst]. apply map_id.
  - unfold collectConstantChoices.
    apply (sortWith_Sorted (fun c d => localeCompare (Desc.name c) (Desc.name d))).
    intros c d. apply Htotal.
  - intros label choice Hin. apply in_map_iff in Hin as (l & [= <- <-] & _).
    rewrite (fold_insert_lookup_last (fun c => normalizeName (Desc.name c))).
    rewrite lookup_empty.
    now destruct (List.find _ _).
Qed.

Lemma bluetoothActions_entries_witness :
  map fst (bluetoothActions codeUnitCompare
             (bluetoothPanel underscoreActions None None)) = BT_ACTION_LABELS /\
  Sorted (fun c d => codeUnitCompare (Desc.name c) (Desc.name d) <= 0)
         (collectConstantChoices codeUnitCompare underscoreActions Param2) /\
  forall label choice,
    In (label, choice)
       (bluetoothActions codeUnitCompare (bluetoothPanel underscoreActions None None)) ->
    choice
    = List.find (fun c => String.eqb (normalizeName (Desc.name c)) (normalizeName label))
                (rev (collectConstantChoices codeUnitCompare underscoreActions Param2)).
Proof.
  apply (bluetoothActions_entries codeUnitCompare
           (bluetoothPanel underscoreActions None None) underscoreActions
           (BluetoothOrder.mk Param2 (Some Param1)) codeUnitCompare_total);
    reflexivity.
Defined.

(** * Properties of the key codes *)

Section KeyCodeFacts.
Variable JsNumber : Type.
Variable ofZ : Z -> JsNumber.
Variable Number : string -> JsNumber.
Variable isFinite : JsNumber -> bool.
Variable strictEq lessEq : JsNumber -> JsNumber -> bool.
Variable plus minus : JsNumber -> JsNumber -> JsNumber.
Variable hid : JsNumber -> JsNumber -> JsNumber.
Hypothesis exact : smallIntegersExact JsNumber ofZ Number isFinite strictEq lessEq plus minus.

Lemma functionKey_id k s :
  In (k, s) numerals -> 1 <= k <= 12 ->
  keyboardCodeToHidUsage JsNumber ofZ Number isFinite strictEq lessEq plus minus hid
    (String "F" s) = Some (hid (ofZ 7) (ofZ (56 + k))).
Proof.
  destruct exact as (HNumber & _ & _ & Hle & Hplus & Hminus).
  intros Hin Hk. pose proof (HNumber k s Hin) as Hn.
  unfold keyboardCodeToHidUsage.
  assert (Hletter : letterBranch JsNumber ofZ hid (String "F" s) = None) by reflexivity.
  assert (Hdigit : digitBranch JsNumber ofZ Number isFinite strictEq plus hid
                     (String "F" s) = None) by reflexivity.
  rewrite Hletter, Hdigit.
  unfold functionBranch. cbn [String.prefix sliceFrom].
  destruct (ascii_dec "F" "F") as [_|Hne]; [|now destruct Hne].
  assert (Hpre : String.prefix "" s = true) by now destruct s.
  rewrite Hpre, Hn, !Hle by lia.
  assert ((1 <=? k) && (k <=? 12) = true) as ->
    by (apply andb_true_iff; split; apply Z.leb_le; lia).
  rewrite Hminus, Hplus by lia. unfold keyUsage. do 3 f_equal. lia.
Qed.

Lemma digitKey_id k s :
  In (k, s) numerals -> 0 <= k <= 9 ->
  keyboardCodeToHidUsage JsNumber ofZ Number isFinite strictEq lessEq plus minus hid
    ("Digit" ++ s) = Some (hid (ofZ 7) (ofZ (if k =? 0 then 39 else 29 + k))).
Proof.
  destruct exact as (HNumber & Hfin & Heq & _ & Hplus & _).
  intros Hin Hk. pose proof (HNumber k s Hin) as Hn.
  assert (Hshape : exists c, s = String c "").
  { cbn in Hin.
    repeat (destruct Hin as [[= <- <-]|Hin];
            [first [eexists; reflexivity | exfalso; lia]|]).
    destruct Hin. }
  destruct Hshape as [c ->].
  unfold keyboardCodeToHidUsage.
  assert (Hletter : letterBranch JsNumber ofZ hid ("Digit" ++ String c "") = None)
    by reflexivity.
  rewrite Hletter. unfold digitBranch.
  change (String.prefix "Digit" ("Digit" ++ String c "")
          && (String.length ("Digit" ++ String c "") =? 6)%nat) with true.
  change (sliceFrom 5 ("Digit" ++ String c "")) with (String c "").
  rewrite Hn, Hfin, Heq by lia. unfold keyUsage.
  destruct (k =? 0); [reflexivity|]. now rewrite Hplus by lia.
Qed.

Lemma letterKey_id c :
  65 <= charCode c <= 90 ->
  keyboardCodeToHidUsage JsNumber ofZ Number isFinite strictEq lessEq plus minus hid
    (String "K" (String "e" (String "y" (String c ""))))
  = Some (hid (ofZ 7) (ofZ (4 + (charCode c - 65)))).
Proof.
  intros Hc. unfold keyboardCodeToHidUsage, letterBranch.
  change (String.prefix "Key" (String "K" (String "e" (String "y" (String c ""))))
          && (String.length (String "K" (String "e" (String "y" (String c "")))) =? 4)%nat)
    with true.
  change (String.get 3 (String "K" (String "e" (String "y" (String c "")))))
    with (Some c).
  cbv zeta iota. change (Z.of_nat (nat_of_ascii c)) with (charCode c).
  assert ((65 <=? charCode c) && (charCode c <=? 90) = true) as ->
    by (apply andb_true_iff; split; apply Z.leb_le; lia).
  reflexivity.
Qed.
End KeyCodeFacts.

(** X30. For numbers on which integer comparison and arithmetic are
    exact, the key tester maps the code of a letter key to the usage id the
    palette uses for the letter, and the codes Digit1 to Digit9 and Digit0
    to the ids 30 to 38 and 39 of the palette's number row. It maps the
    code of the function key [k], for [k] from 1 to 12, to the id [56 + k],
    one below the id [57 + k] of the palette's function row; F1 is thereby
    mapped to the usage of CapsLock. *)
Theorem keyboardCodeToHidUsage_ids (JsNumber : Type) (ofZ : Z -> JsNumber)
    (Number : string -> JsNumber) (isFinite : JsNumber -> bool)
    (strictEq lessEq : JsNumber -> JsNumber -> bool)
    (plus minus : JsNumber -> JsNumber -> JsNumber)
    (hid : JsNumber -> JsNumber -> JsNumber) :
  smallIntegersExact JsNumber ofZ Number isFinite strictEq lessEq plus minus ->
  let toUsage :=
    keyboardCodeToHidUsage JsNumber ofZ Number isFinite strictEq lessEq plus minus hid in
  (forall c,
     65 <= charCode c <= 90 ->
     toUsage (String "K" (String "e" (String "y" (String c ""))))
     = Some (hid (ofZ 7) (ofZ (4 + (charCode c - 65)))) /\
     letterUsageId (String c "") = Ret (Int (4 + (charCode c - 65))))
  /\
  (forall k s,
     In (k, s) numerals -> 0 <= k <= 9 ->
     toUsage ("Digit" ++ s) = Some (hid (ofZ 7) (ofZ (if k =? 0 then 39 else 29 + k))))
  /\
  (forall k s,
     In (k, s) numerals -> 1 <= k <= 12 ->
     toUsage (String "F" s) = Some (hid (ofZ 7) (ofZ (56 + k))))
  /\
  toUsage "F1" = toUsage "CapsLock"
  /\
  (forall hid_usage_from_page_and_id hid_usage_get_labels_short,
     paletteRows hid_usage_from_page_and_id hid_usage_get_labels_short func
     = Ret [map (fun k => makeKeyboardSpec hid_usage_from_page_and_id
                            hid_usage_get_labels_short KEYBOARD_PAGE
                            (Int (57 + Z.of_nat k)) None)
                (seq 1 12)]).
Proof.
  intros exact toUsage. unfold toUsage. split; [|split; [|split; [|split]]].
  - intros c Hc. split; [now apply letterKey_id | now apply letterUsageId_upper].
  - intros k s. now apply digitKey_id.
  - intros k s. now apply functionKey_id.
  - rewrite (functionKey_id _ _ _ _ _ _ _ _ hid exact 1 "1") by (cbn; auto || lia).
    reflexivity.
  - reflexivity.
Qed.

Lemma keyboardCodeToHidUsage_ids_witness :
  keyboardCodeToHidUsage Num Int exampleNumberOf exampleIsFinite exampleStrictEq
    exampleLessEq examplePlus exampleMinus exampleHidUsage "F1"
  = keyboardCodeToHidUsage Num Int exampleNumberOf exampleIsFinite exampleStrictEq
      exampleLessEq examplePlus exampleMinus exampleHidUsage "CapsLock".
Proof.
  apply (keyboardCodeToHidUsage_ids Num Int exampleNumberOf exampleIsFinite
           exampleStrictEq exampleLessEq examplePlus exampleMinus exampleHidUsage).
  unfold smallIntegersExact. split; [|repeat split; reflexivity].
  intros k s Hin. cbn in Hin.
  repeat (destruct Hin as [[= <- <-]|Hin]; [reflexivity|]).
  destruct Hin.
Defined.
